(** * GenAI Image Studio: request fingerprint, prompt validation and the
      cache-backed generation path

    Shallow embedding of the core of [streamlit_app.py] and
    [IMPstreamlit_app.py]: [validate_prompt], [get_cache_path],
    [enhance_image], [generate_image], [clear_cache] and the batch tab of
    [render_batch_generation] / [main].

    Conventions of the embedding.
    - A Python [str] is a [string]; every character is a code point below
      256, so [str.lower], [str.strip], [str.split] and [str.encode] are the
      restrictions of the Python functions to that range.
    - [bytes] are [list byte].
    - [int] is [Z].
    - A wall-clock reading of [time.time()] is a [Z] (ticks of a fixed unit).
    - What the operating system and the network decide (whether a directory
      can be made, a file removed or written, what the endpoint answers) is
      supplied per call by an oracle record.
    - What the imaging library does with an image (whether [Image.open]
      accepts the bytes, whether the pixel data loads, whether an
      enhancement raises) is the interface [Imaging]. *)

From Stdlib Require Import ZArith NArith String Ascii List Strings.Byte.
From Stdlib Require Import DecimalString DecimalZ QArith Lia.
From stdpp Require Import base option list gmap strings.

Import ListNotations.

(** ** Python text primitives *)

Module Text.

(** [len(s)] *)
Definition len (s : string) : Z := Z.of_nat (String.length s).

Definition code (c : ascii) : N := N_of_ascii c.

(** [c.isspace()] for a code point below 256: TAB..CR, FS..US, SPACE,
    NEL (0x85) and NBSP (0xA0). *)
Definition isspace (c : ascii) : bool :=
  let n := code c in
  ((9 <=? n) && (n <=? 13) || (28 <=? n) && (n <=? 32)
   || (n =? 133) || (n =? 160))%N.

(** [c.lower()] for a code point below 256: A..Z and the Latin-1 capitals
    0xC0..0xDE (except the multiplication sign 0xD7) move up by 32. *)
Definition lower_char (c : ascii) : ascii :=
  let n := code c in
  if ((65 <=? n) && (n <=? 90)
      || (192 <=? n) && (n <=? 222) && negb (n =? 215))%N
  then ascii_of_N (n + 32) else c.

(** [s.lower()] *)
Fixpoint lower (s : string) : string :=
  match s with
  | EmptyString => EmptyString
  | String c s' => String (lower_char c) (lower s')
  end.

Definition is_empty (s : string) : bool :=
  match s with EmptyString => true | String _ _ => false end.

(** [s.lstrip()] *)
Fixpoint lstrip (s : string) : string :=
  match s with
  | EmptyString => EmptyString
  | String c s' => if isspace c then lstrip s' else s
  end.

(** [s.rstrip()] *)
Fixpoint rstrip (s : string) : string :=
  match s with
  | EmptyString => EmptyString
  | String c s' =>
      let r := rstrip s' in
      if is_empty r && isspace c then EmptyString else String c r
  end.

(** [s.strip()] *)
Definition strip (s : string) : string := rstrip (lstrip s).

(** [s.split()]: the maximal runs of non-whitespace characters, in order.
    [w] is the word being read. *)
Fixpoint split_from (w : string) (s : string) : list string :=
  match s with
  | EmptyString => if is_empty w then [] else [w]
  | String c s' =>
      if isspace c
      then (if is_empty w then split_from EmptyString s'
            else w :: split_from EmptyString s')
      else split_from (w +:+ String c EmptyString) s'
  end.

Definition split (s : string) : list string := split_from EmptyString s.

(** [s.split(sep)] for a one-character separator: empty pieces are kept. *)
Fixpoint split_on_from (sep : ascii) (w : string) (s : string) : list string :=
  match s with
  | EmptyString => [w]
  | String c s' =>
      if Ascii.eqb c sep then w :: split_on_from sep EmptyString s'
      else split_on_from sep (w +:+ String c EmptyString) s'
  end.

Definition split_on (sep : ascii) (s : string) : list string :=
  split_on_from sep EmptyString s.

(** [s.startswith(t)] *)
Fixpoint startswith (t s : string) : bool :=
  match t, s with
  | EmptyString, _ => true
  | String a t', String b s' => Ascii.eqb a b && startswith t' s'
  | String _ _, EmptyString => false
  end.

(** [t in s] *)
Fixpoint contains (t s : string) : bool :=
  startswith t s ||
  match s with
  | EmptyString => false
  | String _ s' => contains t s'
  end.

(** [s.endswith(t)] *)
Fixpoint endswith (t s : string) : bool :=
  String.eqb t s ||
  match s with
  | EmptyString => false
  | String _ s' => endswith t s'
  end.

(** [s[:n]] for [n >= 0] *)
Fixpoint take (n : nat) (s : string) : string :=
  match n, s with
  | S n', String c s' => String c (take n' s')
  | _, _ => EmptyString
  end.

(** [str(n)] for an [int]. *)
Definition str_int (n : Z) : string := NilEmpty.string_of_int (Z.to_int n).

(** [s.encode()]: UTF-8; a code point below 128 is one byte, one in
    128..255 is the two bytes [0xC0 | n >> 6], [0x80 | n & 0x3F]. *)
Definition encode_char (c : ascii) : list byte :=
  let n := code c in
  if (n <? 128)%N then [byte_of_ascii c]
  else [byte_of_ascii (ascii_of_N (192 + N.shiftr n 6));
        byte_of_ascii (ascii_of_N (128 + N.land n 63))].

Fixpoint encode (s : string) : list byte :=
  match s with
  | EmptyString => []
  | String c s' => encode_char c ++ encode s'
  end.

(** [bytes.decode()] on the image of [encode]; used to invert it. *)
Fixpoint decode (l : list byte) : option string :=
  match l with
  | [] => Some EmptyString
  | b :: l' =>
      let n := Byte.to_N b in
      if (n <? 128)%N then option_map (String (ascii_of_byte b)) (decode l')
      else match l' with
           | [] => None
           | b2 :: l'' =>
               option_map
                 (String (ascii_of_N ((n - 192) * 64 + (Byte.to_N b2 - 128))))
                 (decode l'')
           end
  end.

End Text.

(** ** SHA-256 (FIPS 180-4), as [hashlib.sha256(data).hexdigest()] *)

Module SHA256.

Local Open Scope Z_scope.

Definition mask32 (x : Z) : Z := x mod 2 ^ 32.
Definition add32 (x y : Z) : Z := mask32 (x + y).
Definition rotr (n x : Z) : Z :=
  mask32 (Z.lor (Z.shiftr x n) (Z.shiftl x (32 - n))).
Definition shr (n x : Z) : Z := Z.shiftr x n.

Definition Ch (x y z : Z) : Z :=
  Z.lxor (Z.land x y) (Z.land (mask32 (Z.lnot x)) z).
Definition Maj (x y z : Z) : Z :=
  Z.lxor (Z.lxor (Z.land x y) (Z.land x z)) (Z.land y z).
Definition Sigma0 (x : Z) : Z :=
  Z.lxor (Z.lxor (rotr 2 x) (rotr 13 x)) (rotr 22 x).
Definition Sigma1 (x : Z) : Z :=
  Z.lxor (Z.lxor (rotr 6 x) (rotr 11 x)) (rotr 25 x).
Definition sigma0 (x : Z) : Z :=
  Z.lxor (Z.lxor (rotr 7 x) (rotr 18 x)) (shr 3 x).
Definition sigma1 (x : Z) : Z :=
  Z.lxor (Z.lxor (rotr 17 x) (rotr 19 x)) (shr 10 x).

(** The first [n] primes. *)
Definition is_prime (n : Z) : bool :=
  (1 <? n) && forallb (fun d => negb (n mod Z.of_nat d =? 0))
                      (seq 2 (Z.to_nat n - 2)).

Fixpoint primes_from (fuel : nat) (candidate : Z) (n : nat) : list Z :=
  match fuel, n with
  | O, _ | _, O => []
  | S fuel', S n' =>
      if is_prime candidate
      then candidate :: primes_from fuel' (candidate + 1) n'
      else primes_from fuel' (candidate + 1) n
  end.

Definition first_primes (n : nat) : list Z := primes_from 400 2 n.

(** The integer cube root of [x < 2 ^ (3 * bits)], bit by bit. *)
Fixpoint cube_root (bits : nat) (r x : Z) : Z :=
  match bits with
  | O => r
  | S b =>
      let r' := r + 2 ^ Z.of_nat b in
      if r' * r' * r' <=? x then cube_root b r' x else cube_root b r x
  end.

(** The round constants: the first 32 bits of the fractional parts of the
    cube roots of the first 64 primes. *)
Definition K : list Z :=
  Eval vm_compute in
    map (fun p => mask32 (cube_root 40 0 (p * 2 ^ 96))) (first_primes 64).

(** The eight working words [a..h]. *)
Record regs : Type := Regs {
  ra : Z; rb : Z; rc : Z; rd : Z; re : Z; rf : Z; rg : Z; rh : Z
}.

(** The initial hash value: the first 32 bits of the fractional parts of
    the square roots of the first 8 primes. *)
Definition H0 : regs :=
  Eval vm_compute in
    match map (fun p => mask32 (Z.sqrt (p * 2 ^ 64))) (first_primes 8) with
    | [a; b; c; d; e; f; g; h] => Regs a b c d e f g h
    | _ => Regs 0 0 0 0 0 0 0 0
    end.

(** Padding: the bit 1, zero bytes up to 56 mod 64, then the bit length as
    a 64-bit big-endian integer. *)
Definition be_bytes (n : nat) (x : Z) : list Z :=
  map (fun i => (Z.shiftr x (8 * Z.of_nat i)) mod 256) (rev (seq 0 n)).

Definition pad (msg : list Z) : list Z :=
  let l := Z.of_nat (length msg) in
  let k := (55 - l) mod 64 in
  msg ++ [0x80] ++ repeat 0 (Z.to_nat k) ++ be_bytes 8 (8 * l).

Definition be_word (bs : list Z) : Z :=
  fold_left (fun acc b => acc * 256 + b) bs 0.

(** Cut a list in pieces of [n] elements. *)
Fixpoint chunks {A} (fuel n : nat) (l : list A) : list (list A) :=
  match fuel with
  | O => []
  | S fuel' =>
      match l with
      | [] => []
      | _ => firstn n l :: chunks fuel' n (skipn n l)
      end
  end.

Definition words_of (bs : list Z) : list Z :=
  map be_word (chunks (length bs) 4 bs).

(** Message schedule: [w] holds W_0 .. W_(t-1); append W_t. *)
Definition next_w (w : list Z) : Z :=
  let t := length w in
  add32 (add32 (sigma1 (nth (t - 2) w 0)) (nth (t - 7) w 0))
        (add32 (sigma0 (nth (t - 15) w 0)) (nth (t - 16) w 0)).

Fixpoint extend (n : nat) (w : list Z) : list Z :=
  match n with
  | O => w
  | S n' => extend n' (w ++ [next_w w])
  end.

Definition round (s : regs) (kw : Z * Z) : regs :=
  let '(k, w) := kw in
  let t1 := add32 (add32 (add32 (add32 (rh s) (Sigma1 (re s)))
                                (Ch (re s) (rf s) (rg s))) k) w in
  let t2 := add32 (Sigma0 (ra s)) (Maj (ra s) (rb s) (rc s)) in
  Regs (add32 t1 t2) (ra s) (rb s) (rc s) (add32 (rd s) t1) (re s) (rf s) (rg s).

Definition compress (h : regs) (block : list Z) : regs :=
  let w := extend 48 block in
  let s := fold_left round (combine K w) h in
  Regs (add32 (ra h) (ra s)) (add32 (rb h) (rb s))
       (add32 (rc h) (rc s)) (add32 (rd h) (rd s))
       (add32 (re h) (re s)) (add32 (rf h) (rf s))
       (add32 (rg h) (rg s)) (add32 (rh h) (rh s)).

Definition digest (msg : list byte) : regs :=
  let ws := words_of (pad (map (fun b => Z.of_N (Byte.to_N b)) msg)) in
  fold_left compress (chunks (length ws) 16 ws) H0.

Definition hex_digit (x : Z) : ascii :=
  nth (Z.to_nat (x mod 16)) (list_ascii_of_string "0123456789abcdef") "0"%char.

(** Eight lower-case hexadecimal digits of a 32-bit word. *)
Definition hex8 (x : Z) : string :=
  string_of_list_ascii
    (map (fun i => hex_digit (Z.shiftr x (4 * Z.of_nat i))) (rev (seq 0 8))).

Definition hexdigest (msg : list byte) : string :=
  let s := digest msg in
  hex8 (ra s) +:+ hex8 (rb s) +:+ hex8 (rc s) +:+ hex8 (rd s) +:+
  hex8 (re s) +:+ hex8 (rf s) +:+ hex8 (rg s) +:+ hex8 (rh s).

End SHA256.

(** ** The session and the file system the application runs against *)

(** The exceptions the code tells apart: [requests.exceptions.Timeout],
    any other [requests.exceptions.RequestException] (connection errors,
    and the [HTTPError] of [raise_for_status]), and every other
    [Exception] ([OSError], [PIL.UnidentifiedImageError], ...).  The
    argument is [str(e)]. *)
Inductive exn : Type :=
| Timeout (msg : string)
| RequestException (msg : string)
| OtherException (msg : string).

(** [st.session_state.metrics]; [streamlit_app.py] has no "total_time" key
    and never touches that field. *)
Record metrics : Type := Metrics {
  calls : Z;
  errors : Z;
  cache_hits : Z;
  total_time : Z
}.

(** [st.warning], [st.error], [st.info] *)
Inductive notice : Type :=
| Warning (msg : string)
| Error (msg : string)
| Info (msg : string).

Record world : Type := World {
  tempdir : string;                  (* tempfile.gettempdir() *)
  files : gmap string (list byte);   (* regular files, by path *)
  dirs : gset string;                (* directories, by path *)
  session_metrics : metrics;         (* st.session_state.metrics *)
  current_code : string;             (* st.session_state.current_code *)
  notices : list notice              (* what was shown, oldest first *)
}.

Definition with_files (f : gmap string (list byte)) (w : world) : world :=
  World (tempdir w) f (dirs w) (session_metrics w) (current_code w) (notices w).
Definition with_dirs (d : gset string) (w : world) : world :=
  World (tempdir w) (files w) d (session_metrics w) (current_code w) (notices w).
Definition with_metrics (m : metrics) (w : world) : world :=
  World (tempdir w) (files w) (dirs w) m (current_code w) (notices w).
Definition with_code (c : string) (w : world) : world :=
  World (tempdir w) (files w) (dirs w) (session_metrics w) c (notices w).
Definition with_notices (n : list notice) (w : world) : world :=
  World (tempdir w) (files w) (dirs w) (session_metrics w) (current_code w) n.

(** What [requests.get(url, timeout=...)] followed by
    [response.raise_for_status()] comes to. *)
Inductive http_outcome : Type :=
| HttpTimeout (msg : string)
| HttpError (msg : string)          (* a RequestException other than Timeout *)
| HttpCrash (msg : string)          (* any other exception *)
| HttpOk (content : list byte).     (* response.content *)

(** What writing the file of [img.save(path, "PNG")] comes to, once the
    image is loaded.  The code hands the final path to the library; when
    the save raises, [left] is what the file then holds: [None] when it was
    not touched, [Some b] when it was opened for writing and is left with
    the bytes [b]. *)
Inductive save_outcome : Type :=
| SaveOk
| SaveFail (left : option (list byte)) (msg : string).

(** The environment's decisions during one call. *)
Record oracle : Type := Oracle {
  makedirs_error : option string;            (* os.makedirs raises OSError *)
  read_error : option string;                (* reading the cached file raises *)
  remove_error : string -> option string;    (* os.remove(path) raises OSError *)
  listdir_error : option string;             (* os.listdir raises OSError *)
  clock_start : Z;                           (* first time.time() *)
  clock_end : Z;                             (* second time.time() *)
  http_get : string -> Z -> http_outcome;    (* by url and timeout *)
  save_result : save_outcome
}.

(** *** A state-and-exception monad for the Python code *)

Inductive outcome (A : Type) : Type :=
| Return (a : A)
| Raise (e : exn).
Arguments Return {A} a.
Arguments Raise {A} e.

Definition M (A : Type) : Type := world -> outcome A * world.

#[global] Instance M_ret : MRet M := fun A a w => (Return a, w).
#[global] Instance M_bind : MBind M := fun A B f m w =>
  match m w with
  | (Return a, w') => f a w'
  | (Raise e, w') => (Raise e, w')
  end.

Definition raise {A} (e : exn) : M A := fun w => (Raise e, w).

(** [try: body  except <any of the three classes> as e: handler e] *)
Definition try_except {A} (body : M A) (handler : exn -> M A) : M A :=
  fun w =>
    match body w with
    | (Return a, w') => (Return a, w')
    | (Raise e, w') => handler e w'
    end.

Definition get_world : M world := fun w => (Return w, w).
Definition modify (f : world -> world) : M unit := fun w => (Return tt, f w).

(** *** Paths and the operating system *)

Module OS.

(** [os.path.join(a, b)] (POSIX) *)
Definition path_join (a b : string) : string :=
  if Text.startswith "/" b then b
  else if Text.is_empty a || Text.endswith "/" a then a +:+ b
  else a +:+ "/" +:+ b.

Fixpoint strip_prefix (t s : string) : option string :=
  match t, s with
  | EmptyString, _ => Some s
  | String a t', String b s' =>
      if Ascii.eqb a b then strip_prefix t' s' else None
  | String _ _, EmptyString => None
  end.

(** [os.path.exists(p)] *)
Definition path_exists (p : string) : M bool := fun w =>
  (Return (bool_decide (is_Some (files w !! p)) || bool_decide (p ∈ dirs w)), w).

(** [os.path.isfile(p)] *)
Definition path_isfile (p : string) : M bool := fun w =>
  (Return (bool_decide (is_Some (files w !! p))), w).

(** [os.makedirs(d, exist_ok=True)]; it raises when the environment says
    so (no permission, a regular file in the way, ...). *)
Definition makedirs (o : oracle) (d : string) : M unit := fun w =>
  match makedirs_error o with
  | Some msg => (Raise (OtherException msg), w)
  | None => (Return tt, with_dirs ({[ d ]} ∪ dirs w) w)
  end.

(** [os.remove(p)] *)
Definition remove (o : oracle) (p : string) : M unit := fun w =>
  match remove_error o p with
  | Some msg => (Raise (OtherException msg), w)
  | None =>
      match files w !! p with
      | Some _ => (Return tt, with_files (delete p (files w)) w)
      | None => (Raise (OtherException "No such file or directory"), w)
      end
  end.

(** The names directly inside directory [d]. *)
Definition entries (d : string) (w : world) : list string :=
  omap (fun k =>
          match strip_prefix (path_join d "") k with
          | Some n =>
              if Text.is_empty n || Text.contains "/" n then None else Some n
          | None => None
          end)
       (elements (dom (files w) ∪ dirs w)).

(** [os.listdir(d)] *)
Definition listdir (o : oracle) (d : string) : M (list string) := fun w =>
  match listdir_error o with
  | Some msg => (Raise (OtherException msg), w)
  | None =>
      if bool_decide (d ∈ dirs w) then (Return (entries d w), w)
      else (Raise (OtherException "No such file or directory"), w)
  end.

End OS.

(** ** Code shared by [streamlit_app.py] and [IMPstreamlit_app.py] *)

Definition POLLINATIONS_URL : string := "https://image.pollinations.ai/prompt/".
Definition MAX_PROMPT_LENGTH : Z := 500.
Definition MIN_PROMPT_WORDS : Z := 3.
Definition MAX_DIMENSION : Z := 1024.
Definition DEFAULT_DIMENSION : Z := 512.
Definition REQUEST_TIMEOUT : Z := 30.

(** [set_current_code] *)
Definition set_current_code (code_snippet : string) : M unit :=
  modify (with_code code_snippet).

(** [blocked_terms] of [validate_prompt] *)
Definition blocked_terms : list string := ["nsfw"; "explicit"; "adult"; "nude"].

(** [validate_prompt] *)
Definition validate_prompt (prompt : string) : bool * string :=
  if Text.is_empty prompt || Text.is_empty (Text.strip prompt)
  then (false, "Prompt cannot be empty")
  else if (Text.len prompt >? MAX_PROMPT_LENGTH)%Z
  then (false, "Prompt too long (max " +:+ Text.str_int MAX_PROMPT_LENGTH
               +:+ " characters)")
  else
    let word_count := Z.of_nat (length (Text.split (Text.strip prompt))) in
    if (word_count <? MIN_PROMPT_WORDS)%Z
    then (false, "Prompt too short (minimum " +:+ Text.str_int MIN_PROMPT_WORDS
                 +:+ " words)")
    else if existsb (fun term => Text.contains term (Text.lower prompt))
                    blocked_terms
    then (false, "Prompt contains inappropriate content")
    else (true, "Valid prompt").

(** The canonical string of [get_cache_path]:
    [f"{prompt}|{negative}|{style}|{width}|{height}"]. *)
Definition cache_key (prompt negative style : string) (width height : Z)
  : string :=
  prompt +:+ "|" +:+ negative +:+ "|" +:+ style +:+ "|"
  +:+ Text.str_int width +:+ "|" +:+ Text.str_int height.

(** [hash_key] of [get_cache_path], with the digest
    [fun data => hashlib.sha256(data).hexdigest()] as a parameter. *)
Definition hash_key_with (hexdigest : list byte -> string)
    (prompt negative style : string) (width height : Z) : string :=
  hexdigest (Text.encode (cache_key prompt negative style width height)).

(** [hash_key] of [get_cache_path]: the request's fingerprint. *)
Definition hash_key : string -> string -> string -> Z -> Z -> string :=
  hash_key_with SHA256.hexdigest.

Definition cache_dir_of (w : world) : string :=
  OS.path_join (tempdir w) "genai_cache".

(** [get_cache_path], over any digest. *)
Definition get_cache_path_with (hexdigest : list byte -> string) (o : oracle)
    (prompt negative style : string) (width height : Z) : M string :=
  let hash_key := hash_key_with hexdigest prompt negative style width height in
  w ← get_world;
  let cache_dir := cache_dir_of w in
  OS.makedirs o cache_dir;;
  mret (OS.path_join cache_dir (hash_key +:+ ".png")).

(** [get_cache_path] *)
Definition get_cache_path : oracle -> string -> string -> string -> Z -> Z
                            -> M string :=
  get_cache_path_with SHA256.hexdigest.

(** The loop of [clear_cache]; [files_deleted] survives an exception, so
    the loop returns it together with the exception, if any. *)
Fixpoint clear_cache_loop (o : oracle) (cache_dir : string)
    (names : list string) (files_deleted : Z) : world -> (Z * option exn) * world :=
  fun w =>
    match names with
    | [] => ((files_deleted, None), w)
    | filename :: rest =>
        let file_path := OS.path_join cache_dir filename in
        if bool_decide (is_Some (files w !! file_path))
           && Text.endswith ".png" filename
        then
          match (set_current_code ("os.remove('" +:+ filename +:+ "')");;
                 OS.remove o file_path) w with
          | (Return _, w') =>
              clear_cache_loop o cache_dir rest (files_deleted + 1)%Z w'
          | (Raise e, w') => ((files_deleted, Some e), w')
          end
        else clear_cache_loop o cache_dir rest files_deleted w
    end.

Definition exn_str (e : exn) : string :=
  match e with
  | Timeout msg | RequestException msg | OtherException msg => msg
  end.

Definition st_error (msg : string) : M unit :=
  modify (fun w => with_notices (notices w ++ [Error msg]) w).
Definition st_warning (msg : string) : M unit :=
  modify (fun w => with_notices (notices w ++ [Warning msg]) w).
Definition st_info (msg : string) : M unit :=
  modify (fun w => with_notices (notices w ++ [Info msg]) w).

(** [clear_cache] *)
Definition clear_cache (o : oracle) : M Z :=
  set_current_code "cache_dir = os.path.join(tempfile.gettempdir(), 'genai_cache')";;
  w ← get_world;
  let cache_dir := cache_dir_of w in
  ex ← OS.path_exists cache_dir;
  if negb ex then set_current_code "";; mret 0%Z
  else
    fun w0 =>
      match (set_current_code "for filename in os.listdir(cache_dir):";;
             OS.listdir o cache_dir) w0 with
      | (Raise e, w1) =>
          (set_current_code "";;
           st_error ("Error clearing cache: " +:+ exn_str e);;
           mret 0%Z) w1
      | (Return names, w1) =>
          match clear_cache_loop o cache_dir names 0%Z w1 with
          | ((files_deleted, None), w2) =>
              (set_current_code "";; mret files_deleted) w2
          | ((files_deleted, Some e), w2) =>
              (set_current_code "";;
               st_error ("Error clearing cache: " +:+ exn_str e);;
               mret files_deleted) w2
          end
      end.

(** [requests.utils.quote(s)], i.e. [urllib.parse.quote(s, safe="/")]:
    letters, digits and [_.-~/] stay, every other UTF-8 byte becomes
    [%XX] in upper-case hexadecimal. *)
Definition quote_safe (c : ascii) : bool :=
  let n := Text.code c in
  ((65 <=? n) && (n <=? 90) || (97 <=? n) && (n <=? 122)
   || (48 <=? n) && (n <=? 57)
   || (n =? 95) || (n =? 46) || (n =? 45) || (n =? 126) || (n =? 47))%N.

Definition HEX_DIGIT (x : N) : ascii :=
  nth (N.to_nat (x mod 16)) (list_ascii_of_string "0123456789ABCDEF") "0"%char.

Definition percent (b : byte) : string :=
  let n := Byte.to_N b in
  String "%" (String (HEX_DIGIT (n / 16)) (String (HEX_DIGIT n) EmptyString)).

Fixpoint quote (s : string) : string :=
  match s with
  | EmptyString => EmptyString
  | String c s' =>
      (if quote_safe c then String c EmptyString
       else fold_right (fun b acc => percent b +:+ acc) EmptyString
                       (Text.encode_char c))
      +:+ quote s'
  end.

(** [d.get(key, default)] on a dict given as its items. *)
Fixpoint dict_get (d : list (string * string)) (key default : string) : string :=
  match d with
  | [] => default
  | (k, v) :: d' => if String.eqb k key then v else dict_get d' key default
  end.

(** *** The imaging library (PIL), as the code uses it *)

Class Imaging : Type := {
  Image : Type;
  (** [Image.open] on the bytes of a file or of a [BytesIO]: the image, or
      [str(e)] of the exception it raises.  [Image.open] is lazy: it reads
      the header and leaves the pixel data to [load]. *)
  Image_open : list byte -> string + Image;
  (** [img.load()], which every use of the pixels starts with: [None] when
      the data decodes, [str(e)] of the exception it raises otherwise (a
      truncated file). *)
  Image_load : Image -> option string;
  (** The bytes [img.save(target, "PNG")] writes, for an image that
      loads. *)
  png_bytes : Image -> list byte;
  (** [ImageEnhance.Contrast(image).enhance(factor)]: the new image, or
      [str(e)] of the exception it raises ([ValueError] for a palette
      image, [OSError] for a truncated one). *)
  contrast_enhance : Q -> Image -> string + Image;
  (** [ImageEnhance.Brightness(image).enhance(factor)], likewise *)
  brightness_enhance : Q -> Image -> string + Image;
  (** [image.filter(ImageFilter.SHARPEN)], likewise *)
  filter_sharpen : Image -> string + Image;
  (** [image.filter(ImageFilter.SMOOTH)], likewise *)
  filter_smooth : Image -> string + Image
}.

(** The bytes decode as a valid image: [Image.open] accepts them and the
    pixel data loads. *)
Definition decodable `{Imaging} (content : list byte) : Prop :=
  exists img, Image_open content = inr img /\ Image_load img = None.

(** PNG is lossless: opening what [save] wrote for an image gives the
    image back. *)
Definition png_lossless `{Imaging} : Prop :=
  forall img : Image,
    Image_load img = None -> Image_open (png_bytes img) = inr img.

Section Generation.

Context `{Imaging}.

(** [Tuple[Optional[Image.Image], str, float, str]]: image, source
    ("cache", "api" or "error"), elapsed time, message. *)
Definition envelope : Type := option Image * string * Z * string.

(** [Image.open(path)] *)
Definition Image_open_file (o : oracle) (path : string) : M Image := fun w =>
  match files w !! path with
  | None => (Raise (OtherException "No such file or directory"), w)
  | Some content =>
      match read_error o with
      | Some msg => (Raise (OtherException msg), w)
      | None =>
          match Image_open content with
          | inl msg => (Raise (OtherException msg), w)
          | inr img => (Return img, w)
          end
      end
  end.

(** [Image.open(BytesIO(content))] *)
Definition Image_open_bytes (content : list byte) : M Image :=
  match Image_open content with
  | inl msg => raise (OtherException msg)
  | inr img => mret img
  end.

(** [img.save(path, "PNG")]: the image is loaded, then the file is
    opened and written. *)
Definition Image_save (o : oracle) (img : Image) (path : string) : M unit :=
  fun w =>
    match Image_load img with
    | Some msg => (Raise (OtherException msg), w)
    | None =>
        match save_result o with
        | SaveOk =>
            (Return tt, with_files (<[path := png_bytes img]> (files w)) w)
        | SaveFail None msg => (Raise (OtherException msg), w)
        | SaveFail (Some b) msg =>
            (Raise (OtherException msg), with_files (<[path := b]> (files w)) w)
        end
    end.

(** [buf = BytesIO()], [img.save(buf, format="PNG")], [buf.getvalue()] *)
Definition Image_save_buffer (img : Image) : M (list byte) :=
  match Image_load img with
  | Some msg => raise (OtherException msg)
  | None => mret (png_bytes img)
  end.

(** [requests.get(url, timeout=t)], [raise_for_status()], [.content] *)
Definition requests_get (o : oracle) (url : string) (t : Z) : M (list byte) :=
  match http_get o url t with
  | HttpTimeout msg => raise (Timeout msg)
  | HttpError msg => raise (RequestException msg)
  | HttpCrash msg => raise (OtherException msg)
  | HttpOk content => mret content
  end.

Definition bump_cache_hits : M unit :=
  modify (fun w =>
    let m := session_metrics w in
    with_metrics (Metrics (calls m) (errors m) (cache_hits m + 1) (total_time m)) w).

Definition bump_errors : M unit :=
  modify (fun w =>
    let m := session_metrics w in
    with_metrics (Metrics (calls m) (errors m + 1) (cache_hits m) (total_time m)) w).

Definition add_total_time (elapsed : Z) : M unit :=
  modify (fun w =>
    let m := session_metrics w in
    with_metrics (Metrics (calls m) (errors m) (cache_hits m)
                          (total_time m + elapsed)) w).

(** The cache check both [generate_image] functions open with: [Some] is
    the early [return], [None] falls through to the request. *)
Definition check_cache (o : oracle) (cache_path : string)
  : M (option envelope) :=
  ex ← OS.path_exists cache_path;
  if ex : bool then
    try_except
      (set_current_code "img = Image.open(cache_path)";;
       img ← Image_open_file o cache_path;
       bump_cache_hits;;
       set_current_code "";;
       mret (Some (Some img, "cache", 0%Z, "Loaded from cache")))
      (fun e =>
         (* Remove corrupted cache file *)
         OS.remove o cache_path;;
         mret None)
  else mret None.

(** The three [except] clauses both [generate_image] functions end with. *)
Definition on_error (e : exn) : M envelope :=
  match e with
  | Timeout _ =>
      set_current_code "";; bump_errors;;
      mret (None, "error", 0%Z, "Request timed out")
  | RequestException msg =>
      set_current_code "";; bump_errors;;
      mret (None, "error", 0%Z, "Network error: " +:+ msg)
  | OtherException msg =>
      set_current_code "";; bump_errors;;
      mret (None, "error", 0%Z, "Unexpected error: " +:+ msg)
  end.

(** [full_prompt] and [url] of [generate_image] *)
Definition full_prompt_of (STYLE_OPTIONS : list (string * string))
    (prompt negative style : string) : string :=
  let full_prompt := prompt +:+ ", " +:+ dict_get STYLE_OPTIONS style style in
  if negb (Text.is_empty negative)
  then full_prompt +:+ ", not " +:+ negative
  else full_prompt.

Definition url_of (encoded_prompt : string) (width height : Z) : string :=
  POLLINATIONS_URL +:+ encoded_prompt +:+ "?width=" +:+ Text.str_int width
  +:+ "&height=" +:+ Text.str_int height +:+ "&enhance=true".

End Generation.

(** ** [streamlit_app.py] *)

Module Basic.
Section Basic.

Context `{Imaging}.

Definition STYLE_OPTIONS : list (string * string) :=
  [("photorealistic", "hyper-realistic, professional photography, high detail");
   ("digital art", "digital painting, concept art, trending on artstation");
   ("watercolor", "watercolor painting, soft brush strokes, artistic");
   ("cyberpunk", "cyberpunk aesthetic, neon lights, futuristic");
   ("portrait", "professional portrait, studio lighting, detailed face");
   ("abstract", "abstract art, geometric shapes, modern art style");
   ("cartoon", "cartoon style, animated, colorful and fun")].

(** [generate_image], from [start_time = time.time()] to the end: the
    request to the endpoint, the save into the cache and the three
    [except] clauses. *)
Definition fetch_and_store (o : oracle) (cache_path : string)
    (prompt negative style : string) (width height : Z) : M envelope :=
  set_current_code "start_time = time.time()";;
  let start_time := clock_start o in
  try_except
    (set_current_code "full_prompt = f'{prompt}, {STYLE_OPTIONS.get(style, style)}'";;
     (* Build enhanced prompt with style *)
     let full_prompt := full_prompt_of STYLE_OPTIONS prompt negative style in
     set_current_code "encoded_prompt = requests.utils.quote(full_prompt)";;
     (* Construct API URL *)
     let encoded_prompt := quote full_prompt in
     let url := url_of encoded_prompt width height in
     set_current_code "response = requests.get(url, timeout=REQUEST_TIMEOUT)";;
     (* Make request with timeout *)
     content ← requests_get o url REQUEST_TIMEOUT;
     set_current_code "img = Image.open(BytesIO(response.content))";;
     (* Process image *)
     img ← Image_open_bytes content;
     set_current_code "img.save(cache_path, 'PNG')";;
     (* Cache the result *)
     Image_save o img cache_path;;
     let elapsed := (clock_end o - start_time)%Z in
     set_current_code "";;
     mret (Some img, "api", elapsed, "Generated successfully"))
    on_error.

(** [generate_image] *)
Definition generate_image (o : oracle) (prompt negative style : string)
    (width height : Z) : M envelope :=
  set_current_code "cache_path = get_cache_path(prompt, negative, style, width, height)";;
  (* Check cache first *)
  cache_path ← get_cache_path o prompt negative style width height;
  hit ← check_cache o cache_path;
  match hit with
  | Some result => mret result
  | None => fetch_and_store o cache_path prompt negative style width height
  end.

End Basic.
End Basic.

(** ** [IMPstreamlit_app.py] *)

Module Improved.
Section Improved.

Context `{Imaging}.

Definition BATCH_LIMIT : nat := 5.

Definition STYLE_OPTIONS : list (string * string) :=
  [("photorealistic", "hyper-realistic, professional photography, high detail, 8k resolution");
   ("digital art", "digital painting, concept art, trending on artstation, detailed");
   ("watercolor", "watercolor painting, soft brush strokes, artistic, flowing colors");
   ("cyberpunk", "cyberpunk aesthetic, neon lights, futuristic, dark atmosphere");
   ("portrait", "professional portrait, studio lighting, detailed face, high quality");
   ("abstract", "abstract art, geometric shapes, modern art style, colorful");
   ("cartoon", "cartoon style, animated, colorful and fun, disney-style");
   ("oil painting", "oil painting, classical art style, rich textures, masterpiece");
   ("sketch", "pencil sketch, hand-drawn, artistic lines, detailed shading");
   ("fantasy", "fantasy art, magical, mystical atmosphere, epic fantasy style")].

(** [enhance_image]: the enhanced image, or [str(e)] of the exception
    the imaging library raises. *)
Definition enhance_image (image : Image) (enhance_type : string)
  : string + Image :=
  if String.eqb enhance_type "auto" then
    (* Auto enhance brightness and contrast *)
    match contrast_enhance (11 # 10) image with
    | inl msg => inl msg
    | inr image => brightness_enhance (105 # 100) image
    end
  else if String.eqb enhance_type "sharpen" then filter_sharpen image
  else if String.eqb enhance_type "smooth" then filter_smooth image
  else inr image.

(** [generate_image], from [start_time = time.time()] to the end: the
    request to the endpoint, the optional enhancement, the save into the
    cache and the three [except] clauses. *)
Definition fetch_and_store (o : oracle) (cache_path : string)
    (prompt negative style : string) (width height : Z) (enhance : bool)
  : M envelope :=
  set_current_code "start_time = time.time()";;
  let start_time := clock_start o in
  try_except
    (set_current_code "full_prompt = f'{prompt}, {STYLE_OPTIONS.get(style, style)}'";;
     let full_prompt := full_prompt_of STYLE_OPTIONS prompt negative style in
     set_current_code "encoded_prompt = requests.utils.quote(full_prompt)";;
     let encoded_prompt := quote full_prompt in
     let url := url_of encoded_prompt width height in
     set_current_code "response = requests.get(url, timeout=REQUEST_TIMEOUT)";;
     content ← requests_get o url REQUEST_TIMEOUT;
     set_current_code "img = Image.open(BytesIO(response.content))";;
     img ← Image_open_bytes content;
     (* Apply enhancements if requested *)
     img ← (if enhance : bool
            then set_current_code "img = enhance_image(img)";;
                 match enhance_image img "auto" with
                 | inl msg => raise (OtherException msg)
                 | inr img => mret img
                 end
            else mret img);
     set_current_code "img.save(cache_path, 'PNG')";;
     Image_save o img cache_path;;
     let elapsed := (clock_end o - start_time)%Z in
     add_total_time elapsed;;
     set_current_code "";;
     mret (Some img, "api", elapsed, "Generated successfully"))
    on_error.

(** [generate_image] *)
Definition generate_image (o : oracle) (prompt negative style : string)
    (width height : Z) (enhance : bool) : M envelope :=
  set_current_code "cache_path = get_cache_path(prompt, negative, style, width, height)";;
  (* Check cache first *)
  cache_path ← get_cache_path o prompt negative style width height;
  hit ← check_cache o cache_path;
  match hit with
  | Some result => mret result
  | None => fetch_and_store o cache_path prompt negative style width height enhance
  end.

(** What the widgets of the batch tab hold when the script runs. *)
Record batch_form : Type := BatchForm {
  text_area : string;        (* "Enter Prompts (one per line)" *)
  batch_style : string;      (* one of the keys of STYLE_OPTIONS *)
  batch_width : Z;
  batch_height : Z;
  button : bool              (* "Generate Batch" was pressed *)
}.

(** The non-empty lines of the text area, stripped. *)
Definition prompts_of (text : string) : list string :=
  map Text.strip
      (List.filter (fun p => negb (Text.is_empty (Text.strip p)))
                   (Text.split_on "010"%char text)).

(** [render_batch_generation] *)
Definition render_batch_generation (ui : batch_form)
  : M (option (list string * string * Z * Z)) :=
  let batch_prompts := prompts_of (text_area ui) in
  batch_prompts ←
    (if (BATCH_LIMIT <? length batch_prompts)%nat
     then st_warning ("Too many prompts! Maximum "
                      +:+ Text.str_int (Z.of_nat BATCH_LIMIT) +:+ " allowed.");;
          mret (firstn BATCH_LIMIT batch_prompts)
     else mret batch_prompts);
  if button ui && negb (bool_decide (batch_prompts = []))
  then mret (Some (batch_prompts, batch_style ui, batch_width ui, batch_height ui))
  else
    (if negb (bool_decide (batch_prompts = []))
     then st_info ("Ready to generate "
                   +:+ Text.str_int (Z.of_nat (length batch_prompts))
                   +:+ " images")
     else mret tt);;
    mret None.

(** An entry of [batch_results]: the dict with "success": True and the PNG
    bytes, or the one with "success": False and the message. *)
Inductive batch_result : Type :=
| BatchSuccess (prompt : string) (image : list byte)
| BatchFailure (prompt : string) (error : string).

Definition result_prompt (r : batch_result) : string :=
  match r with BatchSuccess p _ | BatchFailure p _ => p end.


(** What the loop appends for one envelope; [img.save(buf, format="PNG")]
    is outside any [try]. *)
Definition batch_entry (batch_prompt : string) (r : envelope)
  : M batch_result :=
  match r with
  | (Some img, _, _, _) =>
      image ← Image_save_buffer img;
      mret (BatchSuccess batch_prompt image)
  | (None, _, _, message) => mret (BatchFailure batch_prompt message)
  end.

(** The results loop of the batch tab in [main]; [env i] is the
    environment during the [i]-th call of [generate_image]. *)
Fixpoint batch_loop (env : nat -> oracle) (i : nat) (batch_prompts : list string)
    (batch_style : string) (batch_width batch_height : Z)
    (batch_results : list batch_result) : M (list batch_result) :=
  match batch_prompts with
  | [] => mret batch_results
  | batch_prompt :: rest =>
      r ← generate_image (env i) batch_prompt "" batch_style
                         batch_width batch_height false;
      entry ← batch_entry batch_prompt r;
      batch_loop env (S i) rest batch_style batch_width batch_height
                 (batch_results ++ [entry])
  end.

(** The batch tab of [main]: [None] when nothing is generated. *)
Definition batch_tab (ui : batch_form) (env : nat -> oracle)
  : M (option (list batch_result)) :=
  batch_result ← render_batch_generation ui;
  match batch_result with
  | Some (batch_prompts, batch_style, batch_width, batch_height) =>
      batch_results ← batch_loop env 0 batch_prompts batch_style
                                 batch_width batch_height [];
      mret (Some batch_results)
  | None => mret None
  end.

End Improved.
End Improved.

(** ** Sequences of operations on the store *)

Inductive op : Type :=
| Generate (prompt negative style : string) (width height : Z)
    (* generate_image of streamlit_app.py *)
| GenerateImp (prompt negative style : string) (width height : Z) (enhance : bool)
    (* generate_image of IMPstreamlit_app.py *)
| Clear.
    (* clear_cache *)

(** One operation under the environment [o]; an exception that escapes
    ends the script run and leaves the world as it is at that point. *)
Definition step `{Imaging} (w : world) (c : op * oracle) : world :=
  match c with
  | (Generate p n s wd ht, o) => snd (Basic.generate_image o p n s wd ht w)
  | (GenerateImp p n s wd ht e, o) =>
      snd (Improved.generate_image o p n s wd ht e w)
  | (Clear, o) => snd (clear_cache o w)
  end.

Definition run `{Imaging} (ops : list (op * oracle)) (w : world) : world :=
  fold_left step ops w.


(** The save of this call either completes or leaves no bytes behind. *)
Definition save_all_or_nothing (o : oracle) : Prop :=
  match save_result o with
  | SaveOk | SaveFail None _ => True
  | SaveFail (Some _) _ => False
  end.

(** The directory can be made and a file of the store can be removed. *)
Definition store_cooperates (o : oracle) : Prop :=
  makedirs_error o = None /\ forall p, remove_error o p = None.

(** ** Vocabulary of the properties *)

(** The five arguments of [get_cache_path] and [generate_image]. *)
Record request : Type := Request {
  description : string;
  exclusions : string;
  style : string;
  width : Z;
  height : Z
}.

Definition cache_key_of (r : request) : string :=
  cache_key (description r) (exclusions r) (style r) (width r) (height r).

Definition fingerprint_with (hexdigest : list byte -> string) (r : request)
  : string :=
  hash_key_with hexdigest (description r) (exclusions r) (style r)
                (width r) (height r).

Definition fingerprint (r : request) : string :=
  hash_key (description r) (exclusions r) (style r) (width r) (height r).

(** Where the artifact of a request is stored. *)
Definition artifact_path (w : world) (r : request) : string :=
  OS.path_join (cache_dir_of w) (fingerprint r +:+ ".png").

(** Every artifact present in the store under a fingerprint decodes as a
    valid image. *)
Definition store_valid `{Imaging} (w : world) : Prop :=
  forall (r : request) (content : list byte),
    files w !! artifact_path w r = Some content -> decodable content.


(** No directory sits where an artifact is stored. *)
Definition no_dir_in_the_way (w : world) : Prop :=
  forall r, artifact_path w r ∉ dirs w.

(** The URL [generate_image] of [streamlit_app.py] requests. *)
Definition request_url (STYLE_OPTIONS : list (string * string)) (r : request)
  : string :=
  url_of (quote (full_prompt_of STYLE_OPTIONS (description r) (exclusions r)
                                (style r)))
         (width r) (height r).

(** What the request does to the files: nothing, or a write at the path. *)
Definition fetch_effect `{Imaging} (o : oracle) (path : string) (w w' : world) : Prop :=
  (files w' = files w
   \/ (exists img, save_result o = SaveOk /\ Image_load img = None
                   /\ files w' = <[path := png_bytes img]> (files w))
   \/ (exists b msg, save_result o = SaveFail (Some b) msg
                     /\ files w' = <[path := b]> (files w)))
  /\ dirs w' = dirs w /\ tempdir w' = tempdir w.



(** The world once [generate_image] has called [get_cache_path]. *)
Definition entered (w : world) : world :=
  with_dirs ({[ cache_dir_of w ]} ∪ dirs w)
    (with_code "cache_path = get_cache_path(prompt, negative, style, width, height)" w).

(** [w'] has the temporary directory of [w] and its directories, the
    cache directory included. *)
Definition same_place (w w' : world) : Prop :=
  tempdir w' = tempdir w /\ dirs w' = {[ cache_dir_of w ]} ∪ dirs w.

(** What [generate_image] does to the files of the store: it may remove
    the entry of the request, then may write it. *)
Definition generate_effect `{Imaging} (o : oracle) (path : string) (w w' : world) : Prop :=
  exists w1,
    (files w1 = files w \/ files w1 = delete path (files w))
    /\ (files w' = files w1
        \/ (exists img, save_result o = SaveOk /\ Image_load img = None
                        /\ files w' = <[path := png_bytes img]> (files w1))
        \/ (exists b msg, save_result o = SaveFail (Some b) msg
                          /\ files w' = <[path := b]> (files w1)))
    /\ tempdir w' = tempdir w.

(** ["|" in s] *)
Definition has_pipe (s : string) : bool := Text.contains "|" s.

(** [r'] is [r] with exactly one field modified. *)
Definition one_field_changed (r r' : request) : Prop :=
  (description r <> description r' /\ exclusions r = exclusions r'
   /\ style r = style r' /\ width r = width r' /\ height r = height r')
  \/ (description r = description r' /\ exclusions r <> exclusions r'
      /\ style r = style r' /\ width r = width r' /\ height r = height r')
  \/ (description r = description r' /\ exclusions r = exclusions r'
      /\ style r <> style r' /\ width r = width r' /\ height r = height r')
  \/ (description r = description r' /\ exclusions r = exclusions r'
      /\ style r = style r' /\ width r <> width r' /\ height r = height r')
  \/ (description r = description r' /\ exclusions r = exclusions r'
      /\ style r = style r' /\ width r = width r' /\ height r <> height r').

(** Empty or made of whitespace only. *)
Fixpoint blank (s : string) : bool :=
  match s with
  | EmptyString => true
  | String c s' => Text.isspace c && blank s'
  end.

(** [u] occurs in [s]. *)
Definition occurs_in (u s : string) : Prop :=
  exists a b, s = a +:+ u +:+ b.

(** The number of whitespace-separated words [validate_prompt] counts. *)
Definition word_count (prompt : string) : Z :=
  Z.of_nat (length (Text.split (Text.strip prompt))).

(** [prompt] holds a denylisted term in some casing. *)
Definition mentions_blocked_term (prompt : string) : Prop :=
  exists term u, In term blocked_terms /\ Text.lower u = term /\ occurs_in u prompt.

Definition is_lower_hex (c : ascii) : bool :=
  let n := Text.code c in
  ((48 <=? n) && (n <=? 57) || (97 <=? n) && (n <=? 102))%N.

Fixpoint all_chars (P : ascii -> bool) (s : string) : bool :=
  match s with
  | EmptyString => true
  | String c s' => P c && all_chars P s'
  end.

(** ** A small imaging library and sample environments, to run the model *)

Module Sample.

(** Images are their pixel bytes; a PNG file is the byte 0x89 followed by
    them; a file cut off after that byte has a header and no data. *)
Definition open (content : list byte) : string + list byte :=
  match content with
  | x89 :: pixels => inr pixels
  | _ => inl "cannot identify image file"
  end.

Definition load (pixels : list byte) : option string :=
  match pixels with
  | [] => Some "image file is truncated"
  | _ => None
  end.

Definition imaging : Imaging := {|
  Image := list byte;
  Image_open := open;
  Image_load := load;
  png_bytes := cons x89;
  contrast_enhance := fun _ img => inr img;
  brightness_enhance := fun _ img => inr img;
  filter_sharpen := fun img => inr img;
  filter_smooth := fun img => inr img
|}.


Definition metrics0 : metrics := Metrics 0 0 0 0.

(** A fresh session on a machine whose temporary directory is [/tmp]. *)
Definition world0 : world := World "/tmp" ∅ ∅ metrics0 "" [].

(** All goes well: the endpoint answers [content] after [took] ticks. *)
Definition answers (content : list byte) (took : Z) : oracle :=
  Oracle None None (fun _ => None) None 100 (100 + took)
         (fun _ _ => HttpOk content) SaveOk.

Definition times_out : oracle :=
  Oracle None None (fun _ => None) None 100 130
         (fun _ _ => HttpTimeout "Read timed out.") SaveOk.

(** The endpoint answers, the disk fills up while the file is written. *)
Definition disk_full (content : list byte) : oracle :=
  Oracle None None (fun _ => None) None 100 107
         (fun _ _ => HttpOk content)
         (SaveFail (Some []) "[Errno 28] No space left on device").

(** The endpoint answers, the cached file cannot be removed. *)
Definition cannot_remove (content : list byte) : oracle :=
  Oracle None None (fun _ => Some "[Errno 13] Permission denied") None 100 107
         (fun _ _ => HttpOk content) SaveOk.

(** The cache directory cannot be made. *)
Definition cannot_mkdir (content : list byte) : oracle :=
  Oracle (Some "[Errno 13] Permission denied") None (fun _ => None) None
         100 107 (fun _ _ => HttpOk content) SaveOk.

Definition picture : list byte := [x89; x50; x4e; x47].

(** A digest without collisions: the data itself, as text. *)
Definition plain_digest (data : list byte) : string := string_of_list_byte data.

(** A three-word prompt of [n + 5] characters. *)
Definition long_prompt (n : nat) : string :=
  "a b c" +:+ string_of_list_ascii (repeat "x"%char n).

(** The text of a text area, from its lines. *)
Definition lines (l : list string) : string :=
  String.concat (String "010"%char "") l.

(** Six prompts, with a blank line among them. *)
Definition six_prompts : Improved.batch_form :=
  Improved.BatchForm
    (lines ["one red fox"; "two blue birds"; ""; "  three green frogs ";
            "four grey wolves"; "five white swans"; "six black cats"])
    "watercolor" 512 512 true.


Definition car_blue_sky : request :=
  Request "red car|blue" "sky" "watercolor" 512 512.
Definition car_bluesky : request :=
  Request "red car" "blue|sky" "watercolor" 512 512.
Definition cat : request := Request "a cat on a mat" "" "watercolor" 512 512.
Definition cat_wide : request := Request "a cat on a mat" "" "watercolor" 768 512.

Definition cat_path : string :=
  "/tmp/genai_cache/" +:+ hash_key "a cat on a mat" "" "watercolor" 512 512
  +:+ ".png".

(** A session whose store holds a file that is not an image under the
    fingerprint of the cat request. *)
Definition world_corrupt : world :=
  World "/tmp" {[ cat_path := [x00; x01] ]} {[ "/tmp/genai_cache" ]}
        metrics0 "" [].








End Sample.

(** * More of the code *)

(** The [.png] files directly inside the cache directory: what
    [clear_cache] is after. *)
Definition in_cache_dir (w : world) (path : string) : Prop :=
  exists name,
    path = OS.path_join (cache_dir_of w) name
    /\ name <> "" /\ Text.contains "/" name = false
    /\ Text.endswith ".png" name = true.

(** The cache directory can be listed and its files removed. *)
Definition clear_cooperates (o : oracle) : Prop :=
  listdir_error o = None /\ forall p, remove_error o p = None.

(** The world when [clear_cache] reaches its loop. *)
Definition listing (w : world) : world :=
  with_code "for filename in os.listdir(cache_dir):"
    (with_code "cache_dir = os.path.join(tempfile.gettempdir(), 'genai_cache')" w).

(** The three kinds of envelope [generate_image] returns. *)
Definition envelope_shape `{Imaging} (e : envelope) : Prop :=
  match e with
  | (Some _, source, elapsed, message) =>
      (source = "cache" /\ elapsed = 0%Z /\ message = "Loaded from cache")
      \/ (source = "api" /\ message = "Generated successfully")
  | (None, source, elapsed, _) => source = "error" /\ elapsed = 0%Z
  end.

(** The counters after a call that returned [e]: a hit counts in
    "cache_hits", an error in "errors", and in [IMPstreamlit_app.py] the
    time of a fresh image adds to "total_time". *)
Definition counted `{Imaging} (improved : bool) (m : metrics) (e : envelope)
  : metrics :=
  let '(_, source, elapsed, _) := e in
  if String.eqb source "cache"
  then Metrics (calls m) (errors m) (cache_hits m + 1) (total_time m)
  else if String.eqb source "error"
  then Metrics (calls m) (errors m + 1) (cache_hits m) (total_time m)
  else Metrics (calls m) (errors m) (cache_hits m)
               (if improved then (total_time m + elapsed)%Z else total_time m).

(** The characters of a quoted text: the ones [quote] keeps, and ["%"]. *)
Definition url_char (c : ascii) : bool := quote_safe c || Ascii.eqb c "%".

Definition hex_value (c : ascii) : option N :=
  let n := Text.code c in
  if ((48 <=? n) && (n <=? 57))%N then Some (n - 48)%N
  else if ((65 <=? n) && (n <=? 70))%N then Some (n - 55)%N
  else None.

(** [urllib.parse.unquote_to_bytes] on the image of [quote]; used to
    invert it. *)
Fixpoint unquote (s : string) : list byte :=
  match s with
  | EmptyString => []
  | String c rest =>
      if Ascii.eqb c "%" then
        match rest with
        | String a (String b rest') =>
            match hex_value a, hex_value b with
            | Some x, Some y =>
                byte_of_ascii (ascii_of_N (16 * x + y)) :: unquote rest'
            | _, _ => []
            end
        | _ => []
        end
      else byte_of_ascii c :: unquote rest
  end.

(** ** The rotating tip of the bottom panel (both files) *)

Module Tips.

(** [st.session_state.tip_index] and [st.session_state.last_tip_change];
    a reading of [time.time()] is a rational number of seconds here. *)
Record tip_state : Type := TipState {
  tip_index : Z;
  last_tip_change : Q
}.

(** [l[i]] for a Python list: a negative index counts from the end. *)
Definition py_index {A} (l : list A) (i : Z) : outcome A :=
  let len := Z.of_nat (length l) in
  if (0 <=? i)%Z then
    match nth_error l (Z.to_nat i) with
    | Some x => Return x
    | None => Raise (OtherException "list index out of range")
    end
  else if (- len <=? i)%Z then
    match nth_error l (Z.to_nat (len + i)) with
    | Some x => Return x
    | None => Raise (OtherException "list index out of range")
    end
  else Raise (OtherException "list index out of range").

(** [get_rotating_tip]. The table [CODING_TIPS] (10 texts in
    [streamlit_app.py], 12 in [IMPstreamlit_app.py]) is a parameter: the
    function takes its length and indexes it, and its texts start with
    characters outside the range of this embedding's strings. *)
Definition get_rotating_tip (CODING_TIPS : list string) (current_time : Q)
    (s : tip_state) : outcome string * tip_state :=
  if Qlt_le_dec 3 (current_time - last_tip_change s) then
    if (Z.of_nat (length CODING_TIPS) =? 0)%Z
    then (Raise (OtherException "integer modulo by zero"), s)
    else
      let s' := TipState ((tip_index s + 1) mod Z.of_nat (length CODING_TIPS))
                         current_time in
      (py_index CODING_TIPS (tip_index s'), s')
  else (py_index CODING_TIPS (tip_index s), s).

End Tips.

(** ** [init_session_state] *)

Module Session.

(** The values [init_session_state] stores. *)
#[local] Unset Elimination Schemes.
Inductive value : Type :=
| VInt (n : Z)
| VFloat (x : Q)
| VBool (b : bool)
| VStr (s : string)
| VList (l : list value)
| VTuple (l : list value)
| VDict (items : list (string * value)).
#[local] Set Elimination Schemes.

(** [if key not in st.session_state: st.session_state.key = v] *)
Definition set_if_absent (key : string) (v : value) (s : gmap string value)
  : gmap string value :=
  match s !! key with
  | None => <[key := v]> s
  | Some _ => s
  end.

(** [init_session_state] of [streamlit_app.py]; [now] is [time.time()]. *)
Definition init_session_state_basic (now : Q) (s : gmap string value)
  : gmap string value :=
  let s := set_if_absent "history" (VList []) s in
  let s := set_if_absent "metrics"
             (VDict [("calls", VInt 0); ("errors", VInt 0);
                     ("cache_hits", VInt 0)]) s in
  let s := set_if_absent "generate" (VBool false) s in
  let s := set_if_absent "current_code" (VStr "") s in
  let s := set_if_absent "tip_index" (VInt 0) s in
  set_if_absent "last_tip_change" (VFloat now) s.

(** [init_session_state] of [IMPstreamlit_app.py] *)
Definition init_session_state (now : Q) (s : gmap string value)
  : gmap string value :=
  let s := set_if_absent "history" (VList []) s in
  let s := set_if_absent "metrics"
             (VDict [("calls", VInt 0); ("errors", VInt 0);
                     ("cache_hits", VInt 0); ("total_time", VFloat 0)]) s in
  let s := set_if_absent "generate" (VBool false) s in
  let s := set_if_absent "current_code" (VStr "") s in
  let s := set_if_absent "tip_index" (VInt 0) s in
  let s := set_if_absent "last_tip_change" (VFloat now) s in
  let s := set_if_absent "favorites" (VList []) s in
  let s := set_if_absent "collections" (VDict [("Default", VList [])]) s in
  let s := set_if_absent "batch_prompts" (VList []) s in
  set_if_absent "user_preferences"
    (VDict [("default_style", VStr "photorealistic");
            ("default_dimensions", VTuple [VInt 512; VInt 512]);
            ("auto_enhance", VBool false);
            ("save_metadata", VBool true)]) s.

Definition KEYS_basic : list string :=
  ["history"; "metrics"; "generate"; "current_code"; "tip_index";
   "last_tip_change"].

Definition KEYS : list string :=
  KEYS_basic ++ ["favorites"; "collections"; "batch_prompts";
                 "user_preferences"].

End Session.

(** ** The generation tab and the sidebar buttons of [main] *)

Module Main.

(** An entry of [st.session_state.history]; "enhanced" is only there in
    [IMPstreamlit_app.py]. *)
Record history_entry : Type := HistoryEntry {
  h_prompt : string;
  h_negative : string;
  h_style : string;
  h_width : Z;
  h_height : Z;
  h_source : string;
  h_elapsed : Z;
  h_timestamp : string;
  h_image : list byte;
  h_enhanced : option bool
}.

(** [st.session_state.generate] and [st.session_state.history]. *)
Record session : Type := Session {
  generate : bool;
  history : list history_entry
}.

(** What the sidebar widgets hold when the script runs. *)
Record controls : Type := Controls {
  prompt : string;
  negative_prompt : string;
  style : string;
  width : Z;
  height : Z;
  auto_enhance : bool;
  generate_button : bool;
  clear_cache_button : bool;
  reset_stats_button : bool
}.

Definition bump_calls : M unit :=
  modify (fun w =>
    let m := session_metrics w in
    with_metrics (Metrics (calls m + 1) (errors m) (cache_hits m) (total_time m)) w).

(** The sidebar buttons "Clear Cache" and "Reset Stats"; [improved] tells
    which file: the reset of [IMPstreamlit_app.py] also zeroes
    "total_time". *)
Definition sidebar_buttons (improved : bool) (ui : controls) (o_clear : oracle)
  : M unit :=
  (if clear_cache_button ui
   then set_current_code "Clearing cache...";;
        deleted ← clear_cache o_clear;
        mret tt
   else mret tt);;
  (if reset_stats_button ui
   then set_current_code "st.session_state.metrics = {...}";;
        modify (fun w =>
          with_metrics
            (Metrics 0 0 0
               (if improved then 0%Z else total_time (session_metrics w))) w);;
        set_current_code ""
   else mret tt).

Section Main.

Context `{Imaging}.

(** What the generation tab appends to the history; [image] is
    [buf.getvalue()]. *)
Definition entry_of (ui : controls) (source : string) (elapsed : Z)
    (timestamp : string) (image : list byte) (enhanced : option bool)
  : history_entry :=
  HistoryEntry (prompt ui) (negative_prompt ui) (style ui) (width ui)
               (height ui) source elapsed timestamp image enhanced.

(** The generation tab, given the call of [generate_image] of the file. *)
Definition generate_tab (call : M envelope) (enhanced : option bool)
    (ui : controls) (timestamp : string) (s : session)
  : world -> outcome unit * session * world :=
  fun w =>
    if generate s then
      let s := Session false (history s) in
      let '(is_valid, validation_message) := validate_prompt (prompt ui) in
      if negb is_valid then (Return tt, s, w)
      else
        match (set_current_code "Validating prompt and generating image...";;
               call) w with
        | (Raise e, w1) => (Raise e, s, w1)
        | (Return (Some img, source, elapsed, message), w1) =>
            (* [st.image(img)] and the download button: the image is
               loaded and saved into a buffer, outside any [try] *)
            match Image_save_buffer img w1 with
            | (Raise e, w1) => (Raise e, s, w1)
            | (Return image, w1) =>
                (* Update metrics and history *)
                let '(_, w2) :=
                  (set_current_code "st.session_state.metrics['calls'] += 1";;
                   bump_calls) w1 in
                let s := Session false
                           (history s ++ [entry_of ui source elapsed timestamp
                                                   image enhanced]) in
                (Return tt, s, with_code "" w2)
            end
        | (Return (None, source, elapsed, message), w1) => (Return tt, s, w1)
        end
    else (Return tt, s, w).

(** [main] of [streamlit_app.py], as far as the session, the counters and
    the store go: the "Generate Image" button, the two utility buttons,
    then the generation tab; the tabs after it only display. What [main]
    displays is left out, the texts [st.error] and [st.success] show
    included; [timestamp] is [time.strftime("%Y-%m-%d %H:%M:%S")]. *)
Definition main_basic (ui : controls) (o_clear o_gen : oracle)
    (timestamp : string) (s : session)
  : world -> outcome unit * session * world :=
  fun w =>
    let s := if generate_button ui then Session true (history s) else s in
    match sidebar_buttons false ui o_clear w with
    | (Raise e, w1) => (Raise e, s, w1)
    | (Return _, w1) =>
        generate_tab
          (Basic.generate_image o_gen (prompt ui) (negative_prompt ui)
             (style ui) (width ui) (height ui))
          None ui timestamp s w1
    end.

(** [main] of [IMPstreamlit_app.py], likewise, up to the end of its first
    tab. The buttons "Add to Favorites" and "Add to Collection" it draws
    inside the tab act on the favorites and the collections, which are not
    part of [session]. The tabs that follow are the batch tab
    ([Improved.batch_tab]), the collections ([Collections]) and the
    favorites, whose "Regenerate" button sets "generate" for the next
    run. *)
Definition main_improved (ui : controls) (o_clear o_gen : oracle)
    (timestamp : string) (s : session)
  : world -> outcome unit * session * world :=
  fun w =>
    let s := if generate_button ui then Session true (history s) else s in
    match sidebar_buttons true ui o_clear w with
    | (Raise e, w1) => (Raise e, s, w1)
    | (Return _, w1) =>
        generate_tab
          (Improved.generate_image o_gen (prompt ui) (negative_prompt ui)
             (style ui) (width ui) (height ui) (auto_enhance ui))
          (Some (auto_enhance ui)) ui timestamp s w1
    end.

End Main.

End Main.

(** ** [render_collections_manager] ([IMPstreamlit_app.py]) *)

Module Collections.

(** An item of a collection: the dict [main] appends. *)
Record item : Type := Item {
  item_prompt : string;
  item_negative : string;
  item_style : string;
  item_width : Z;
  item_height : Z;
  item_timestamp : string;
  item_image : list byte
}.

(** [st.session_state.collections], a dict in insertion order, and
    [st.session_state.selected_collection], an attribute that may not be
    there. *)
Record state : Type := State {
  collections : list (string * list item);
  selected_collection : option string
}.

(** What the widgets hold when the script runs: the text input, the
    "Create Collection" button, the collection button that was pressed if
    any, and the "Remove" button that was pressed if any, by its index. *)
Record form : Type := Form {
  new_collection : string;
  create_button : bool;
  collection_button : option string;
  remove_button : option nat
}.

(** [st.success], [st.warning] and [st.info] of this function. *)
Inductive shown : Type :=
| Success (msg : string)
| Warned (msg : string)
| Informed (msg : string).

(** [name in d] *)
Definition has (d : list (string * list item)) (name : string) : bool :=
  existsb (fun kv => String.eqb (fst kv) name) d.

(** [d[name]], [None] for [KeyError] *)
Fixpoint get (d : list (string * list item)) (name : string)
  : option (list item) :=
  match d with
  | [] => None
  | (k, v) :: d' => if String.eqb k name then Some v else get d' name
  end.

(** [d[name] = v] *)
Fixpoint set (d : list (string * list item)) (name : string) (v : list item)
  : list (string * list item) :=
  match d with
  | [] => [(name, v)]
  | (k, x) :: d' =>
      if String.eqb k name then (k, v) :: d' else (k, x) :: set d' name v
  end.

(** [l.pop(i)] for [0 <= i < len(l)]: the list without its [i]-th item. *)
Fixpoint pop (l : list item) (i : nat) : list item :=
  match l, i with
  | [], _ => []
  | _ :: l', O => l'
  | x :: l', S i' => x :: pop l' i'
  end.

Section Collections.

Context `{Imaging}.

(** The expanders of the selected collection, from item [i] on: the image
    of each item is opened and loaded to be drawn, then its "Remove"
    button is looked at. The result is the index of the button that was
    pressed, if the loop came to it. *)
Fixpoint draw_items (pressed : option nat) (i : nat) (collection : list item)
  : outcome (option nat) :=
  match collection with
  | [] => Return None
  | it :: rest =>
      match Image_open (item_image it) with
      | inl msg => Raise (OtherException msg)
      | inr img =>
          match Image_load img with
          | Some msg => Raise (OtherException msg)
          | None =>
              if bool_decide (pressed = Some i) then Return (Some i)
              else draw_items pressed (S i) rest
          end
      end
  end.

(** [render_collections_manager]: the new state, what was shown, and
    whether [st.rerun()] was called; the texts it draws are left out. A
    button only exists for a collection that is listed. *)
Definition render_collections_manager (ui : form) (s : state)
  : outcome (state * list shown * bool) :=
  (* Create new collection *)
  let '(cs, out) :=
    if create_button ui && negb (Text.is_empty (new_collection ui)) then
      if negb (has (collections s) (new_collection ui))
      then (set (collections s) (new_collection ui) [],
            [Success ("Collection '" +:+ new_collection ui +:+ "' created!")])
      else (collections s, [Warned "Collection already exists!"])
    else (collections s, []) in
  (* List existing collections *)
  let selected :=
    match collection_button ui with
    | Some name => if has cs name then Some name else selected_collection s
    | None => selected_collection s
    end in
  match selected with
  | None => Return (State cs selected, out, false)
  | Some collection_name =>
      match get cs collection_name with
      | None => Raise (OtherException collection_name)   (* KeyError *)
      | Some [] =>
          Return (State cs selected,
                  out ++ [Informed "This collection is empty"], false)
      | Some collection =>
          match draw_items (remove_button ui) 0 collection with
          | Raise e => Raise e
          | Return (Some i) =>
              Return (State (set cs collection_name (pop collection i))
                            selected, out, true)
          | Return None => Return (State cs selected, out, false)
          end
      end
  end.

End Collections.

End Collections.

(** The collections after the "create" step of
    [render_collections_manager]. *)
Definition created (ui : Collections.form) (s : Collections.state)
  : list (string * list Collections.item) :=
  if Collections.create_button ui
     && negb (Text.is_empty (Collections.new_collection ui))
     && negb (Collections.has (Collections.collections s)
                              (Collections.new_collection ui))
  then Collections.set (Collections.collections s)
                       (Collections.new_collection ui) []
  else Collections.collections s.

(** ** The prompt templates of [IMPstreamlit_app.py] *)

Module Templates.

Definition PROMPT_TEMPLATES : list (string * string) :=
  [("Landscape", "A breathtaking {subject} landscape with {lighting} lighting, {weather} weather, ultra-detailed, cinematic");
   ("Portrait", "Professional portrait of {subject}, {lighting} lighting, high detail, studio quality, {mood} expression");
   ("Abstract", "Abstract {subject} with {colors} colors, {style} style, modern art, geometric patterns");
   ("Fantasy", "Fantasy {subject} in a magical {setting}, mystical atmosphere, epic fantasy art style");
   ("Sci-Fi", "Futuristic {subject} in a {setting} environment, cyberpunk aesthetic, neon lighting, high-tech")].

(** [s.replace(old, new)] for a non-empty [old], from left to right;
    [skip] characters of a match are still to be passed over. *)
Fixpoint replace_from (old new : string) (skip : nat) (s : string) : string :=
  match s with
  | EmptyString => EmptyString
  | String c s' =>
      match skip with
      | S k => replace_from old new k s'
      | O =>
          if Text.startswith old s
          then new +:+ replace_from old new (String.length old - 1) s'
          else String c (replace_from old new 0 s')
      end
  end.

(** [s.replace(old, new)]; an empty [old] matches before every character
    and at the end. *)
Definition replace (old new s : string) : string :=
  if Text.is_empty old
  then new +:+ (fix between (s : string) : string :=
                  match s with
                  | EmptyString => EmptyString
                  | String c s' => String c (new +:+ between s')
                  end) s
  else replace_from old new 0 s.

(** The "simple template filling" of [main]. *)
Definition fill (selected_template : string) : string :=
  replace "{mood}" "confident"
    (replace "{style}" "realistic"
       (replace "{colors}" "warm"
          (replace "{weather}" "clear"
             (replace "{setting}" "African savanna"
                (replace "{lighting}" "golden hour"
                   (replace "{subject}" "majestic lion" selected_template)))))).

(** [initial_prompt] of [main] *)
Definition initial_prompt (selected_template : option string) : string :=
  match selected_template with
  | Some t => if Text.is_empty t then "" else fill t
  | None => ""
  end.

End Templates.

(** ** More sample data *)

Module More.

(** The session of [Sample.world0] once the cat request has been
    generated and stored. *)
Definition world_cached : world :=
  snd (Basic.generate_image (H := Sample.imaging)
         (Sample.answers Sample.picture 7)
         "a cat on a mat" "" "watercolor" 512 512 Sample.world0).

(** An imaging library whose enhancements leave a mark: contrast appends
    the byte 1 to the pixels, brightness the byte 2. *)
Definition marking : Imaging := {|
  Image := list byte;
  Image_open := Sample.open;
  Image_load := Sample.load;
  png_bytes := cons x89;
  contrast_enhance := fun _ img => inr (img ++ [x01]);
  brightness_enhance := fun _ img => inr (img ++ [x02]);
  filter_sharpen := fun img => inr (img ++ [x03]);
  filter_smooth := fun img => inr (img ++ [x04])
|}.

(** The widgets of the sidebar for the cat request, "Generate Image"
    pressed. *)
Definition cat_controls : Main.controls :=
  Main.Controls "a cat on a mat" "" "watercolor" 512 512 false true false false.

(** The same with a one-word description. *)
Definition short_controls : Main.controls :=
  Main.Controls "cat" "" "watercolor" 512 512 false true false false.

Definition fresh_session : Main.session := Main.Session false [].

Definition two_lines : Improved.batch_form :=
  Improved.BatchForm (Sample.lines ["one red fox"; "  "; "two blue birds"])
                     "watercolor" 512 512 true.

Definition tips : list string := ["first tip"; "second tip"; "third tip"].

Definition a_session : gmap string Session.value :=
  {[ "history" := Session.VList [Session.VStr "an entry"] ]}.

Definition an_item (p : string) : Collections.item :=
  Collections.Item p "" "watercolor" 512 512 "2024-01-01 12:00:00" Sample.picture.

Definition shelves : Collections.state :=
  Collections.State
    [("Default", [an_item "one red fox"; an_item "two blue birds"]);
     ("Animals", [])]
    (Some "Default").

End More.

(** * Properties *)

(** ** Strings *)

Section StringFacts.

Lemma app_cons (c : ascii) (s t : string) :
  String c s +:+ t = String c (s +:+ t).
Proof. reflexivity. Qed.

Lemma app_empty (t : string) : "" +:+ t = t.
Proof. reflexivity. Qed.

Lemma str_app_nil_r (s : string) : s +:+ "" = s.
Proof.
  induction s as [|c s IH]; [reflexivity|]. now rewrite app_cons, IH.
Qed.

Lemma str_app_assoc (a b c : string) : a +:+ (b +:+ c) = (a +:+ b) +:+ c.
Proof.
  induction a as [|x a IH]; [reflexivity|]. now rewrite !app_cons, IH.
Qed.

Lemma str_app_length (a b : string) :
  String.length (a +:+ b) = String.length a + String.length b.
Proof.
  induction a as [|x a IH]; [reflexivity|]. rewrite app_cons. simpl.
  now rewrite IH.
Qed.

(** Cancellation of a common suffix. *)
Lemma str_app_cancel_r (a a' r : string) : a +:+ r = a' +:+ r -> a = a'.
Proof.
  revert a'. induction a as [|x a IH]; intros [|y a'] E;
    rewrite ?app_cons, ?app_empty in E.
  - reflexivity.
  - apply (f_equal String.length) in E. simpl in E.
    rewrite str_app_length in E. lia.
  - apply (f_equal String.length) in E. simpl in E.
    rewrite str_app_length in E. lia.
  - injection E as -> E. f_equal. now apply IH.
Qed.

Lemma str_app_cancel_l (a r r' : string) : a +:+ r = a +:+ r' -> r = r'.
Proof. apply String.app_inj. Qed.

Lemma has_pipe_cons (c : ascii) (s : string) :
  has_pipe (String c s) = Ascii.eqb "|" c || has_pipe s.
Proof.
  unfold has_pipe. simpl. now rewrite andb_true_r.
Qed.

Lemma has_pipe_app (a b : string) :
  has_pipe (a +:+ b) = has_pipe a || has_pipe b.
Proof.
  induction a as [|x a IH].
  - rewrite app_empty. destruct b; reflexivity.
  - rewrite app_cons, !has_pipe_cons, IH. now rewrite orb_assoc.
Qed.

(** The first delimiter ends a field that holds none. *)
Lemma split_at_first_pipe (a a' r r' : string) :
  has_pipe a = false -> has_pipe a' = false ->
  a +:+ "|" +:+ r = a' +:+ "|" +:+ r' -> a = a' /\ r = r'.
Proof.
  revert a'. induction a as [|x a IH]; intros [|y a'] Ha Ha' E;
    rewrite ?app_cons, ?app_empty in E.
  - injection E as E. auto.
  - injection E as <- E. rewrite has_pipe_cons in Ha'. discriminate.
  - injection E as -> E. rewrite has_pipe_cons in Ha. discriminate.
  - injection E as -> E. rewrite has_pipe_cons in Ha, Ha'.
    apply orb_false_elim in Ha as [_ Ha]. apply orb_false_elim in Ha' as [_ Ha'].
    destruct (IH a' Ha Ha' E) as [-> ->]. auto.
Qed.

(** The last delimiter starts a field that holds none. *)
Lemma split_at_last_pipe (r r' b b' : string) :
  has_pipe b = false -> has_pipe b' = false ->
  r +:+ "|" +:+ b = r' +:+ "|" +:+ b' -> r = r' /\ b = b'.
Proof.
  revert r'. induction r as [|x r IH]; intros [|y r'] Hb Hb' E;
    rewrite ?app_cons, ?app_empty in E.
  - injection E as E. auto.
  - injection E as <- E. subst b.
    rewrite has_pipe_app, has_pipe_cons in Hb. simpl in Hb.
    rewrite orb_true_r in Hb. discriminate.
  - injection E as -> E. subst b'.
    rewrite has_pipe_app, has_pipe_cons in Hb'. simpl in Hb'.
    rewrite orb_true_r in Hb'. discriminate.
  - injection E as -> E. destruct (IH r' Hb Hb' E) as [-> ->]. auto.
Qed.

(** [str] of an integer is its decimal numeral: it can be read back. *)
Lemma str_int_inj (m n : Z) : Text.str_int m = Text.str_int n -> m = n.
Proof.
  unfold Text.str_int. intros E.
  apply (f_equal NilEmpty.int_of_string) in E.
  rewrite !NilEmpty.isi in E. injection E as E.
  apply (f_equal Z.of_int) in E. now rewrite !DecimalZ.of_to in E.
Qed.

Lemma string_of_uint_no_pipe (d : Decimal.uint) :
  has_pipe (NilEmpty.string_of_uint d) = false.
Proof.
  induction d; simpl; try reflexivity; rewrite has_pipe_cons, IHd; reflexivity.
Qed.

Lemma str_int_no_pipe (n : Z) : has_pipe (Text.str_int n) = false.
Proof.
  unfold Text.str_int. destruct (Z.to_int n) as [d|d]; simpl.
  - apply string_of_uint_no_pipe.
  - rewrite has_pipe_cons, string_of_uint_no_pipe. reflexivity.
Qed.

(** UTF-8 can be decoded. *)
Lemma decode_encode_char (c : ascii) (l : list byte) :
  Text.decode (Text.encode_char c ++ l) = option_map (String c) (Text.decode l).
Proof.
  destruct c as [[] [] [] [] [] [] [] []]; reflexivity.
Qed.

Lemma decode_encode (s : string) : Text.decode (Text.encode s) = Some s.
Proof.
  induction s as [|c s IH]; [reflexivity|].
  cbn [Text.encode]. now rewrite decode_encode_char, IH.
Qed.

Lemma encode_inj (s s' : string) : Text.encode s = Text.encode s' -> s = s'.
Proof.
  intros E. apply (f_equal Text.decode) in E.
  rewrite !decode_encode in E. now injection E.
Qed.

End StringFacts.

(** ** The canonical string and the fingerprint *)

Lemma regroup_last (s w x : string) :
  s +:+ "|" +:+ w +:+ x = (s +:+ "|" +:+ w) +:+ x.
Proof. now rewrite <- !str_app_assoc. Qed.

(** Without delimiters in the description and the exclusions, the
    canonical string determines the five fields. *)
Lemma cache_key_inj (p n s p' n' s' : string) (w h w' h' : Z) :
  has_pipe p = false -> has_pipe n = false ->
  has_pipe p' = false -> has_pipe n' = false ->
  cache_key p n s w h = cache_key p' n' s' w' h' ->
  p = p' /\ n = n' /\ s = s' /\ w = w' /\ h = h'.
Proof.
  unfold cache_key. intros Hp Hn Hp' Hn' E.
  apply split_at_first_pipe in E as [-> E]; [|assumption..].
  apply split_at_first_pipe in E as [-> E]; [|assumption..].
  rewrite !regroup_last in E.
  apply split_at_last_pipe in E as [E Eh]; [|apply str_int_no_pipe..].
  apply split_at_last_pipe in E as [-> Ew]; [|apply str_int_no_pipe..].
  apply str_int_inj in Eh, Ew. auto.
Qed.

(** Modifying one field modifies the canonical string, delimiters or not. *)
Lemma cache_key_sensitive (r r' : request) :
  one_field_changed r r' -> cache_key_of r <> cache_key_of r'.
Proof.
  destruct r as [p n s w h], r' as [p' n' s' w' h'].
  unfold one_field_changed, cache_key_of, cache_key. simpl.
  intros [C|[C|[C|[C|C]]]] E;
    destruct C as (Hp & Hn & Hs & Hw & Hh); subst.
  - apply str_app_cancel_r in E. contradiction.
  - apply str_app_cancel_l, str_app_cancel_l, str_app_cancel_r in E.
    contradiction.
  - do 4 apply str_app_cancel_l in E. apply str_app_cancel_r in E.
    contradiction.
  - do 6 apply str_app_cancel_l in E. apply str_app_cancel_r in E.
    apply str_int_inj in E. contradiction.
  - do 8 apply str_app_cancel_l in E. apply str_int_inj in E. contradiction.
Qed.

Section InjectiveDigest.

(** The digest, modelled as injective. *)
Variable hexdigest : list byte -> string.
Hypothesis hexdigest_inj : forall x y, hexdigest x = hexdigest y -> x = y.

Lemma fingerprint_with_inj (r r' : request) :
  fingerprint_with hexdigest r = fingerprint_with hexdigest r' ->
  cache_key_of r = cache_key_of r'.
Proof.
  unfold fingerprint_with, hash_key_with, cache_key_of.
  intros E. now apply encode_inj, hexdigest_inj.
Qed.

(** C1, amended: two requests that differ in at least one field and whose
    descriptions and exclusions hold no delimiter ["|"] have distinct
    canonical strings, hence distinct fingerprints under an injective
    digest. *)
Theorem distinct_requests_distinct_fingerprints (r r' : request) :
  has_pipe (description r) = false -> has_pipe (exclusions r) = false ->
  has_pipe (description r') = false -> has_pipe (exclusions r') = false ->
  r <> r' ->
  cache_key_of r <> cache_key_of r'
  /\ fingerprint_with hexdigest r <> fingerprint_with hexdigest r'.
Proof.
  intros Hp Hn Hp' Hn' Hne.
  assert (K : cache_key_of r <> cache_key_of r').
  { intros E. apply Hne.
    destruct r as [p n s w h], r' as [p' n' s' w' h'].
    unfold cache_key_of in E. simpl in Hp, Hn, Hp', Hn', E.
    apply cache_key_inj in E; [|assumption..].
    destruct E as (Ep & En & Es & Ew & Eh). now subst. }
  split; [exact K|]. intros E. now apply K, fingerprint_with_inj.
Qed.

(** C8: modifying exactly one of description, exclusions, style, width and
    height while the other four are held fixed changes the canonical
    string, hence the fingerprint under an injective digest. *)
Theorem one_field_changes_fingerprint (r r' : request) :
  one_field_changed r r' ->
  cache_key_of r <> cache_key_of r'
  /\ fingerprint_with hexdigest r <> fingerprint_with hexdigest r'.
Proof.
  intros C. pose proof (cache_key_sensitive r r' C) as K.
  split; [exact K|]. intros E. now apply K, fingerprint_with_inj.
Qed.

End InjectiveDigest.

Lemma plain_digest_inj (x y : list byte) :
  Sample.plain_digest x = Sample.plain_digest y -> x = y.
Proof.
  unfold Sample.plain_digest. intros E.
  apply (f_equal list_byte_of_string) in E.
  now rewrite !list_byte_of_string_of_list_byte in E.
Qed.

Lemma distinct_requests_distinct_fingerprints_witness :
  cache_key_of Sample.cat <> cache_key_of Sample.cat_wide
  /\ fingerprint_with Sample.plain_digest Sample.cat
     <> fingerprint_with Sample.plain_digest Sample.cat_wide.
Proof.
  apply (distinct_requests_distinct_fingerprints
           Sample.plain_digest plain_digest_inj Sample.cat Sample.cat_wide);
    [reflexivity | reflexivity | reflexivity | reflexivity | discriminate].
Defined.

Lemma one_field_changes_fingerprint_witness :
  cache_key_of Sample.car_blue_sky
  <> cache_key_of (Request "red car|blue" "sky" "watercolor" 512 768)
  /\ fingerprint_with Sample.plain_digest Sample.car_blue_sky
     <> fingerprint_with Sample.plain_digest
          (Request "red car|blue" "sky" "watercolor" 512 768).
Proof.
  apply (one_field_changes_fingerprint Sample.plain_digest plain_digest_inj).
  unfold one_field_changed. simpl. do 4 right.
  repeat split; try reflexivity. discriminate.
Defined.

(** C1, as stated, fails: moving a delimiter from the description into
    the exclusions gives a different request with the same canonical
    string, hence the same fingerprint under every digest, SHA-256
    included. *)
Lemma delimiter_collision :
  Sample.car_blue_sky <> Sample.car_bluesky
  /\ cache_key_of Sample.car_blue_sky = cache_key_of Sample.car_bluesky
  /\ fingerprint Sample.car_blue_sky = fingerprint Sample.car_bluesky
  /\ (forall hexdigest,
         fingerprint_with hexdigest Sample.car_blue_sky
         = fingerprint_with hexdigest Sample.car_bluesky)
  /\ ~ (forall r r', r <> r' -> cache_key_of r <> cache_key_of r').
Proof.
  assert (N : Sample.car_blue_sky <> Sample.car_bluesky) by discriminate.
  assert (K : cache_key_of Sample.car_blue_sky = cache_key_of Sample.car_bluesky)
    by reflexivity.
  split; [exact N|]. split; [exact K|]. split; [|split].
  - exact (f_equal (fun k => SHA256.hexdigest (Text.encode k)) K).
  - intros hexdigest. exact (f_equal (fun k => hexdigest (Text.encode k)) K).
  - intros A. exact (A _ _ N K).
Qed.

(** ** The fingerprint is a SHA-256 hexadecimal digest *)

Lemma all_chars_app (P : ascii -> bool) (a b : string) :
  all_chars P (a +:+ b) = all_chars P a && all_chars P b.
Proof.
  induction a as [|x a IH]; [reflexivity|].
  rewrite app_cons. simpl. now rewrite IH, andb_assoc.
Qed.

Lemma hex_digit_lower (x : Z) : is_lower_hex (SHA256.hex_digit x) = true.
Proof.
  unfold SHA256.hex_digit.
  assert (B : (Z.to_nat (x mod 16) < 16)%nat).
  { pose proof (Z.mod_pos_bound x 16 eq_refl). lia. }
  revert B. generalize (Z.to_nat (x mod 16)). intros n B.
  do 16 (destruct n as [|n]; [reflexivity|]). lia.
Qed.

Lemma hex8_length (x : Z) : String.length (SHA256.hex8 x) = 8.
Proof. reflexivity. Qed.

Lemma hex8_lower (x : Z) : all_chars is_lower_hex (SHA256.hex8 x) = true.
Proof.
  unfold SHA256.hex8.
  cbn [rev seq map app string_of_list_ascii all_chars].
  now rewrite !hex_digit_lower.
Qed.

Lemma hexdigest_length (data : list byte) :
  String.length (SHA256.hexdigest data) = 64.
Proof.
  unfold SHA256.hexdigest. cbv zeta. now rewrite !str_app_length, !hex8_length.
Qed.

Lemma hexdigest_lower (data : list byte) :
  all_chars is_lower_hex (SHA256.hexdigest data) = true.
Proof.
  unfold SHA256.hexdigest. cbv zeta. now rewrite !all_chars_app, !hex8_lower.
Qed.

(** The model of the digest agrees with [hashlib] on the canonical string
    [a cat on a mat|dog|watercolor|512|512]. *)
Example fingerprint_sample :
  fingerprint (Request "a cat on a mat" "dog" "watercolor" 512 512)
  = "b4146bfc258e93b5fe211a5ab34aad1ce661e0bf30f74a46a6a198e79778868b".
Proof. vm_compute. reflexivity. Qed.

(** The model of the digest agrees with the examples of FIPS 180-4: the
    empty message, one block, and two blocks. *)
Lemma sha256_known_answers :
  SHA256.hexdigest (Text.encode "")
  = "e3b0c44298fc1c149afbf4c8996fb92427ae41e4649b934ca495991b7852b855"
  /\ SHA256.hexdigest (Text.encode "abc")
     = "ba7816bf8f01cfea414140de5dae2223b00361a396177a9cb410ff61f20015ad"
  /\ SHA256.hexdigest
       (Text.encode "abcdbcdecdefdefgefghfghighijhijkijkljklmklmnlmnomnopnopq")
     = "248d6a61d20638b8e5c026930c3e6039a33ce45964ff2167f6ecedd419db06c1".
Proof. repeat split; vm_compute; reflexivity. Qed.

(** C4, amended: the fingerprint [get_cache_path] computes is a function
    of the five request fields alone. In every session, with every state
    of the files and every environment, [get_cache_path] returns exactly
    when the cache directory can be made, and what it returns is the file
    [<fingerprint>.png] of the cache directory, where the fingerprint is
    the SHA-256 digest, 64 lower-case hexadecimal digits, of the UTF-8
    bytes of [description|exclusions|style|width|height]. It is not free
    of side effects nor of failure: it creates the cache directory,
    touching no file and no counter, and it raises the error of
    [os.makedirs] when that fails. The digest of the model is SHA-256 on
    the examples of FIPS 180-4. *)
Theorem fingerprint_deterministic_sha256_hex (r : request) (o : oracle)
    (w : world) :
  let canonical :=
    description r +:+ "|" +:+ exclusions r +:+ "|" +:+ style r +:+ "|"
    +:+ Text.str_int (width r) +:+ "|" +:+ Text.str_int (height r) in
  let digest := SHA256.hexdigest (Text.encode canonical) in
  let call :=
    get_cache_path o (description r) (exclusions r) (style r)
                   (width r) (height r) w in
  String.length digest = 64
  /\ all_chars is_lower_hex digest = true
  /\ (makedirs_error o = None ->
      fst call
      = Return (OS.path_join (OS.path_join (tempdir w) "genai_cache")
                             (digest +:+ ".png"))
      /\ files (snd call) = files w
      /\ dirs (snd call) = {[ OS.path_join (tempdir w) "genai_cache" ]} ∪ dirs w
      /\ session_metrics (snd call) = session_metrics w)
  /\ (forall msg, makedirs_error o = Some msg ->
        call = (Raise (OtherException msg), w))
  /\ SHA256.hexdigest (Text.encode "")
     = "e3b0c44298fc1c149afbf4c8996fb92427ae41e4649b934ca495991b7852b855"
  /\ SHA256.hexdigest (Text.encode "abc")
     = "ba7816bf8f01cfea414140de5dae2223b00361a396177a9cb410ff61f20015ad"
  /\ SHA256.hexdigest
       (Text.encode "abcdbcdecdefdefgefghfghighijhijkijkljklmklmnlmnomnopnopq")
     = "248d6a61d20638b8e5c026930c3e6039a33ce45964ff2167f6ecedd419db06c1".
Proof.
  cbv zeta. split; [apply hexdigest_length|]. split; [apply hexdigest_lower|].
  split; [|split; [|exact sha256_known_answers]].
  - intros Mk.
    unfold get_cache_path, get_cache_path_with, get_world, mbind, M_bind, mret,
      M_ret, OS.makedirs. rewrite Mk. cbn [fst snd files dirs with_dirs
      session_metrics]. auto.
  - intros msg Mk.
    unfold get_cache_path, get_cache_path_with, get_world, mbind, M_bind, mret,
      M_ret, OS.makedirs. now rewrite Mk.
Qed.

Lemma fingerprint_deterministic_sha256_hex_witness :
  fst (get_cache_path (Sample.answers Sample.picture 7)
         "a cat on a mat" "" "watercolor" 512 512 Sample.world0)
  = Return "/tmp/genai_cache/fa8307ae97c04d4c0f7f3704daca815840b74317541752656214ade8f306fc03.png".
Proof.
  destruct (fingerprint_deterministic_sha256_hex Sample.cat
              (Sample.answers Sample.picture 7) Sample.world0)
    as (_ & _ & K & _).
  destruct (K eq_refl) as (E & _).
  etrans; [exact E|]. vm_compute. reflexivity.
Defined.

(** C4, as stated, fails: [get_cache_path], the only place where the code
    computes the fingerprint, has a side effect and can fail. On a valid
    request it creates the cache directory, which was not there; and where
    the directory cannot be made it raises. *)
Lemma get_cache_path_writes_and_fails :
  let run1 :=
    get_cache_path (Sample.answers Sample.picture 7)
      "a cat on a mat" "" "watercolor" 512 512 Sample.world0 in
  let run2 :=
    get_cache_path (Sample.cannot_mkdir Sample.picture)
      "a cat on a mat" "" "watercolor" 512 512 Sample.world0 in
  validate_prompt "a cat on a mat" = (true, "Valid prompt")
  /\ ("/tmp/genai_cache" ∉ dirs Sample.world0)
  /\ ("/tmp/genai_cache" ∈ dirs (snd run1))
  /\ fst run2 = Raise (OtherException "[Errno 13] Permission denied").
Proof.
  cbn zeta. split; [vm_compute; reflexivity|].
  split; [cbn; apply not_elem_of_empty|].
  split; [|reflexivity].
  cbn. apply elem_of_union_l. now apply elem_of_singleton.
Qed.

(** ** Prompt validation *)

Lemma lstrip_blank (s : string) : blank s = true -> Text.lstrip s = "".
Proof.
  induction s as [|c s IH]; [reflexivity|]. simpl.
  destruct (Text.isspace c); [exact IH | discriminate].
Qed.

Lemma lstrip_not_blank (s : string) :
  blank s = false ->
  exists c s', Text.lstrip s = String c s' /\ Text.isspace c = false.
Proof.
  induction s as [|c s IH]; [discriminate|]. simpl.
  destruct (Text.isspace c) eqn:Ec; [exact IH|]. intros _. eauto.
Qed.

(** The first test of [validate_prompt] is the test for a blank prompt. *)
Lemma empty_test (prompt : string) :
  Text.is_empty prompt || Text.is_empty (Text.strip prompt) = blank prompt.
Proof.
  destruct (blank prompt) eqn:B.
  - unfold Text.strip. rewrite (lstrip_blank _ B). apply orb_true_r.
  - destruct (lstrip_not_blank _ B) as (c & s' & E & Ec).
    unfold Text.strip. rewrite E. simpl. rewrite Ec, andb_false_r.
    destruct prompt; [discriminate | reflexivity].
Qed.

Lemma lower_app (a b : string) :
  Text.lower (a +:+ b) = Text.lower a +:+ Text.lower b.
Proof.
  induction a as [|x a IH]; [reflexivity|].
  rewrite app_cons. simpl. now rewrite IH, app_cons.
Qed.

Lemma lower_app_inv (s x y : string) :
  Text.lower s = x +:+ y ->
  exists s1 s2, s = s1 +:+ s2 /\ Text.lower s1 = x /\ Text.lower s2 = y.
Proof.
  revert s. induction x as [|c x IH]; intros s E.
  - exists "", s. auto.
  - destruct s as [|d s]; [discriminate|].
    rewrite app_cons in E. simpl in E. injection E as Ec E.
    destruct (IH s E) as (s1 & s2 & -> & L1 & L2).
    exists (String d s1), s2. simpl. rewrite Ec, L1. auto.
Qed.

Lemma startswith_app (t b : string) : Text.startswith t (t +:+ b) = true.
Proof.
  induction t as [|c t IH]; [reflexivity|].
  rewrite app_cons. simpl. now rewrite Ascii.eqb_refl, IH.
Qed.

Lemma startswith_inv (t s : string) :
  Text.startswith t s = true -> exists b, s = t +:+ b.
Proof.
  revert s. induction t as [|c t IH]; intros s E.
  - exists s. reflexivity.
  - destruct s as [|d s]; [discriminate|]. simpl in E.
    apply andb_prop in E as [Ec E]. apply Ascii.eqb_eq in Ec as ->.
    destruct (IH s E) as [b ->]. exists b. reflexivity.
Qed.

(** [t in s] holds exactly when [t] occurs in [s]. *)
Lemma contains_occurs (t s : string) :
  Text.contains t s = true <-> occurs_in t s.
Proof.
  split.
  - induction s as [|c s IH]; simpl; intros E.
    + rewrite orb_false_r in E. apply startswith_inv in E as [b ->].
      exists "", b. reflexivity.
    + apply orb_prop in E as [E|E].
      * apply startswith_inv in E as [b ->]. exists "", b. reflexivity.
      * destruct (IH E) as (a & b & ->). exists (String c a), b. reflexivity.
  - intros (a & b & ->). induction a as [|c a IH].
    + rewrite app_empty. destruct (t +:+ b) eqn:E; simpl; rewrite <- ?E;
        rewrite startswith_app; reflexivity.
    + rewrite app_cons. simpl. rewrite IH. apply orb_true_r.
Qed.

(** The denylist test of [validate_prompt] finds a term exactly when the
    prompt holds one in some casing. *)
Lemma blocked_test (prompt : string) :
  existsb (fun term => Text.contains term (Text.lower prompt)) blocked_terms
  = true <-> mentions_blocked_term prompt.
Proof.
  rewrite existsb_exists. split.
  - intros (term & I & C). apply contains_occurs in C as (a & b & E).
    apply lower_app_inv in E as (s1 & s2' & -> & L1 & E).
    apply lower_app_inv in E as (u & s2 & -> & Lu & L2).
    exists term, u. split; [exact I|]. split; [exact Lu|]. exists s1, s2.
    reflexivity.
  - intros (term & u & I & Lu & a & b & ->). exists term. split; [exact I|].
    apply contains_occurs. exists (Text.lower a), (Text.lower b).
    now rewrite !lower_app, Lu.
Qed.

(** C7: [validate_prompt] applies four checks in order. A blank (empty or
    whitespace-only) description is rejected as empty; otherwise one longer
    than 500 characters is rejected as too long; otherwise one of fewer
    than 3 whitespace-separated words is rejected as too short; otherwise
    one that holds a denylisted term in any casing is rejected as
    inappropriate; every other description, one of exactly 500 characters
    included, is accepted. *)
Theorem validate_prompt_checks (prompt : string) :
  (blank prompt = true ->
   validate_prompt prompt = (false, "Prompt cannot be empty"))
  /\ (blank prompt = false -> (Text.len prompt > 500)%Z ->
      validate_prompt prompt = (false, "Prompt too long (max 500 characters)"))
  /\ (blank prompt = false -> (Text.len prompt <= 500)%Z ->
      (word_count prompt < 3)%Z ->
      validate_prompt prompt = (false, "Prompt too short (minimum 3 words)"))
  /\ (blank prompt = false -> (Text.len prompt <= 500)%Z ->
      (word_count prompt >= 3)%Z -> mentions_blocked_term prompt ->
      validate_prompt prompt = (false, "Prompt contains inappropriate content"))
  /\ (blank prompt = false -> (Text.len prompt <= 500)%Z ->
      (word_count prompt >= 3)%Z -> ~ mentions_blocked_term prompt ->
      validate_prompt prompt = (true, "Valid prompt")).
Proof.
  unfold validate_prompt, word_count, MAX_PROMPT_LENGTH, MIN_PROMPT_WORDS.
  rewrite empty_test.
  destruct (blank prompt); [repeat split; intros; (reflexivity || discriminate)|].
  destruct (Z.gtb_spec (Text.len prompt) 500) as [L|L];
    [repeat split; intros; (reflexivity || discriminate || lia)|].
  destruct (Z.ltb_spec (Z.of_nat (length (Text.split (Text.strip prompt)))) 3)
    as [W|W]; [repeat split; intros; (reflexivity || discriminate || lia)|].
  destruct (existsb _ blocked_terms) eqn:B.
  - apply blocked_test in B.
    repeat split; intros; (reflexivity || discriminate || lia || contradiction).
  - assert (N : ~ mentions_blocked_term prompt).
    { intros C. apply blocked_test in C. congruence. }
    repeat split; intros; (reflexivity || discriminate || lia || contradiction).
Qed.

Lemma validate_prompt_checks_witness :
  validate_prompt "   " = (false, "Prompt cannot be empty")
  /\ validate_prompt (Sample.long_prompt 496)
     = (false, "Prompt too long (max 500 characters)")
  /\ validate_prompt "two words" = (false, "Prompt too short (minimum 3 words)")
  /\ validate_prompt "An ADULT cat sits"
     = (false, "Prompt contains inappropriate content")
  /\ validate_prompt (Sample.long_prompt 495) = (true, "Valid prompt").
Proof.
  split; [apply (proj1 (validate_prompt_checks "   ")); reflexivity|].
  split; [apply (proj1 (proj2 (validate_prompt_checks (Sample.long_prompt 496))));
          [reflexivity | vm_compute; reflexivity]|].
  split; [apply (proj1 (proj2 (proj2 (validate_prompt_checks "two words"))));
          [reflexivity | vm_compute; discriminate | vm_compute; reflexivity]|].
  split.
  - apply (proj1 (proj2 (proj2 (proj2 (validate_prompt_checks "An ADULT cat sits")))));
      [reflexivity | vm_compute; discriminate | vm_compute; discriminate|].
    apply blocked_test. vm_compute. reflexivity.
  - apply (proj2 (proj2 (proj2 (proj2 (validate_prompt_checks (Sample.long_prompt 495))))));
      [reflexivity | vm_compute; discriminate | vm_compute; discriminate|].
    intros C. apply blocked_test in C. vm_compute in C. discriminate.
Defined.

(** ** The cache path *)

Lemma path_join_longer (a b : string) :
  Text.startswith "/" b = false -> b <> "" ->
  (String.length a < String.length (OS.path_join a b))%nat.
Proof.
  intros S N. unfold OS.path_join. rewrite S.
  assert (0 < String.length b)%nat by (destruct b; [contradiction | simpl; lia]).
  destruct (_ || _); rewrite ?str_app_length; simpl; lia.
Qed.

Lemma lower_hex_not_slash (c : ascii) :
  is_lower_hex c = true -> Ascii.eqb "/" c = false.
Proof.
  intros L. destruct (Ascii.eqb_spec "/"%char c) as [<-|]; [discriminate | reflexivity].
Qed.

Lemma file_name_relative (r : request) :
  Text.startswith "/" (fingerprint r +:+ ".png") = false
  /\ fingerprint r +:+ ".png" <> "".
Proof.
  pose proof (hexdigest_length (Text.encode (cache_key_of r))) as L.
  pose proof (hexdigest_lower (Text.encode (cache_key_of r))) as X.
  change (SHA256.hexdigest (Text.encode (cache_key_of r))) with (fingerprint r)
    in L, X.
  destruct (fingerprint r) as [|c s]; [discriminate|].
  simpl in X. apply andb_prop in X as [X _].
  rewrite app_cons. split; [|discriminate].
  cbn [Text.startswith]. now rewrite (lower_hex_not_slash c X).
Qed.

(** An artifact is never stored at the path of the cache directory. *)
Lemma artifact_path_not_cache_dir (w : world) (r : request) :
  artifact_path w r <> cache_dir_of w.
Proof.
  destruct (file_name_relative r) as [S N].
  pose proof (path_join_longer (cache_dir_of w) _ S N) as L.
  unfold artifact_path. intros E. rewrite E in L. lia.
Qed.

Lemma get_cache_path_ok (o : oracle) (r : request) (w : world) :
  makedirs_error o = None ->
  get_cache_path o (description r) (exclusions r) (style r) (width r) (height r) w
  = (Return (artifact_path w r),
     with_dirs ({[ cache_dir_of w ]} ∪ dirs w) w).
Proof.
  intros E.
  unfold get_cache_path, get_cache_path_with, get_world, mbind, M_bind, mret,
    M_ret, OS.makedirs. now rewrite E.
Qed.

(** ** The cache check and the request *)

#[global] Arguments Improved.enhance_image : simpl never.

Ltac unfold_M :=
  unfold mbind, M_bind, mret, M_ret, try_except, raise, modify, get_world,
    set_current_code, bump_cache_hits, bump_errors, add_total_time,
    st_error, st_warning, st_info in *.

(** Case analysis on what the environment decides. *)
Ltac step_env :=
  match goal with
  | |- context [match read_error ?o with _ => _ end] =>
      destruct (read_error o) eqn:?
  | |- context [match remove_error ?o ?p with _ => _ end] =>
      destruct (remove_error o p) eqn:?
  | |- context [match files ?w !! ?p with _ => _ end] =>
      destruct (files w !! p) eqn:?
  | |- context [match Image_open ?c with _ => _ end] =>
      destruct (Image_open c) eqn:?
  | |- context [match Image_load ?i with _ => _ end] =>
      destruct (Image_load i) eqn:?
  | |- context [match Improved.enhance_image ?i ?t with _ => _ end] =>
      destruct (Improved.enhance_image i t) eqn:?
  | |- context [match http_get ?o ?u ?t with _ => _ end] =>
      destruct (http_get o u t) eqn:?
  | |- context [match save_result ?o with _ => _ end] =>
      destruct (save_result o) as [|[?|] ?] eqn:?
  | |- context [if ?b then _ else _] => destruct b eqn:?
  end.

Ltac run_env := repeat (cbn; step_env); cbn.

Section GenerationFacts.

Context `{Imaging}.

(** Nothing is stored at [path]: the check falls through. *)
Lemma check_cache_miss (o : oracle) (path : string) (w : world) :
  files w !! path = None -> path ∉ dirs w ->
  check_cache o path w = (Return None, w).
Proof.
  intros F D. unfold check_cache, OS.path_exists. unfold_M.
  rewrite F. rewrite (bool_decide_eq_false_2 _ D).
  rewrite bool_decide_eq_false_2; [reflexivity|]. intros [? ?]. discriminate.
Qed.

(** A stored image that can be read and opened is returned. *)
Lemma check_cache_hit (o : oracle) (path : string) (w : world)
    (content : list byte) (img : Image) :
  files w !! path = Some content -> read_error o = None ->
  Image_open content = inr img ->
  exists w',
    check_cache o path w
    = (Return (Some (Some img, "cache", 0%Z, "Loaded from cache")), w')
    /\ files w' = files w /\ dirs w' = dirs w /\ tempdir w' = tempdir w.
Proof.
  intros F R I. unfold check_cache, OS.path_exists, Image_open_file. unfold_M.
  cbn. rewrite F. rewrite bool_decide_eq_true_2 by eauto. cbn.
  rewrite F, R, I. eexists. split; [reflexivity|]. auto.
Qed.

(** A stored file that cannot be read or opened is removed, and the check
    falls through. *)
Lemma check_cache_corrupt (o : oracle) (path : string) (w : world)
    (content : list byte) :
  files w !! path = Some content ->
  (read_error o <> None \/ exists msg, Image_open content = inl msg) ->
  remove_error o path = None ->
  check_cache o path w
  = (Return None,
     with_files (delete path (files w))
                (with_code "img = Image.open(cache_path)" w)).
Proof.
  intros F C R. unfold check_cache, OS.path_exists, Image_open_file, OS.remove.
  unfold_M. cbn. rewrite F. rewrite bool_decide_eq_true_2 by eauto. cbn.
  rewrite F. destruct (read_error o) as [msg|] eqn:E.
  - cbn. now rewrite R, F.
  - destruct C as [C|[msg I]]; [contradiction|]. rewrite I. cbn.
    now rewrite R, F.
Qed.

(** The check only ever removes the entry it looked at. *)
Lemma check_cache_files (o : oracle) (path : string) (w : world) :
  let w' := snd (check_cache o path w) in
  (files w' = files w \/ files w' = delete path (files w))
  /\ dirs w' = dirs w /\ tempdir w' = tempdir w.
Proof.
  unfold check_cache, OS.path_exists, Image_open_file, OS.remove. unfold_M.
  run_env; auto.
Qed.

End GenerationFacts.

Ltac run_fetch :=
  unfold Basic.fetch_and_store, Improved.fetch_and_store, requests_get,
    Image_open_bytes, Image_save, on_error;
  unfold_M; cbn.

Section FetchFacts.

Context `{Imaging}.

(** The request part of [generate_image] returns an envelope, whatever
    the endpoint answers and whatever becomes of the save. *)
Lemma basic_fetch_returns (o : oracle) (path p n s : string) (wd ht : Z)
    (w : world) :
  exists e w',
    Basic.fetch_and_store o path p n s wd ht w = (Return e, w')
    /\ fetch_effect o path w w'.
Proof.
  unfold fetch_effect. run_fetch.
  destruct (http_get o _ _) as [msg|msg|msg|content]; cbn;
    try (eexists _, _; split; [reflexivity|]; cbn; auto).
  destruct (Image_open content) as [msg|img]; cbn;
    try (eexists _, _; split; [reflexivity|]; cbn; auto).
  destruct (Image_load img) as [msg|] eqn:L; cbn;
    try (eexists _, _; split; [reflexivity|]; cbn; auto).
  destruct (save_result o) as [|[b|] msg] eqn:S; cbn;
    eexists _, _; (split; [reflexivity|]); cbn; eauto 10.
Qed.

Lemma improved_fetch_returns (o : oracle) (path p n s : string) (wd ht : Z)
    (enhance : bool) (w : world) :
  exists e w',
    Improved.fetch_and_store o path p n s wd ht enhance w = (Return e, w')
    /\ fetch_effect o path w w'.
Proof.
  unfold fetch_effect. run_fetch.
  destruct (http_get o _ _) as [msg|msg|msg|content]; cbn;
    try (eexists _, _; split; [reflexivity|]; cbn; auto).
  destruct (Image_open content) as [msg|img]; cbn;
    try (eexists _, _; split; [reflexivity|]; cbn; auto).
  destruct enhance; cbn;
    [destruct (Improved.enhance_image img "auto") as [msg|img'] eqn:E; cbn|];
    try (eexists _, _; split; [reflexivity|]; cbn; auto).
  all: match goal with
       | |- context [Image_load ?i] => destruct (Image_load i) as [msg'|] eqn:L
       end; cbn;
    try (eexists _, _; split; [reflexivity|]; cbn; auto).
  all: destruct (save_result o) as [|[b|] msg'] eqn:S; cbn;
    eexists _, _; (split; [reflexivity|]); cbn; eauto 10.
Qed.

(** The endpoint answers an image that loads and the save completes: the
    envelope is fresh and the PNG of the image is stored at the path. *)
Lemma basic_fetch_success (o : oracle) (path : string) (r : request)
    (w : world) (content : list byte) (img : Image) :
  http_get o (request_url Basic.STYLE_OPTIONS r) REQUEST_TIMEOUT = HttpOk content ->
  Image_open content = inr img ->
  Image_load img = None ->
  save_result o = SaveOk ->
  exists w',
    Basic.fetch_and_store o path (description r) (exclusions r) (style r)
                          (width r) (height r) w
    = (Return (Some img, "api", (clock_end o - clock_start o)%Z,
               "Generated successfully"), w')
    /\ files w' = <[path := png_bytes img]> (files w)
    /\ dirs w' = dirs w /\ tempdir w' = tempdir w
    /\ session_metrics w' = session_metrics w.
Proof.
  unfold request_url. intros G I L S. run_fetch. rewrite G. cbn. rewrite I. cbn.
  rewrite L, S. cbn. eexists. split; [reflexivity|]. auto.
Qed.


End FetchFacts.

(** ** [generate_image] as a whole *)

Section GenerateFacts.

Context `{Imaging}.

Lemma basic_generate_unfold (o : oracle) (r : request) (w : world) :
  makedirs_error o = None ->
  Basic.generate_image o (description r) (exclusions r) (style r)
                       (width r) (height r) w
  = match check_cache o (artifact_path w r) (entered w) with
    | (Return (Some e), w2) => (Return e, w2)
    | (Return None, w2) =>
        Basic.fetch_and_store o (artifact_path w r) (description r)
          (exclusions r) (style r) (width r) (height r) w2
    | (Raise e, w2) => (Raise e, w2)
    end.
Proof.
  intros E. unfold Basic.generate_image.
  unfold mbind at 1 2 3, M_bind, set_current_code, modify.
  rewrite (get_cache_path_ok o r _ E).
  change (artifact_path (with_code _ w) r) with (artifact_path w r).
  change (with_dirs _ (with_code _ w)) with (entered w).
  destruct (check_cache o (artifact_path w r) (entered w)) as [[[e|]|e] w2];
    reflexivity.
Qed.

Lemma improved_generate_unfold (o : oracle) (r : request) (enhance : bool)
    (w : world) :
  makedirs_error o = None ->
  Improved.generate_image o (description r) (exclusions r) (style r)
                          (width r) (height r) enhance w
  = match check_cache o (artifact_path w r) (entered w) with
    | (Return (Some e), w2) => (Return e, w2)
    | (Return None, w2) =>
        Improved.fetch_and_store o (artifact_path w r) (description r)
          (exclusions r) (style r) (width r) (height r) enhance w2
    | (Raise e, w2) => (Raise e, w2)
    end.
Proof.
  intros E. unfold Improved.generate_image.
  unfold mbind at 1 2 3, M_bind, set_current_code, modify.
  rewrite (get_cache_path_ok o r _ E).
  change (artifact_path (with_code _ w) r) with (artifact_path w r).
  change (with_dirs _ (with_code _ w)) with (entered w).
  destruct (check_cache o (artifact_path w r) (entered w)) as [[[e|]|e] w2];
    reflexivity.
Qed.

Lemma generate_mkdir_fails (o : oracle) (r : request) (w : world) (msg : string) :
  makedirs_error o = Some msg ->
  fst (Basic.generate_image o (description r) (exclusions r) (style r)
                            (width r) (height r) w)
  = Raise (OtherException msg).
Proof.
  intros E. unfold Basic.generate_image, get_cache_path, get_cache_path_with,
    OS.makedirs. unfold_M. cbn. now rewrite E.
Qed.

Lemma entered_no_dir_in_the_way (w : world) (r : request) :
  no_dir_in_the_way w -> artifact_path w r ∉ dirs (entered w).
Proof.
  intros N. cbn. intros [E%elem_of_singleton|D]%elem_of_union.
  - now apply artifact_path_not_cache_dir in E.
  - now apply N in D.
Qed.

(** With a directory that can be made and files that can be removed, the
    cache check returns. *)
Lemma check_cache_returns (o : oracle) (path : string) (w : world) :
  remove_error o path = None ->
  path ∉ dirs w ->
  exists hit w', check_cache o path w = (Return hit, w').
Proof.
  intros R D. destruct (files w !! path) as [content|] eqn:F.
  - destruct (read_error o) as [msg|] eqn:E.
    + rewrite (check_cache_corrupt o path w content F); eauto.
      left. congruence.
    + destruct (Image_open content) as [msg|img] eqn:I.
      * rewrite (check_cache_corrupt o path w content F); eauto.
      * destruct (check_cache_hit o path w content img F E I) as (w' & -> & _).
        eauto.
  - rewrite check_cache_miss; eauto.
Qed.

Lemma same_place_no_dir (w w' : world) :
  same_place w w' -> no_dir_in_the_way w -> no_dir_in_the_way w'.
Proof.
  intros [T D] N r. unfold artifact_path, cache_dir_of. rewrite T, D.
  apply (entered_no_dir_in_the_way w r N).
Qed.

Lemma basic_generate_effect (o : oracle) (r : request) (w : world) :
  let w' := snd (Basic.generate_image o (description r) (exclusions r)
                   (style r) (width r) (height r) w) in
  generate_effect o (artifact_path w r) w w'.
Proof.
  cbn zeta. destruct (makedirs_error o) as [msg|] eqn:E.
  - exists w. split; [auto|].
    unfold Basic.generate_image, get_cache_path, get_cache_path_with,
      OS.makedirs. unfold_M. cbn. rewrite E. cbn. auto.
  - rewrite (basic_generate_unfold o r w E).
    pose proof (check_cache_files o (artifact_path w r) (entered w))
      as (C & _ & T).
    destruct (check_cache o (artifact_path w r) (entered w)) as [[[e|]|e] w2];
      cbn in C, T; exists w2; (split; [exact C|]); cbn; auto.
    destruct (basic_fetch_returns o (artifact_path w r) (description r)
                (exclusions r) (style r) (width r) (height r) w2)
      as (e & w' & -> & (F & _ & T')). cbn. split; [exact F | congruence].
Qed.

Lemma improved_generate_effect (o : oracle) (r : request) (enhance : bool)
    (w : world) :
  let w' := snd (Improved.generate_image o (description r) (exclusions r)
                   (style r) (width r) (height r) enhance w) in
  generate_effect o (artifact_path w r) w w'.
Proof.
  cbn zeta. destruct (makedirs_error o) as [msg|] eqn:E.
  - exists w. split; [auto|].
    unfold Improved.generate_image, get_cache_path, get_cache_path_with,
      OS.makedirs. unfold_M. cbn. rewrite E. cbn. auto.
  - rewrite (improved_generate_unfold o r enhance w E).
    pose proof (check_cache_files o (artifact_path w r) (entered w))
      as (C & _ & T).
    destruct (check_cache o (artifact_path w r) (entered w)) as [[[e|]|e] w2];
      cbn in C, T; exists w2; (split; [exact C|]); cbn; auto.
    destruct (improved_fetch_returns o (artifact_path w r) (description r)
                (exclusions r) (style r) (width r) (height r) enhance w2)
      as (e & w' & -> & (F & _ & T')). cbn. split; [exact F | congruence].
Qed.


Lemma basic_generate_returns (o : oracle) (r : request) (w : world) :
  store_cooperates o -> no_dir_in_the_way w ->
  exists e w',
    Basic.generate_image o (description r) (exclusions r) (style r)
                         (width r) (height r) w = (Return e, w')
    /\ same_place w w'.
Proof.
  intros [Mk Rm] N. rewrite (basic_generate_unfold o r w Mk).
  pose proof (check_cache_files o (artifact_path w r) (entered w)) as (_ & D & T).
  destruct (check_cache_returns o (artifact_path w r) (entered w) (Rm _)
              (entered_no_dir_in_the_way w r N)) as (hit & w2 & C).
  rewrite C in *. cbn in D, T. destruct hit as [e|].
  - exists e, w2. split; [reflexivity|].
    unfold same_place. rewrite T, D. split; reflexivity.
  - destruct (basic_fetch_returns o (artifact_path w r) (description r)
                (exclusions r) (style r) (width r) (height r) w2)
      as (e & w' & -> & (_ & D' & T')).
    exists e, w'. split; [reflexivity|].
    unfold same_place. rewrite T', D', T, D. split; reflexivity.
Qed.

End GenerateFacts.

(** ** The store under sequences of operations *)

Section StoreFacts.

Context `{Imaging}.

Lemma store_valid_same (w w' : world) :
  tempdir w' = tempdir w -> files w' = files w ->
  store_valid w -> store_valid w'.
Proof.
  intros T F V r content. unfold artifact_path, cache_dir_of. rewrite T, F.
  apply V.
Qed.

Lemma store_valid_subseteq (w : world) (fs : gmap string (list byte)) :
  fs ⊆ files w -> store_valid w -> store_valid (with_files fs w).
Proof.
  intros S V r content L. apply (V r content).
  eapply lookup_weaken; [exact L | exact S].
Qed.

Lemma store_valid_insert (w : world) (path : string) (content : list byte) :
  decodable content -> store_valid w ->
  store_valid (with_files (<[path := content]> (files w)) w).
Proof.
  intros D V r c. change (artifact_path (with_files _ w) r) with (artifact_path w r).
  cbn [files with_files].
  destruct (decide (path = artifact_path w r)) as [->|N].
  - rewrite lookup_insert_eq. intros E. injection E as <-. exact D.
  - rewrite lookup_insert_ne by exact N. apply V.
Qed.

(** What a completed save wrote decodes as a valid image. *)
Lemma saved_decodable (img : Image) :
  png_lossless -> Image_load img = None -> decodable (png_bytes img).
Proof. intros L E. exists img. split; [now apply L | exact E]. Qed.

Lemma generate_effect_valid (o : oracle) (path : string) (w w' : world) :
  png_lossless -> save_all_or_nothing o ->
  generate_effect o path w w' -> store_valid w -> store_valid w'.
Proof.
  intros L A (w1 & C & F & T) V.
  assert (V1 : store_valid (with_files (files w1) w)).
  { apply store_valid_subseteq; [|exact V].
    destruct C as [->| ->]; [reflexivity | apply delete_subseteq]. }
  destruct F as [F|[(img & S & Ld & F)|(b & msg & S & F)]].
  - apply (store_valid_same (with_files (files w1) w)); auto.
  - eapply store_valid_same;
      [| |apply (store_valid_insert (with_files (files w1) w) path
                   (png_bytes img));
          [now apply saved_decodable | exact V1]]; [exact T | exact F].
  - unfold save_all_or_nothing in A. rewrite S in A. contradiction.
Qed.

Lemma clear_cache_loop_shrinks (o : oracle) (d : string) (names : list string)
    (n : Z) (w : world) :
  files (snd (clear_cache_loop o d names n w)) ⊆ files w
  /\ tempdir (snd (clear_cache_loop o d names n w)) = tempdir w.
Proof.
  revert n w. induction names as [|name names IH]; intros n w; [auto|].
  cbn [clear_cache_loop]. destruct (_ && _); [|apply IH].
  unfold OS.remove. unfold_M. cbn.
  destruct (remove_error o _); [auto|].
  destruct (files w !! _) eqn:F; cbn; [|auto].
  match goal with
  | |- context [clear_cache_loop o d names ?k ?w0] =>
      destruct (IH k w0) as [S T]
  end.
  split; [|exact T]. etrans; [exact S|]. cbn. apply delete_subseteq.
Qed.

Lemma clear_cache_valid (o : oracle) (w : world) :
  store_valid w -> store_valid (snd (clear_cache o w)).
Proof.
  intros V.
  assert (S : files (snd (clear_cache o w)) ⊆ files w
              /\ tempdir (snd (clear_cache o w)) = tempdir w).
  { unfold clear_cache, OS.path_exists, OS.listdir. unfold_M. cbn.
    destruct (_ || _); cbn; [|auto].
    destruct (listdir_error o); cbn; [auto|].
    destruct (bool_decide _); cbn; [|auto].
    pose proof (clear_cache_loop_shrinks o
      (cache_dir_of w) (OS.entries (cache_dir_of w) w) 0
      (with_code "for filename in os.listdir(cache_dir):"
         (with_code "cache_dir = os.path.join(tempfile.gettempdir(), 'genai_cache')" w)))
      as S.
    change (cache_dir_of (with_code _ w)) with (cache_dir_of w).
    change (OS.entries (cache_dir_of w) (with_code _ (with_code _ w)))
      with (OS.entries (cache_dir_of w) w).
    destruct (clear_cache_loop _ _ _ _ _) as [[k [e|]] w2]; exact S. }
  destruct S as [S T].
  apply (store_valid_same (with_files (files (snd (clear_cache o w))) w));
    [exact T | reflexivity |].
  now apply store_valid_subseteq.
Qed.

Lemma step_valid (w : world) (c : op * oracle) :
  png_lossless -> save_all_or_nothing (snd c) ->
  store_valid w -> store_valid (step w c).
Proof.
  intros L A V. destruct c as [[p n s wd ht|p n s wd ht e|] o]; cbn in *.
  - eapply generate_effect_valid; eauto.
    apply (basic_generate_effect o (Request p n s wd ht) w).
  - eapply generate_effect_valid; eauto.
    apply (improved_generate_effect o (Request p n s wd ht) e w).
  - now apply clear_cache_valid.
Qed.

(** C2, amended: starting from a store in which every artifact under a
    fingerprint decodes as a valid image, after any sequence of
    [generate_image] (of either file) and [clear_cache] calls in which
    every save either completes or leaves no bytes behind, every artifact
    present in the store under a fingerprint decodes as a valid image,
    PNG being lossless. *)
Theorem store_stays_valid (ops : list (op * oracle)) (w : world) :
  png_lossless ->
  Forall (fun c => save_all_or_nothing (snd c)) ops ->
  store_valid w ->
  store_valid (run ops w).
Proof.
  intros L A. revert w. induction A as [|c ops Ac A IH]; intros w V.
  - exact V.
  - cbn. apply IH. now apply step_valid.
Qed.

End StoreFacts.

Lemma sample_png_lossless : png_lossless (H := Sample.imaging).
Proof. intros img _. reflexivity. Qed.

Lemma store_stays_valid_witness :
  let w' :=
    run (H := Sample.imaging)
        [(Generate "a cat on a mat" "" "watercolor" 512 512,
          Sample.answers Sample.picture 7);
         (Clear, Sample.times_out);
         (GenerateImp "a cat on a mat" "" "watercolor" 512 512 true,
          Sample.answers Sample.picture 7);
         (Generate "a cat on a mat" "" "watercolor" 768 512,
          Sample.times_out)]
        Sample.world0 in
  store_valid (H := Sample.imaging) w'
  /\ files w' !! Sample.cat_path = Some Sample.picture.
Proof.
  cbn zeta. split.
  - apply (store_stays_valid (H := Sample.imaging)).
    + exact sample_png_lossless.
    + repeat constructor.
    + intros r content F. cbn in F. rewrite lookup_empty in F. discriminate F.
  - vm_compute. reflexivity.
Defined.

(** C2, as stated, fails: the endpoint answers an image, the disk fills up
    while [img.save] writes it; the caller gets an error envelope and the
    store is left with an empty file under the fingerprint of the request,
    which is not a valid image: the save is not all-or-nothing. *)
Lemma partial_write_left_behind :
  let run1 :=
    Basic.generate_image (H := Sample.imaging) (Sample.disk_full Sample.picture)
      "a cat on a mat" "" "watercolor" 512 512 Sample.world0 in
  fst run1 = Return (None, "error", 0%Z,
                     "Unexpected error: [Errno 28] No space left on device")
  /\ files (snd run1) !! artifact_path (snd run1) Sample.cat = Some []
  /\ ~ decodable (H := Sample.imaging) []
  /\ ~ store_valid (H := Sample.imaging)
         (run (H := Sample.imaging)
              [(Generate "a cat on a mat" "" "watercolor" 512 512,
                Sample.disk_full Sample.picture)]
              Sample.world0).
Proof.
  assert (F : files (snd (Basic.generate_image (H := Sample.imaging)
                 (Sample.disk_full Sample.picture)
                 "a cat on a mat" "" "watercolor" 512 512 Sample.world0))
              !! artifact_path
                   (snd (Basic.generate_image (H := Sample.imaging)
                      (Sample.disk_full Sample.picture)
                      "a cat on a mat" "" "watercolor" 512 512 Sample.world0))
                   Sample.cat
              = Some []) by (vm_compute; reflexivity).
  assert (D : ~ decodable (H := Sample.imaging) []).
  { intros (img & I & _). discriminate I. }
  cbn zeta. split; [vm_compute; reflexivity|]. split; [exact F|].
  split; [exact D|]. intros V. apply D. exact (V Sample.cat [] F).
Qed.

(** ** Error envelopes, self-healing and the cache round trip *)

(** C3: [generate_image] lets an exception escape. With an unreadable
    entry under the fingerprint and a file system that refuses to remove
    it, [os.remove] raises inside the [except] clause of the cache check;
    with a cache directory that cannot be made, [os.makedirs] raises in
    [get_cache_path], before any [try]. Neither is turned into an error
    envelope. *)
Theorem generate_image_lets_exceptions_escape :
  fst (Basic.generate_image (H := Sample.imaging)
         (Sample.cannot_remove Sample.picture)
         "a cat on a mat" "" "watercolor" 512 512 Sample.world_corrupt)
  = Raise (OtherException "[Errno 13] Permission denied")
  /\ fst (Basic.generate_image (H := Sample.imaging)
            (Sample.cannot_mkdir Sample.picture)
            "a cat on a mat" "" "watercolor" 512 512 Sample.world0)
     = Raise (OtherException "[Errno 13] Permission denied").
Proof. split; vm_compute; reflexivity. Qed.

Section HealingFacts.

Context `{Imaging}.


(** C6, amended: with nothing stored under the fingerprint of a request
    (no file and no directory at its path), an endpoint that answers an
    image that loads, a store that makes the directory, completes the
    save and lets the file be read back, and PNG lossless, two calls of
    [generate_image] in a row return first a fresh envelope ("api") and
    then a cached one ("cache"), both carrying the same image, hence the
    same PNG bytes; the second call changes no file. *)
Theorem cache_round_trip (o1 o2 : oracle) (r : request) (w : world)
    (answer : list byte) (img : Image) :
  png_lossless ->
  files w !! artifact_path w r = None ->
  artifact_path w r ∉ dirs w ->
  makedirs_error o1 = None ->
  http_get o1 (request_url Basic.STYLE_OPTIONS r) REQUEST_TIMEOUT = HttpOk answer ->
  Image_open answer = inr img ->
  Image_load img = None ->
  save_result o1 = SaveOk ->
  makedirs_error o2 = None ->
  read_error o2 = None ->
  exists w1 w2,
    Basic.generate_image o1 (description r) (exclusions r) (style r)
                         (width r) (height r) w
    = (Return (Some img, "api", (clock_end o1 - clock_start o1)%Z,
               "Generated successfully"), w1)
    /\ Basic.generate_image o2 (description r) (exclusions r) (style r)
                            (width r) (height r) w1
       = (Return (Some img, "cache", 0%Z, "Loaded from cache"), w2)
    /\ files w1 !! artifact_path w r = Some (png_bytes img)
    /\ files w2 = files w1.
Proof.
  intros L F D Mk1 Ha Hi Hl Hs Mk2 Rd2.
  assert (D1 : artifact_path w r ∉ dirs (entered w)).
  { cbn. intros [E%elem_of_singleton|D']%elem_of_union; [|contradiction].
    now apply artifact_path_not_cache_dir in E. }
  destruct (basic_fetch_success o1 (artifact_path w r) r (entered w)
              answer img Ha Hi Hl Hs) as (w1 & G1 & Fw & Dw & Tw & _).
  assert (P : artifact_path w1 r = artifact_path w r).
  { unfold artifact_path, cache_dir_of. now rewrite Tw. }
  assert (F1 : files (entered w1) !! artifact_path w r = Some (png_bytes img)).
  { cbn. rewrite Fw. apply lookup_insert_eq. }
  destruct (check_cache_hit o2 (artifact_path w r) (entered w1)
              (png_bytes img) img F1 Rd2 (L img Hl)) as (w2 & G2 & Fw2 & _).
  exists w1, w2. split; [|split; [|split]].
  - rewrite (basic_generate_unfold o1 r w Mk1).
    rewrite (check_cache_miss o1 (artifact_path w r) (entered w) F D1).
    exact G1.
  - rewrite (basic_generate_unfold o2 r w1 Mk2), P, G2. reflexivity.
  - exact F1.
  - exact Fw2.
Qed.

End HealingFacts.


Lemma cache_round_trip_witness :
  exists w1 w2,
    Basic.generate_image (H := Sample.imaging) (Sample.answers Sample.picture 7)
      "a cat on a mat" "" "watercolor" 512 512 Sample.world0
    = (Return (Some [x50; x4e; x47], "api", 7%Z, "Generated successfully"), w1)
    /\ Basic.generate_image (H := Sample.imaging) Sample.times_out
         "a cat on a mat" "" "watercolor" 512 512 w1
       = (Return (Some [x50; x4e; x47], "cache", 0%Z, "Loaded from cache"), w2).
Proof.
  destruct (cache_round_trip (H := Sample.imaging)
              (Sample.answers Sample.picture 7) Sample.times_out Sample.cat
              Sample.world0 Sample.picture [x50; x4e; x47])
    as (w1 & w2 & G1 & G2 & _).
  - exact sample_png_lossless.
  - reflexivity.
  - cbn. apply not_elem_of_empty.
  - reflexivity.
  - reflexivity.
  - reflexivity.
  - reflexivity.
  - reflexivity.
  - reflexivity.
  - reflexivity.
  - exists w1, w2. split; [exact G1 | exact G2].
Defined.


(** C6, as stated, fails: nothing is stored, the endpoint succeeds with a
    valid image, but the disk fills up during the save; the first envelope
    is an error, not a fresh image, and the second call, which finds the
    file the failed save left, removes it and asks the endpoint again: it
    is fresh, not cached. *)
Lemma failed_save_breaks_round_trip :
  let run1 :=
    Basic.generate_image (H := Sample.imaging) (Sample.disk_full Sample.picture)
      "a cat on a mat" "" "watercolor" 512 512 Sample.world0 in
  let run2 :=
    Basic.generate_image (H := Sample.imaging) (Sample.answers Sample.picture 7)
      "a cat on a mat" "" "watercolor" 512 512 (snd run1) in
  files Sample.world0 !! artifact_path Sample.world0 Sample.cat = None
  /\ http_get (Sample.disk_full Sample.picture)
       (request_url Basic.STYLE_OPTIONS Sample.cat) REQUEST_TIMEOUT
     = HttpOk Sample.picture
  /\ decodable (H := Sample.imaging) Sample.picture
  /\ fst run1 = Return (None, "error", 0%Z,
                        "Unexpected error: [Errno 28] No space left on device")
  /\ fst run2 = Return (Some [x50; x4e; x47], "api", 7%Z,
                        "Generated successfully").
Proof.
  cbn zeta.
  split; [vm_compute; reflexivity|].
  split; [reflexivity|].
  split; [exists [x50; x4e; x47]; split; reflexivity|].
  split; vm_compute; reflexivity.
Qed.

(** ** The batch tab *)

Section BatchFacts.

Context `{Imaging}.







(** The entry of an envelope leaves the world as it is and keeps the
    prompt. *)
Lemma batch_entry_cases (p : string) (e : envelope) (w : world) :
  (exists entry,
      Improved.batch_entry p e w = (Return entry, w)
      /\ Improved.result_prompt entry = p)
  \/ (exists img source elapsed message msg,
         e = (Some img, source, elapsed, message)
         /\ Image_load img = Some msg
         /\ Improved.batch_entry p e w = (Raise (OtherException msg), w)).
Proof.
  destruct e as [[[[img|] src] t] m]; unfold Improved.batch_entry,
    Image_save_buffer; unfold_M.
  - destruct (Image_load img) as [msg|] eqn:L.
    + right. exists img, src, t, m, msg. auto.
    + left. eexists. split; reflexivity.
  - left. eexists. split; reflexivity.
Qed.







End BatchFacts.


Lemma sample_no_dir_in_the_way : no_dir_in_the_way Sample.world0.
Proof. intros r. cbn. apply not_elem_of_empty. Qed.






Lemma strip_prefix_app (t n : string) : OS.strip_prefix t (t +:+ n) = Some n.
Proof.
  induction t as [|c t IH]; [reflexivity|].
  rewrite app_cons. cbn [OS.strip_prefix]. now rewrite Ascii.eqb_refl.
Qed.

Lemma strip_prefix_inv (t s n : string) :
  OS.strip_prefix t s = Some n -> s = t +:+ n.
Proof.
  revert s. induction t as [|c t IH]; intros s E.
  - cbn in E. now injection E as ->.
  - destruct s as [|d s]; [discriminate|]. cbn [OS.strip_prefix] in E.
    destruct (Ascii.eqb_spec c d) as [->|]; [|discriminate].
    rewrite app_cons. f_equal. now apply IH.
Qed.

Lemma contains_slash_head (c : ascii) (s : string) :
  Text.contains "/" (String c s) = false -> Ascii.eqb "/" c = false.
Proof.
  cbn [Text.contains Text.startswith]. intros E.
  apply orb_false_elim in E as [E _]. now rewrite andb_true_r in E.
Qed.

(** A name without ["/"] is joined to the directory by plain concatenation
    after the directory prefix. *)
Lemma path_join_prefix (d name : string) :
  Text.contains "/" name = false ->
  OS.path_join d name = OS.path_join d "" +:+ name.
Proof.
  intros C. unfold OS.path_join.
  assert (S : Text.startswith "/" name = false).
  { destruct name as [|c s]; [reflexivity|].
    cbn [Text.startswith]. now rewrite (contains_slash_head c s C). }
  rewrite S. cbn [Text.startswith].
  destruct (_ || _).
  - now rewrite str_app_nil_r.
  - now rewrite str_app_nil_r, <- !str_app_assoc.
Qed.

Lemma elem_of_entries (d : string) (w : world) (name : string) :
  name ∈ OS.entries d w <->
  (name <> "" /\ Text.contains "/" name = false
   /\ OS.path_join d name ∈ dom (files w) ∪ dirs w).
Proof.
  unfold OS.entries. rewrite list_elem_of_omap. split.
  - intros (k & K & E). apply elem_of_elements in K.
    destruct (OS.strip_prefix _ k) as [n|] eqn:S; [|discriminate].
    destruct (Text.is_empty n || Text.contains "/" n) eqn:B; [discriminate|].
    injection E as ->. apply orb_false_elim in B as [B1 B2].
    apply strip_prefix_inv in S. subst k.
    rewrite (path_join_prefix d name B2). repeat split; try assumption.
    intros ->. discriminate.
  - intros (N & C & K). exists (OS.path_join d name). split.
    + now apply elem_of_elements.
    + rewrite (path_join_prefix d name C), strip_prefix_app, C.
      destruct name; [contradiction | reflexivity].
Qed.

(** The loop removes files only, and counts each file it removes. *)
Lemma clear_loop_counts (o : oracle) (d : string) (names : list string)
    (n : Z) (w : world) :
  let r := clear_cache_loop o d names n w in
  files (snd r) ⊆ files w
  /\ (fst (fst r) - n = Z.of_nat (size (files w)) - Z.of_nat (size (files (snd r))))%Z
  /\ dirs (snd r) = dirs w /\ tempdir (snd r) = tempdir w
  /\ notices (snd r) = notices w.
Proof.
  cbn zeta. revert n w. induction names as [|name names IH]; intros n w.
  - cbn. repeat split; try reflexivity. lia.
  - cbn [clear_cache_loop].
    destruct (bool_decide _ && _) eqn:B; [|apply IH].
    apply andb_prop in B as [B _]. apply bool_decide_eq_true in B.
    unfold OS.remove, set_current_code, modify, mbind, M_bind. cbn.
    destruct (remove_error o _) as [msg|].
    { cbn. repeat split; try reflexivity. lia. }
    destruct B as [content F]. rewrite F. cbn.
    specialize (IH (n + 1)%Z
      (with_files (delete (OS.path_join d name) (files w))
         (with_code ("os.remove('" +:+ name +:+ "')") w))).
    destruct IH as (S & C & D & T & N). cbn in S, C, D, T, N.
    split; [|split; [|auto]].
    + etransitivity; [exact S|]. apply delete_subseteq.
    + rewrite map_size_delete_Some in C by eauto.
      assert (0 < size (files w))%nat.
      { destruct (size (files w)) eqn:Z; [|lia].
        apply map_size_empty_inv in Z. rewrite Z in F. discriminate. }
      lia.
Qed.

(** With removals that succeed the loop runs through; it removes the
    [.png] names it is given and nothing else. *)
Lemma clear_loop_complete (o : oracle) (d : string) (names : list string)
    (n : Z) (w : world) :
  (forall p, remove_error o p = None) ->
  let r := clear_cache_loop o d names n w in
  snd (fst r) = None
  /\ (forall name, name ∈ names -> Text.endswith ".png" name = true ->
      files (snd r) !! OS.path_join d name = None)
  /\ (forall k,
        (forall name, name ∈ names -> Text.endswith ".png" name = true ->
                      k <> OS.path_join d name) ->
        files (snd r) !! k = files w !! k).
Proof.
  intros R. cbn zeta. revert n w. induction names as [|name names IH]; intros n w.
  - cbn. split; [reflexivity|]. split; [|reflexivity].
    intros name I. now apply elem_of_nil in I.
  - cbn [clear_cache_loop].
    destruct (bool_decide _ && _) eqn:B.
    + apply andb_prop in B as [B P]. apply bool_decide_eq_true in B.
      destruct B as [content F].
      unfold OS.remove, set_current_code, modify, mbind, M_bind. cbn.
      rewrite R, F. cbn.
      specialize (IH (n + 1)%Z
        (with_files (delete (OS.path_join d name) (files w))
           (with_code ("os.remove('" +:+ name +:+ "')") w))).
      destruct IH as (E & Gone & Kept). cbn in Kept.
      split; [exact E|]. split.
      * intros name' I Pn. apply elem_of_cons in I as [->|I]; [|now apply Gone].
        pose proof (clear_loop_counts o d names (n + 1)%Z
          (with_files (delete (OS.path_join d name) (files w))
             (with_code ("os.remove('" +:+ name +:+ "')") w))) as (S & _).
        cbn in S.
        match goal with |- ?m !! ?k = None => destruct (m !! k) eqn:X end;
          [|reflexivity].
        apply (lookup_weaken _ _ _ _ X) in S. rewrite lookup_delete_eq in S.
        discriminate.
      * intros k Hk. rewrite Kept.
        -- apply lookup_delete_ne. intros Eq. apply (Hk name); [apply elem_of_cons; now left | exact P | now symmetry].
        -- intros nm I Pm. apply Hk; [apply elem_of_cons; now right | exact Pm].
    + specialize (IH n w). destruct IH as (E & Gone & Kept).
      split; [exact E|]. split.
      * intros name' I Pn. apply elem_of_cons in I as [->|I]; [|now apply Gone].
        pose proof (clear_loop_counts o d names n w) as (S & _).
        cbn in S.
        match goal with |- ?m !! ?k = None => destruct (m !! k) eqn:X end;
          [|reflexivity].
        apply (lookup_weaken _ _ _ _ X) in S.
        rewrite Pn, andb_true_r in B. apply bool_decide_eq_false in B.
        exfalso. apply B. eauto.
      * intros k Hk. apply Kept. intros nm I Pm. apply Hk; [apply elem_of_cons; now right | exact Pm].
Qed.

Lemma clear_loop_nothing (o : oracle) (d : string) (names : list string)
    (n : Z) (w : world) :
  (forall name, name ∈ names -> Text.endswith ".png" name = true ->
                files w !! OS.path_join d name = None) ->
  clear_cache_loop o d names n w = ((n, None), w).
Proof.
  revert n w. induction names as [|name names IH]; intros n w A; [reflexivity|].
  cbn [clear_cache_loop].
  destruct (bool_decide _ && _) eqn:B.
  - apply andb_prop in B as [B P]. apply bool_decide_eq_true in B.
    rewrite (A name) in B; [|apply elem_of_cons; now left | exact P].
    destruct B. discriminate.
  - apply IH. intros nm I. apply A. apply elem_of_cons. now right.
Qed.

(** [clear_cache] when the cache directory exists. *)
Lemma clear_cache_unfold (o : oracle) (w : world) :
  cache_dir_of w ∈ dirs w ->
  clear_cache o w
  = match listdir_error o with
    | Some msg =>
        (Return 0%Z,
         with_notices (notices w ++ [Error ("Error clearing cache: " +:+ msg)])
           (with_code "" (listing w)))
    | None =>
        match clear_cache_loop o (cache_dir_of w)
                (OS.entries (cache_dir_of w) w) 0 (listing w) with
        | ((k, None), w2) => (Return k, with_code "" w2)
        | ((k, Some e), w2) =>
            (Return k,
             with_notices (notices w2 ++ [Error ("Error clearing cache: " +:+ exn_str e)])
               (with_code "" w2))
        end
    end.
Proof.
  intros D. unfold clear_cache, OS.path_exists, OS.listdir.
  unfold mbind, M_bind, mret, M_ret, set_current_code, modify, get_world,
    st_error. cbn.
  rewrite (bool_decide_eq_true_2 _ D), orb_true_r. cbn.
  destruct (listdir_error o) as [msg|]; [reflexivity|]. cbn.
  rewrite (bool_decide_eq_true_2 _ D).
  change (OS.entries (cache_dir_of w) (with_code _ (with_code _ w)))
    with (OS.entries (cache_dir_of w) w).
  fold (listing w).
  destruct (clear_cache_loop _ _ _ _ _) as [[k [e|]] w2]; reflexivity.
Qed.

(** [clear_cache] when there is no cache directory. *)
Lemma clear_cache_no_dir (o : oracle) (w : world) :
  cache_dir_of w ∉ dirs w -> files w !! cache_dir_of w = None ->
  clear_cache o w
  = (Return 0%Z,
     with_code ""
       (with_code "cache_dir = os.path.join(tempfile.gettempdir(), 'genai_cache')" w)).
Proof.
  intros D F. unfold clear_cache, OS.path_exists.
  unfold mbind, M_bind, mret, M_ret, set_current_code, modify, get_world.
  cbv beta iota.
  change (cache_dir_of (with_code _ w)) with (cache_dir_of w).
  change (files (with_code _ w)) with (files w).
  change (dirs (with_code _ w)) with (dirs w).
  rewrite (bool_decide_eq_false_2 _ D), F.
  rewrite bool_decide_eq_false_2; [reflexivity|]. intros [? ?]. discriminate.
Qed.

Lemma clear_cache_returns_what_it_removed_aux (o : oracle) (w : world) :
  exists n w',
    clear_cache o w = (Return n, w')
    /\ files w' ⊆ files w
    /\ n = (Z.of_nat (size (files w)) - Z.of_nat (size (files w')))%Z
    /\ dirs w' = dirs w /\ tempdir w' = tempdir w
    /\ current_code w' = "".
Proof.
  destruct (decide (cache_dir_of w ∈ dirs w)) as [D|D].
  - rewrite (clear_cache_unfold o w D).
    destruct (listdir_error o) as [msg|].
    { eexists _, _. split; [reflexivity|]. cbn. repeat split; try reflexivity. lia. }
    pose proof (clear_loop_counts o (cache_dir_of w)
                  (OS.entries (cache_dir_of w) w) 0 (listing w))
      as (S & C & Dd & T & _).
    destruct (clear_cache_loop _ _ _ _ _) as [[k [e|]] w2]; cbn in S, C, Dd, T;
      eexists _, _; (split; [reflexivity|]); cbn; repeat split; auto; lia.
  - unfold clear_cache, OS.path_exists.
    unfold mbind, M_bind, mret, M_ret, set_current_code, modify, get_world. cbn.
    rewrite (bool_decide_eq_false_2 _ D), orb_false_r.
    destruct (bool_decide _) eqn:B; cbn.
    + unfold OS.listdir. cbn. destruct (listdir_error o) as [msg|]; cbn.
      * eexists _, _. split; [reflexivity|]. cbn. repeat split; try reflexivity. lia.
      * rewrite (bool_decide_eq_false_2 _ D). cbn.
        eexists _, _. split; [reflexivity|]. cbn. repeat split; try reflexivity. lia.
    + eexists _, _. split; [reflexivity|]. cbn. repeat split; try reflexivity. lia.
Qed.

Lemma in_cache_dir_listed (w : world) (name : string) :
  name <> "" -> Text.contains "/" name = false ->
  Text.endswith ".png" name = true ->
  is_Some (files w !! OS.path_join (cache_dir_of w) name) ->
  name ∈ OS.entries (cache_dir_of w) w.
Proof.
  intros N C P F. apply elem_of_entries. repeat split; try assumption.
  apply elem_of_union. left. now apply elem_of_dom.
Qed.

Lemma clear_cache_empties_the_cache_aux (o : oracle) (w : world) :
  clear_cooperates o ->
  cache_dir_of w ∈ dirs w ->
  let w' := snd (clear_cache o w) in
  (forall path, in_cache_dir w path -> files w' !! path = None)
  /\ (forall path, ~ in_cache_dir w path -> files w' !! path = files w !! path)
  /\ notices w' = notices w.
Proof.
  intros [Ls Rm] D. cbn zeta. rewrite (clear_cache_unfold o w D), Ls.
  pose proof (clear_loop_complete o (cache_dir_of w)
                (OS.entries (cache_dir_of w) w) 0 (listing w) Rm)
    as (E & Gone & Kept).
  pose proof (clear_loop_counts o (cache_dir_of w)
                (OS.entries (cache_dir_of w) w) 0 (listing w))
    as (S & _ & _ & _ & Nt).
  destruct (clear_cache_loop _ _ _ _ _) as [[k e] w2]; cbn in E, Gone, Kept, S, Nt.
  subst e. cbn. split; [|split; [|exact Nt]].
  - intros path (name & -> & N & C & P).
    destruct (files w !! OS.path_join (cache_dir_of w) name) as [content|] eqn:F.
    + apply Gone; [|exact P]. apply in_cache_dir_listed; eauto.
    + destruct (files w2 !! _) eqn:X; [|reflexivity].
      apply (lookup_weaken _ _ _ _ X) in S. congruence.
  - intros path NI. apply Kept. intros name I P ->. apply NI.
    apply elem_of_entries in I as (N & C & _). exists name. auto.
Qed.

(** X1: [clear_cache] never raises: whatever [os.listdir] and [os.remove]
    do, it returns a count, that count is the number of files it removed,
    it removes files only, and it leaves the code display empty. *)
Theorem clear_cache_returns_what_it_removed (o : oracle) (w : world) :
  exists n w',
    clear_cache o w = (Return n, w')
    /\ files w' ⊆ files w
    /\ n = (Z.of_nat (size (files w)) - Z.of_nat (size (files w')))%Z
    /\ dirs w' = dirs w /\ tempdir w' = tempdir w
    /\ current_code w' = "".
Proof. apply clear_cache_returns_what_it_removed_aux. Qed.

(** X2: with a cache directory that can be listed and files that can be
    removed, [clear_cache] removes every [.png] file directly inside the
    cache directory and touches no other file; it shows nothing. *)
Theorem clear_cache_empties_the_cache (o : oracle) (w : world) :
  clear_cooperates o ->
  cache_dir_of w ∈ dirs w ->
  let w' := snd (clear_cache o w) in
  (forall path, in_cache_dir w path -> files w' !! path = None)
  /\ (forall path, ~ in_cache_dir w path -> files w' !! path = files w !! path)
  /\ notices w' = notices w.
Proof. apply clear_cache_empties_the_cache_aux. Qed.

(** X3: a second [clear_cache] in a row returns 0 and changes no file,
    whatever the environment does during it. *)
Theorem clear_cache_twice (o1 o2 : oracle) (w : world) :
  clear_cooperates o1 ->
  cache_dir_of w ∈ dirs w ->
  let w1 := snd (clear_cache o1 w) in
  fst (clear_cache o2 w1) = Return 0%Z
  /\ files (snd (clear_cache o2 w1)) = files w1.
Proof.
  intros C1 D. cbn zeta.
  destruct (clear_cache_empties_the_cache_aux o1 w C1 D) as (Gone & _).
  destruct (clear_cache_returns_what_it_removed_aux o1 w)
    as (n1 & w1 & E1 & _ & _ & D1 & T1 & _).
  rewrite E1 in *. cbn [snd] in *.
  assert (D' : cache_dir_of w1 ∈ dirs w1).
  { unfold cache_dir_of. rewrite T1, D1. exact D. }
  rewrite (clear_cache_unfold o2 w1 D').
  destruct (listdir_error o2) as [msg|]; [split; reflexivity|].
  rewrite clear_loop_nothing; [split; reflexivity|].
  intros name I P. apply elem_of_entries in I as (N & C & _).
  change (files (listing w1)) with (files w1). apply Gone.
  exists name. unfold cache_dir_of. rewrite T1. auto.
Qed.

Lemma endswith_app (t a : string) : Text.endswith t (a +:+ t) = true.
Proof.
  induction a as [|c a IH].
  - rewrite app_empty. destruct t; cbn [Text.endswith]; now rewrite String.eqb_refl.
  - rewrite app_cons. cbn [Text.endswith]. rewrite IH. apply orb_true_r.
Qed.

Lemma no_slash_contains (s : string) :
  all_chars (fun c => negb (Ascii.eqb "/" c)) s = true ->
  Text.contains "/" s = false.
Proof.
  induction s as [|c s IH]; [reflexivity|].
  cbn [all_chars Text.contains Text.startswith]. intros A.
  apply andb_prop in A as [A1 A2]. apply negb_true_iff in A1.
  now rewrite A1, (IH A2).
Qed.

Lemma all_chars_weaken (P Q : ascii -> bool) (s : string) :
  (forall c, P c = true -> Q c = true) ->
  all_chars P s = true -> all_chars Q s = true.
Proof.
  intros PQ. induction s as [|c s IH]; [reflexivity|]. cbn [all_chars].
  intros A. apply andb_prop in A as [A1 A2]. now rewrite (PQ c A1), (IH A2).
Qed.

(** The artifact of a request is a [.png] file directly inside the cache
    directory. *)
Lemma artifact_in_cache_dir (w : world) (r : request) :
  in_cache_dir w (artifact_path w r).
Proof.
  exists (fingerprint r +:+ ".png"). split; [reflexivity|].
  split; [apply file_name_relative|]. split; [|apply endswith_app].
  apply no_slash_contains. rewrite all_chars_app. apply andb_true_intro.
  split; [|reflexivity].
  apply (all_chars_weaken is_lower_hex); [|apply hexdigest_lower].
  intros c L. now rewrite (lower_hex_not_slash c L).
Qed.

Section ClearThenGenerate.

Context `{Imaging}.

(** X4: after [clear_cache] has emptied the cache, [generate_image] finds
    no artifact for any request: with an endpoint that answers an image
    that loads and a save that completes, the envelope is fresh ("api"),
    whatever was cached before. *)
Theorem generate_after_clear_is_fresh (o1 o2 : oracle) (r : request) (w : world)
    (answer : list byte) (img : Image) :
  clear_cooperates o1 ->
  cache_dir_of w ∈ dirs w ->
  no_dir_in_the_way w ->
  makedirs_error o2 = None ->
  http_get o2 (request_url Basic.STYLE_OPTIONS r) REQUEST_TIMEOUT = HttpOk answer ->
  Image_open answer = inr img ->
  Image_load img = None ->
  save_result o2 = SaveOk ->
  fst (Basic.generate_image o2 (description r) (exclusions r) (style r)
         (width r) (height r) (snd (clear_cache o1 w)))
  = Return (Some img, "api", (clock_end o2 - clock_start o2)%Z,
            "Generated successfully").
Proof.
  intros C1 D N Mk Ha Hi Hl Hs.
  destruct (clear_cache_empties_the_cache_aux o1 w C1 D) as (Gone & _).
  destruct (clear_cache_returns_what_it_removed_aux o1 w)
    as (n1 & w1 & E1 & _ & _ & D1 & T1 & _).
  rewrite E1 in *. cbn [snd] in *.
  assert (P : artifact_path w1 r = artifact_path w r).
  { unfold artifact_path, cache_dir_of. now rewrite T1. }
  rewrite (basic_generate_unfold o2 r w1 Mk), P.
  rewrite check_cache_miss.
  - destruct (basic_fetch_success o2 (artifact_path w r) r (entered w1)
                answer img Ha Hi Hl Hs) as (w2 & -> & _). reflexivity.
  - apply Gone, artifact_in_cache_dir.
  - cbn. unfold cache_dir_of. rewrite T1, D1. fold (cache_dir_of w).
    intros [E%elem_of_singleton|D']%elem_of_union.
    + now apply artifact_path_not_cache_dir in E.
    + now apply N in D'.
Qed.

End ClearThenGenerate.

Section CallFacts.

Context `{Imaging}.

Lemma metrics_eta (m : metrics) :
  Metrics (calls m) (errors m) (cache_hits m) (total_time m) = m.
Proof. now destruct m. Qed.

(** The cache check returns a cached envelope and counts a hit, or falls
    through and counts nothing, or raises. *)
Lemma check_cache_cases (o : oracle) (path : string) (w : world) :
  (exists img w',
      check_cache o path w
      = (Return (Some (Some img, "cache", 0%Z, "Loaded from cache")), w')
      /\ session_metrics w'
         = counted false (session_metrics w)
                   (Some img, "cache", 0%Z, "Loaded from cache")
      /\ current_code w' = "" /\ files w' = files w)
  \/ (exists w', check_cache o path w = (Return None, w')
                 /\ session_metrics w' = session_metrics w)
  \/ (exists e w', check_cache o path w = (Raise e, w')).
Proof.
  unfold check_cache, OS.path_exists, Image_open_file, OS.remove. unfold_M.
  run_env; eauto 10.
Qed.

Lemma basic_fetch_facts (o : oracle) (path p n s : string) (wd ht : Z)
    (w : world) :
  exists e w',
    Basic.fetch_and_store o path p n s wd ht w = (Return e, w')
    /\ envelope_shape e
    /\ (let '(_, source, _, _) := e in source <> "cache")
    /\ session_metrics w' = counted false (session_metrics w) e
    /\ current_code w' = "".
Proof.
  run_fetch. run_env; eexists _, _; (split; [reflexivity|]); cbn;
    rewrite ?metrics_eta; repeat split; auto; discriminate.
Qed.

Lemma improved_fetch_facts (o : oracle) (path p n s : string) (wd ht : Z)
    (enhance : bool) (w : world) :
  exists e w',
    Improved.fetch_and_store o path p n s wd ht enhance w = (Return e, w')
    /\ envelope_shape e
    /\ (let '(_, source, _, _) := e in source <> "cache")
    /\ session_metrics w' = counted true (session_metrics w) e
    /\ current_code w' = "".
Proof.
  run_fetch. destruct enhance; run_env; eexists _, _;
    (split; [reflexivity|]); cbn;
    rewrite ?metrics_eta; repeat split; auto; discriminate.
Qed.

End CallFacts.

Section CallTheorems.

Context `{Imaging}.

Lemma basic_generate_facts (o : oracle) (r : request) (w w' : world)
    (e : envelope) :
  Basic.generate_image o (description r) (exclusions r) (style r)
                       (width r) (height r) w = (Return e, w') ->
  envelope_shape e
  /\ session_metrics w' = counted false (session_metrics w) e
  /\ current_code w' = "".
Proof.
  destruct (makedirs_error o) as [msg|] eqn:Mk.
  { intros G. apply (f_equal fst) in G.
    rewrite (generate_mkdir_fails o r w msg Mk) in G. discriminate. }
  rewrite (basic_generate_unfold o r w Mk).
  destruct (check_cache_cases o (artifact_path w r) (entered w))
    as [(img & w1 & -> & M & C & _)|[(w1 & -> & M)|(x & w1 & ->)]].
  - intros G. injection G as <- <-. cbn. repeat split; auto.
  - destruct (basic_fetch_facts o (artifact_path w r) (description r)
                (exclusions r) (style r) (width r) (height r) w1)
      as (e1 & w2 & -> & Sh & _ & M2 & C).
    intros G. injection G as <- <-. rewrite M2, M. auto.
  - discriminate.
Qed.

Lemma improved_generate_facts (o : oracle) (r : request) (enhance : bool)
    (w w' : world) (e : envelope) :
  Improved.generate_image o (description r) (exclusions r) (style r)
                          (width r) (height r) enhance w = (Return e, w') ->
  envelope_shape e
  /\ session_metrics w' = counted true (session_metrics w) e
  /\ current_code w' = "".
Proof.
  destruct (makedirs_error o) as [msg|] eqn:Mk.
  { intros G. exfalso. revert G.
    unfold Improved.generate_image, get_cache_path, get_cache_path_with,
      OS.makedirs. unfold_M. cbn. rewrite Mk. discriminate. }
  rewrite (improved_generate_unfold o r enhance w Mk).
  destruct (check_cache_cases o (artifact_path w r) (entered w))
    as [(img & w1 & -> & M & C & _)|[(w1 & -> & M)|(x & w1 & ->)]].
  - intros G. injection G as <- <-. cbn. repeat split; auto.
  - destruct (improved_fetch_facts o (artifact_path w r) (description r)
                (exclusions r) (style r) (width r) (height r) enhance w1)
      as (e1 & w2 & -> & Sh & _ & M2 & C).
    intros G. injection G as <- <-. rewrite M2, M. auto.
  - discriminate.
Qed.

(** X5: every envelope [generate_image] returns, in either file, has one
    of three shapes: an image from the cache with elapsed time 0 and the
    message "Loaded from cache"; an image from the endpoint with the
    message "Generated successfully"; or no image, source "error" and
    elapsed time 0. The code display is empty when it returns. *)
Theorem generate_image_envelope_shape (o : oracle) (p n s : string) (wd ht : Z)
    (enhance : bool) (w : world) :
  (forall e w',
      Basic.generate_image o p n s wd ht w = (Return e, w') ->
      envelope_shape e /\ current_code w' = "")
  /\ (forall e w',
         Improved.generate_image o p n s wd ht enhance w = (Return e, w') ->
         envelope_shape e /\ current_code w' = "").
Proof.
  split; intros e w' G.
  - destruct (basic_generate_facts o (Request p n s wd ht) w w' e G)
      as (S & _ & C). auto.
  - destruct (improved_generate_facts o (Request p n s wd ht) enhance w w' e G)
      as (S & _ & C). auto.
Qed.

(** X6: a call of [generate_image] that returns changes the session
    counters by its envelope alone: "cache_hits" grows by one on a cached
    image, "errors" by one on an error envelope, neither on a fresh image;
    "calls" is never touched; "total_time" grows by the elapsed time of a
    fresh image in [IMPstreamlit_app.py] and is never touched in
    [streamlit_app.py]. *)
Theorem generate_image_counts (o : oracle) (p n s : string) (wd ht : Z)
    (enhance : bool) (w : world) :
  (forall e w',
      Basic.generate_image o p n s wd ht w = (Return e, w') ->
      session_metrics w' = counted false (session_metrics w) e)
  /\ (forall e w',
         Improved.generate_image o p n s wd ht enhance w = (Return e, w') ->
         session_metrics w' = counted true (session_metrics w) e).
Proof.
  split; intros e w' G.
  - now destruct (basic_generate_facts o (Request p n s wd ht) w w' e G)
      as (_ & M & _).
  - now destruct (improved_generate_facts o (Request p n s wd ht) enhance
                    w w' e G) as (_ & M & _).
Qed.

(** X7: on a miss, a request that fails leaves the store as it was and
    returns the error envelope of its failure: "Request timed out" for a
    timeout, "Network error: ..." for any other request exception, and
    "Unexpected error: ..." for an answer that is not an image, whose
    bytes are not written. *)
Theorem failed_request_writes_nothing (o : oracle) (r : request) (w : world) :
  makedirs_error o = None ->
  files w !! artifact_path w r = None ->
  artifact_path w r ∉ dirs w ->
  let run := Basic.generate_image o (description r) (exclusions r) (style r)
               (width r) (height r) w in
  let answer := http_get o (request_url Basic.STYLE_OPTIONS r) REQUEST_TIMEOUT in
  (forall msg, answer = HttpTimeout msg ->
     fst run = Return (None, "error", 0%Z, "Request timed out")
     /\ files (snd run) = files w)
  /\ (forall msg, answer = HttpError msg ->
        fst run = Return (None, "error", 0%Z, "Network error: " +:+ msg)
        /\ files (snd run) = files w)
  /\ (forall content msg, answer = HttpOk content ->
        Image_open content = inl msg ->
        fst run = Return (None, "error", 0%Z, "Unexpected error: " +:+ msg)
        /\ files (snd run) = files w).
Proof.
  intros Mk F D. cbn zeta.
  assert (D1 : artifact_path w r ∉ dirs (entered w)).
  { cbn. intros [E%elem_of_singleton|D']%elem_of_union; [|contradiction].
    now apply artifact_path_not_cache_dir in E. }
  rewrite (basic_generate_unfold o r w Mk).
  rewrite (check_cache_miss o (artifact_path w r) (entered w) F D1).
  unfold request_url. run_fetch.
  split; [|split].
  - intros msg ->. cbn. auto.
  - intros msg ->. cbn. auto.
  - intros content msg -> I. cbn. rewrite I. cbn. auto.
Qed.

(** X8: a cached image is returned without the endpoint: when the file
    under the fingerprint opens as an image, [generate_image] returns it
    with source "cache", leaves the files as they are, and the whole
    outcome is the same whatever the endpoint would answer, whatever the
    clock reads and whatever a save would do. *)
Theorem cache_hit_needs_no_endpoint (o o' : oracle) (r : request) (w : world)
    (content : list byte) (img : Image) :
  files w !! artifact_path w r = Some content ->
  Image_open content = inr img ->
  makedirs_error o = None -> read_error o = None ->
  makedirs_error o' = None -> read_error o' = None ->
  let run := Basic.generate_image o (description r) (exclusions r) (style r)
               (width r) (height r) w in
  fst run = Return (Some img, "cache", 0%Z, "Loaded from cache")
  /\ files (snd run) = files w
  /\ Basic.generate_image o' (description r) (exclusions r) (style r)
                          (width r) (height r) w = run.
Proof.
  intros F I Mk Rd Mk' Rd'. cbn zeta.
  rewrite (basic_generate_unfold o r w Mk), (basic_generate_unfold o' r w Mk').
  unfold check_cache, OS.path_exists, Image_open_file. unfold_M. cbn.
  rewrite F. rewrite bool_decide_eq_true_2 by eauto. cbn.
  rewrite F, Rd, Rd', I. cbn. auto.
Qed.

End CallTheorems.

Section EnhanceFacts.

Context `{Imaging}.

Lemma improved_fetch_success (o : oracle) (path : string) (r : request)
    (enhance : bool) (w : world) (content : list byte) (img stored : Image) :
  http_get o (request_url Improved.STYLE_OPTIONS r) REQUEST_TIMEOUT
  = HttpOk content ->
  Image_open content = inr img ->
  (if enhance then Improved.enhance_image img "auto" = inr stored
   else stored = img) ->
  Image_load stored = None ->
  save_result o = SaveOk ->
  exists w',
    Improved.fetch_and_store o path (description r) (exclusions r) (style r)
                             (width r) (height r) enhance w
    = (Return (Some stored, "api", (clock_end o - clock_start o)%Z,
               "Generated successfully"), w')
    /\ files w' = <[path := png_bytes stored]> (files w)
    /\ dirs w' = dirs w /\ tempdir w' = tempdir w.
Proof.
  unfold request_url. intros G I E L S. run_fetch. rewrite G. cbn. rewrite I.
  destruct enhance; cbn; [rewrite E; cbn | subst stored]; rewrite L, S; cbn;
    eexists; (split; [reflexivity|]); auto.
Qed.

(** X9: the cache of [IMPstreamlit_app.py] does not know about
    enhancement. After a first call stored the image of a request (the
    enhanced image when that call asked for it, the plain one otherwise),
    a second call for the same request returns that stored image from the
    cache whatever its own [enhance] flag is: asked to enhance, it returns
    the plain image the first call stored, and the other way round. The
    first call is one that succeeds: the endpoint answers an image, the
    enhancement it asks for does not raise, the image to store loads and
    the save completes; PNG is lossless and the second call can read the
    file. *)
Theorem cache_ignores_enhance (o1 o2 : oracle) (r : request) (w : world)
    (answer : list byte) (img stored : Image) (enhance1 enhance2 : bool) :
  png_lossless ->
  files w !! artifact_path w r = None ->
  artifact_path w r ∉ dirs w ->
  makedirs_error o1 = None ->
  http_get o1 (request_url Improved.STYLE_OPTIONS r) REQUEST_TIMEOUT
  = HttpOk answer ->
  Image_open answer = inr img ->
  (if enhance1 then Improved.enhance_image img "auto" = inr stored
   else stored = img) ->
  Image_load stored = None ->
  save_result o1 = SaveOk ->
  makedirs_error o2 = None ->
  read_error o2 = None ->
  exists w1 w2,
    Improved.generate_image o1 (description r) (exclusions r) (style r)
                            (width r) (height r) enhance1 w
    = (Return (Some stored, "api", (clock_end o1 - clock_start o1)%Z,
               "Generated successfully"), w1)
    /\ Improved.generate_image o2 (description r) (exclusions r) (style r)
                               (width r) (height r) enhance2 w1
       = (Return (Some stored, "cache", 0%Z, "Loaded from cache"), w2).
Proof.
  intros L F D Mk1 Ha Hi He Hl Hs Mk2 Rd2.
  assert (D1 : artifact_path w r ∉ dirs (entered w)).
  { cbn. intros [E%elem_of_singleton|D']%elem_of_union; [|contradiction].
    now apply artifact_path_not_cache_dir in E. }
  destruct (improved_fetch_success o1 (artifact_path w r) r enhance1 (entered w)
              answer img stored Ha Hi He Hl Hs) as (w1 & G1 & Fw & Dw & Tw).
  assert (P : artifact_path w1 r = artifact_path w r).
  { unfold artifact_path, cache_dir_of. now rewrite Tw. }
  assert (F1 : files (entered w1) !! artifact_path w r = Some (png_bytes stored)).
  { cbn. rewrite Fw. apply lookup_insert_eq. }
  destruct (check_cache_hit o2 (artifact_path w r) (entered w1)
              (png_bytes stored) stored F1 Rd2 (L stored Hl)) as (w2 & G2 & _).
  exists w1, w2. split.
  - rewrite (improved_generate_unfold o1 r enhance1 w Mk1).
    rewrite (check_cache_miss o1 (artifact_path w r) (entered w) F D1).
    exact G1.
  - rewrite (improved_generate_unfold o2 r enhance2 w1 Mk2), P, G2. reflexivity.
Qed.

End EnhanceFacts.

Lemma quote_cons (c : ascii) (s : string) :
  quote (String c s)
  = (if quote_safe c then String c EmptyString
     else fold_right (fun b acc => percent b +:+ acc) EmptyString
                     (Text.encode_char c))
    +:+ quote s.
Proof. reflexivity. Qed.

Lemma quote_char_url (c : ascii) :
  all_chars url_char
    (if quote_safe c then String c EmptyString
     else fold_right (fun b acc => percent b +:+ acc) EmptyString
                     (Text.encode_char c)) = true.
Proof. destruct c as [[] [] [] [] [] [] [] []]; reflexivity. Qed.

Lemma quote_all_url (s : string) : all_chars url_char (quote s) = true.
Proof.
  induction s as [|c s IH]; [reflexivity|].
  now rewrite quote_cons, all_chars_app, quote_char_url, IH.
Qed.

Lemma all_chars_no_occurrence (P : ascii -> bool) (c : ascii) (s : string) :
  P c = false -> all_chars P s = true ->
  Text.contains (String c EmptyString) s = false.
Proof.
  intros Pc. induction s as [|d s IH]; [reflexivity|].
  cbn [all_chars Text.contains Text.startswith]. intros A.
  apply andb_prop in A as [A1 A2]. rewrite (IH A2), andb_true_r, orb_false_r.
  destruct (Ascii.eqb_spec c d) as [->|]; [congruence | reflexivity].
Qed.

(** X11: a quoted prompt holds only letters, digits, [_.-~/] and ["%"]: no
    space and none of [? & # =], so the prompt cannot add to or change the
    query string of the request URL. *)
Theorem quote_is_url_safe (s : string) :
  all_chars url_char (quote s) = true
  /\ Text.contains " " (quote s) = false
  /\ Text.contains "?" (quote s) = false
  /\ Text.contains "&" (quote s) = false
  /\ Text.contains "#" (quote s) = false
  /\ Text.contains "=" (quote s) = false.
Proof.
  pose proof (quote_all_url s) as A.
  repeat split; try exact A;
    apply (all_chars_no_occurrence url_char); (reflexivity || exact A).
Qed.

Lemma unquote_quote_char (c : ascii) (rest : string) :
  unquote ((if quote_safe c then String c EmptyString
            else fold_right (fun b acc => percent b +:+ acc) EmptyString
                            (Text.encode_char c)) +:+ rest)
  = Text.encode_char c ++ unquote rest.
Proof. destruct c as [[] [] [] [] [] [] [] []]; reflexivity. Qed.

Lemma unquote_quote (s : string) : unquote (quote s) = Text.encode s.
Proof.
  induction s as [|c s IH]; [reflexivity|].
  rewrite quote_cons, unquote_quote_char, IH. reflexivity.
Qed.

(** X12: [quote] loses nothing: two different texts are quoted differently,
    so two different full prompts never give the same request URL path. *)
Theorem quote_injective (s s' : string) : quote s = quote s' -> s = s'.
Proof.
  intros E. apply (f_equal unquote) in E. rewrite !unquote_quote in E.
  now apply encode_inj.
Qed.

(** ** The prompts of the batch tab *)

Lemma rstrip_keeps_head (c : ascii) (s : string) :
  Text.isspace c = false -> Text.rstrip (String c s) = String c (Text.rstrip s).
Proof. intros E. cbn [Text.rstrip]. now rewrite E, andb_false_r. Qed.

Lemma rstrip_idem (s : string) : Text.rstrip (Text.rstrip s) = Text.rstrip s.
Proof.
  induction s as [|c s IH]; [reflexivity|]. cbn [Text.rstrip].
  destruct (Text.is_empty (Text.rstrip s) && Text.isspace c) eqn:B;
    [reflexivity|].
  cbn [Text.rstrip]. now rewrite IH, B.
Qed.

Lemma strip_blank (s : string) : blank s = true -> Text.strip s = "".
Proof. intros B. unfold Text.strip. now rewrite (lstrip_blank s B). Qed.

Lemma strip_not_blank (s : string) :
  blank s = false ->
  exists c t, Text.strip s = String c t /\ Text.isspace c = false.
Proof.
  intros B. destruct (lstrip_not_blank s B) as (c & t & E & Ec).
  unfold Text.strip. rewrite E, (rstrip_keeps_head c t Ec). eauto.
Qed.

Lemma strip_idem (s : string) : Text.strip (Text.strip s) = Text.strip s.
Proof.
  destruct (blank s) eqn:B.
  - now rewrite (strip_blank s B).
  - destruct (lstrip_not_blank s B) as (c & t & E & Ec).
    unfold Text.strip at 2. unfold Text.strip at 2. rewrite E.
    rewrite (rstrip_keeps_head c t Ec). unfold Text.strip.
    cbn [Text.lstrip]. rewrite Ec.
    rewrite (rstrip_keeps_head c _ Ec). now rewrite rstrip_idem.
Qed.

Lemma all_chars_lstrip (P : ascii -> bool) (s : string) :
  all_chars P s = true -> all_chars P (Text.lstrip s) = true.
Proof.
  induction s as [|c s IH]; [reflexivity|]. cbn [Text.lstrip].
  destruct (Text.isspace c); [|auto]. cbn [all_chars]. intros A.
  apply andb_prop in A as [_ A]. auto.
Qed.

Lemma all_chars_rstrip (P : ascii -> bool) (s : string) :
  all_chars P s = true -> all_chars P (Text.rstrip s) = true.
Proof.
  induction s as [|c s IH]; [reflexivity|]. cbn [Text.rstrip all_chars].
  intros A. apply andb_prop in A as [A1 A2].
  destruct (_ && _); [reflexivity|]. cbn [all_chars]. now rewrite A1, IH.
Qed.

Lemma all_chars_snoc (P : ascii -> bool) (s : string) (c : ascii) :
  all_chars P s = true -> P c = true ->
  all_chars P (s +:+ String c EmptyString) = true.
Proof.
  intros A Pc. rewrite all_chars_app, A. cbn. now rewrite Pc.
Qed.

Lemma split_on_pieces (sep : ascii) (w s : string) (piece : string) :
  all_chars (fun c => negb (Ascii.eqb c sep)) w = true ->
  In piece (Text.split_on_from sep w s) ->
  all_chars (fun c => negb (Ascii.eqb c sep)) piece = true.
Proof.
  revert w. induction s as [|c s IH]; intros w W I.
  - cbn in I. destruct I as [<-|[]]. exact W.
  - cbn [Text.split_on_from] in I. destruct (Ascii.eqb c sep) eqn:E.
    + destruct I as [<-|I]; [exact W|]. now apply (IH EmptyString).
    + apply (IH (w +:+ String c EmptyString)); [|exact I].
      apply all_chars_snoc; [exact W|]. now rewrite E.
Qed.

Lemma no_char_contains (sep : ascii) (s : string) :
  all_chars (fun c => negb (Ascii.eqb c sep)) s = true ->
  Text.contains (String sep EmptyString) s = false.
Proof.
  apply all_chars_no_occurrence. now rewrite Ascii.eqb_refl.
Qed.

(** X13: every prompt the batch tab takes from the text area is one line of
    it with the surrounding whitespace removed: it is not blank, has no
    leading or trailing whitespace left to strip, and holds no line
    break. *)
Theorem batch_prompts_are_clean (text : string) (p : string) :
  In p (Improved.prompts_of text) ->
  blank p = false
  /\ Text.strip p = p
  /\ Text.contains (String "010" EmptyString) p = false.
Proof.
  unfold Improved.prompts_of. intros I.
  apply in_map_iff in I as (line & <- & I).
  apply filter_In in I as [I E]. apply negb_true_iff in E.
  split; [|split].
  - destruct (blank line) eqn:B.
    + now rewrite (strip_blank line B) in E.
    + destruct (strip_not_blank line B) as (c & t & -> & Ec).
      cbn [blank]. now rewrite Ec.
  - apply strip_idem.
  - apply no_char_contains. unfold Text.strip.
    apply all_chars_rstrip, all_chars_lstrip.
    apply (split_on_pieces "010" EmptyString text); [reflexivity | exact I].
Qed.

(** X14: within the limit the batch tab drops nothing and warns about
    nothing: with at most 5 non-blank lines it returns all of them, in
    order, when the button is pressed and there is at least one; with no
    prompt it returns nothing and shows nothing, button or not; with
    prompts and no button it returns nothing and shows
    "Ready to generate N images". *)
Theorem render_batch_within_limit (ui : Improved.batch_form) (w : world) :
  let ps := Improved.prompts_of (Improved.text_area ui) in
  (length ps <= Improved.BATCH_LIMIT)%nat ->
  Improved.render_batch_generation ui w
  = match ps with
    | [] => (Return None, w)
    | _ :: _ =>
        if Improved.button ui
        then (Return (Some (ps, Improved.batch_style ui,
                            Improved.batch_width ui, Improved.batch_height ui)),
              w)
        else (Return None,
              with_notices
                (notices w ++ [Info ("Ready to generate "
                                     +:+ Text.str_int (Z.of_nat (length ps))
                                     +:+ " images")]) w)
    end.
Proof.
  cbn zeta. intros L. unfold Improved.render_batch_generation. unfold_M.
  destruct (Nat.ltb_spec Improved.BATCH_LIMIT
              (length (Improved.prompts_of (Improved.text_area ui))))
    as [L'|_]; [lia|].
  cbv beta iota.
  destruct (Improved.prompts_of (Improved.text_area ui)) as [|p ps].
  - rewrite andb_false_r. reflexivity.
  - rewrite bool_decide_eq_false_2 by discriminate.
    destruct (Improved.button ui); reflexivity.
Qed.

(** ** The rotating tip *)

Lemma py_index_in_range {A} (l : list A) (i : Z) :
  (0 <= i < Z.of_nat (length l))%Z ->
  exists x, Tips.py_index l i = Return x /\ In x l
            /\ nth_error l (Z.to_nat i) = Some x.
Proof.
  intros [L U]. unfold Tips.py_index.
  destruct (Z.leb_spec 0 i) as [_|]; [|lia].
  destruct (nth_error l (Z.to_nat i)) as [x|] eqn:E.
  - exists x. split; [reflexivity|]. split; [|reflexivity].
    now apply nth_error_In in E.
  - apply nth_error_None in E. lia.
Qed.

(** X19: [get_rotating_tip] never indexes outside the table: with a
    non-empty table and an index in range it returns one of the tips and
    leaves the index in range. It moves to the next tip, cyclically, and
    records the time exactly when more than 3 seconds have passed since
    the last change, and otherwise changes nothing. *)
Theorem tip_index_stays_in_range (CODING_TIPS : list string) (now : Q)
    (s : Tips.tip_state) :
  CODING_TIPS <> [] ->
  (0 <= Tips.tip_index s < Z.of_nat (length CODING_TIPS))%Z ->
  exists tip s',
    Tips.get_rotating_tip CODING_TIPS now s = (Return tip, s')
    /\ In tip CODING_TIPS
    /\ (0 <= Tips.tip_index s' < Z.of_nat (length CODING_TIPS))%Z
    /\ ((3 < now - Tips.last_tip_change s)%Q ->
        Tips.tip_index s'
        = ((Tips.tip_index s + 1) mod Z.of_nat (length CODING_TIPS))%Z
        /\ Tips.last_tip_change s' = now)
    /\ ((now - Tips.last_tip_change s <= 3)%Q -> s' = s).
Proof.
  intros N R. unfold Tips.get_rotating_tip.
  assert (P : (0 < Z.of_nat (length CODING_TIPS))%Z).
  { destruct CODING_TIPS; [contradiction | cbn; lia]. }
  destruct (Qlt_le_dec 3 (now - Tips.last_tip_change s)) as [Lt|Le].
  - destruct (Z.eqb_spec (Z.of_nat (length CODING_TIPS)) 0) as [Z0|_]; [lia|].
    pose proof (Z.mod_pos_bound (Tips.tip_index s + 1) _ P) as B.
    destruct (py_index_in_range CODING_TIPS _ B) as (tip & E & I & _).
    cbn [Tips.tip_index]. rewrite E.
    exists tip, (Tips.TipState
                   ((Tips.tip_index s + 1) mod Z.of_nat (length CODING_TIPS)) now).
    split; [reflexivity|]. split; [exact I|]. split; [exact B|]. split.
    + intros _. split; reflexivity.
    + intros Le. exfalso. apply (Qlt_not_le _ _ Lt Le).
  - destruct (py_index_in_range CODING_TIPS _ R) as (tip & E & I & _).
    rewrite E. exists tip, s.
    split; [reflexivity|]. split; [exact I|]. split; [exact R|]. split.
    + intros Lt. exfalso. apply (Qlt_not_le _ _ Lt Le).
    + reflexivity.
Qed.

(** ** The session state *)

Lemma set_if_absent_keeps (key k : string) (v x : Session.value)
    (s : gmap string Session.value) :
  s !! k = Some x -> Session.set_if_absent key v s !! k = Some x.
Proof.
  intros E. unfold Session.set_if_absent.
  destruct (s !! key) eqn:F; [exact E|].
  rewrite lookup_insert_ne; [exact E|]. congruence.
Qed.

Lemma set_if_absent_present (key : string) (v : Session.value)
    (s : gmap string Session.value) :
  is_Some (Session.set_if_absent key v s !! key).
Proof.
  unfold Session.set_if_absent. destruct (s !! key) eqn:F; [eauto|].
  rewrite lookup_insert_eq. eauto.
Qed.

Lemma set_if_absent_mono (key k : string) (v : Session.value)
    (s : gmap string Session.value) :
  is_Some (s !! k) -> is_Some (Session.set_if_absent key v s !! k).
Proof. intros [x E]. exists x. now apply set_if_absent_keeps. Qed.

Lemma set_if_absent_noop (key : string) (v : Session.value)
    (s : gmap string Session.value) :
  is_Some (s !! key) -> Session.set_if_absent key v s = s.
Proof. intros [x E]. unfold Session.set_if_absent. now rewrite E. Qed.

Lemma init_keeps (now : Q) (s : gmap string Session.value) (k : string)
    (x : Session.value) :
  s !! k = Some x ->
  Session.init_session_state_basic now s !! k = Some x
  /\ Session.init_session_state now s !! k = Some x.
Proof.
  intros E. unfold Session.init_session_state_basic, Session.init_session_state.
  cbv zeta. split; repeat apply set_if_absent_keeps; exact E.
Qed.

Lemma init_has_keys (now : Q) (s : gmap string Session.value) (k : string) :
  (In k Session.KEYS_basic ->
   is_Some (Session.init_session_state_basic now s !! k))
  /\ (In k Session.KEYS -> is_Some (Session.init_session_state now s !! k)).
Proof.
  unfold Session.init_session_state_basic, Session.init_session_state.
  cbv zeta. split; intros I; cbn in I;
    repeat (destruct I as [<-|I];
            [repeat (apply set_if_absent_present
                     || apply set_if_absent_mono)|]);
    contradiction.
Qed.

(** X18: [init_session_state], in either file, only fills in what is
    missing: every value the session already holds (the history, the
    counters, ...) is kept as it is, every key the application reads is
    present afterwards, and running it again, at any later time, changes
    nothing. *)
Theorem init_session_state_fills_gaps_only (now later : Q)
    (s : gmap string Session.value) :
  (forall k x, s !! k = Some x ->
     Session.init_session_state_basic now s !! k = Some x
     /\ Session.init_session_state now s !! k = Some x)
  /\ (forall k, In k Session.KEYS_basic ->
        is_Some (Session.init_session_state_basic now s !! k))
  /\ (forall k, In k Session.KEYS ->
        is_Some (Session.init_session_state now s !! k))
  /\ Session.init_session_state_basic later
       (Session.init_session_state_basic now s)
     = Session.init_session_state_basic now s
  /\ Session.init_session_state later (Session.init_session_state now s)
     = Session.init_session_state now s.
Proof.
  split; [intros k x; apply init_keeps|].
  split; [intros k; apply init_has_keys|].
  split; [intros k; apply init_has_keys|].
  split.
  - pose proof (fun k => proj1 (init_has_keys now s k)) as K.
    set (s1 := Session.init_session_state_basic now s) in *. clearbody s1.
    unfold Session.init_session_state_basic. cbv zeta.
    rewrite !set_if_absent_noop; [reflexivity|..];
      repeat (apply set_if_absent_mono); apply K; cbn; auto 10.
  - pose proof (fun k => proj2 (init_has_keys now s k)) as K.
    set (s1 := Session.init_session_state now s) in *. clearbody s1.
    unfold Session.init_session_state. cbv zeta.
    rewrite !set_if_absent_noop; [reflexivity|..];
      repeat (apply set_if_absent_mono); apply K; cbn; auto 15.
Qed.

(** ** The generation tab *)

Lemma clear_loop_metrics (o : oracle) (d : string) (names : list string)
    (n : Z) (w : world) :
  session_metrics (snd (clear_cache_loop o d names n w)) = session_metrics w.
Proof.
  revert n w. induction names as [|name names IH]; intros n w; [reflexivity|].
  cbn [clear_cache_loop]. destruct (_ && _); [|apply IH].
  unfold OS.remove, set_current_code, modify, mbind, M_bind. cbn.
  destruct (remove_error o _); [reflexivity|].
  destruct (files w !! _); [|reflexivity]. cbn. now rewrite IH.
Qed.

Lemma clear_cache_metrics (o : oracle) (w : world) :
  session_metrics (snd (clear_cache o w)) = session_metrics w.
Proof.
  unfold clear_cache, OS.path_exists, OS.listdir.
  unfold mbind, M_bind, mret, M_ret, set_current_code, modify, get_world,
    st_error. cbn.
  destruct (_ || _); cbn; [|reflexivity].
  destruct (listdir_error o); cbn; [reflexivity|].
  destruct (bool_decide _); cbn; [|reflexivity].
  match goal with
  | |- context [clear_cache_loop ?o ?d ?ns ?n ?w0] =>
      pose proof (clear_loop_metrics o d ns n w0) as L;
      destruct (clear_cache_loop o d ns n w0) as [[k [e|]] w2]
  end; exact L.
Qed.

Lemma sidebar_returns (improved : bool) (ui : Main.controls) (o : oracle)
    (w : world) :
  exists w1,
    Main.sidebar_buttons improved ui o w = (Return tt, w1)
    /\ (Main.reset_stats_button ui = false ->
        session_metrics w1 = session_metrics w)
    /\ (Main.clear_cache_button ui = false ->
        Main.reset_stats_button ui = false -> w1 = w).
Proof.
  unfold Main.sidebar_buttons. unfold mbind at 1. unfold M_bind at 1.
  destruct (Main.clear_cache_button ui).
  - destruct (clear_cache_returns_what_it_removed_aux o
                (with_code "Clearing cache..." w)) as (n & w0 & E & _).
    pose proof (clear_cache_metrics o (with_code "Clearing cache..." w)) as Mt.
    unfold mbind, M_bind, set_current_code, modify, mret, M_ret. cbn.
    rewrite E in *. cbn in Mt. cbn.
    destruct (Main.reset_stats_button ui); cbn; eexists; (split; [reflexivity|]);
      split; intros; (discriminate || assumption).
  - unfold mbind, M_bind, set_current_code, modify, mret, M_ret. cbn.
    destruct (Main.reset_stats_button ui); cbn; eexists; (split; [reflexivity|]);
      split; intros; (discriminate || reflexivity).
Qed.

Lemma session_eta (s : Main.session) :
  Main.generate s = false -> s = Main.Session false (Main.history s).
Proof. destruct s as [g h]. cbn. now intros ->. Qed.

Section MainFacts.

Context `{Imaging}.

(** What the generation tab keeps, whatever the call does, as long as
    the call itself leaves "calls" alone. *)
Lemma generate_tab_invariant (call : M envelope) (enhanced : option bool)
    (ui : Main.controls) (ts : string) (s : Main.session) (w : world) :
  (forall w0 e w1, call w0 = (Return e, w1) ->
                   calls (session_metrics w1) = calls (session_metrics w0)) ->
  let '(r, s', w') := Main.generate_tab call enhanced ui ts s w in
  Main.generate s' = false
  /\ (exists added, Main.history s' = Main.history s ++ added
                    /\ (length added <= 1)%nat
                    /\ (r = Return tt ->
                        calls (session_metrics w')
                        = (calls (session_metrics w)
                           + Z.of_nat (length added))%Z)).
Proof.
  intros C. unfold Main.generate_tab.
  destruct (Main.generate s) eqn:G.
  - destruct (validate_prompt (Main.prompt ui)) as [[|] msg]; cbn [negb].
    + unfold mbind, M_bind, set_current_code, modify. cbn.
      destruct (call _) as [[[[[[img|] src] t] m]|e] w1] eqn:E.
      * apply C in E. cbn in E. unfold Image_save_buffer, raise, mret, M_ret.
        destruct (Image_load img) as [err|].
        -- cbn. split; [reflexivity|]. exists []. rewrite app_nil_r.
           split; [reflexivity|]. split; [cbn; lia|]. discriminate.
        -- cbn. split; [reflexivity|].
           eexists [_]. split; [reflexivity|]. split; [cbn; lia|]. intros _.
           cbn. lia.
      * apply C in E. cbn in E. cbn. split; [reflexivity|].
        exists []. rewrite app_nil_r. split; [reflexivity|].
        split; [cbn; lia|]. intros _. cbn. lia.
      * cbn. split; [reflexivity|]. exists []. rewrite app_nil_r.
        split; [reflexivity|]. split; [cbn; lia|]. discriminate.
    + cbn. split; [reflexivity|]. exists []. rewrite app_nil_r.
      split; [reflexivity|]. split; [cbn; lia|]. intros _. cbn. lia.
  - split; [exact G|]. exists []. rewrite app_nil_r.
    split; [reflexivity|]. split; [cbn; lia|]. intros _. cbn. lia.
Qed.

End MainFacts.

Section MainTheorems.

Context `{Imaging}.

Lemma basic_call_keeps_calls (o : oracle) (p n s : string) (wd ht : Z)
    (w0 w1 : world) (e : envelope) :
  Basic.generate_image o p n s wd ht w0 = (Return e, w1) ->
  calls (session_metrics w1) = calls (session_metrics w0).
Proof.
  intros G.
  destruct (basic_generate_facts o (Request p n s wd ht) w0 w1 e G)
    as (_ & -> & _).
  destruct e as [[[img src] t] m]. unfold counted.
  destruct (String.eqb src "cache"); [reflexivity|].
  destruct (String.eqb src "error"); reflexivity.
Qed.

Lemma improved_call_keeps_calls (o : oracle) (p n s : string) (wd ht : Z)
    (enhance : bool) (w0 w1 : world) (e : envelope) :
  Improved.generate_image o p n s wd ht enhance w0 = (Return e, w1) ->
  calls (session_metrics w1) = calls (session_metrics w0).
Proof.
  intros G.
  destruct (improved_generate_facts o (Request p n s wd ht) enhance w0 w1 e G)
    as (_ & -> & _).
  destruct e as [[[img src] t] m]. unfold counted.
  destruct (String.eqb src "cache"); [reflexivity|].
  destruct (String.eqb src "error"); reflexivity.
Qed.

(** X17: the sidebar and the generation tab of [main], in either file,
    consume the generation request (the flag "generate" is off after the
    tab, even when [generate_image] or the saving of the image raises),
    add at most one entry at the end of the history and remove none; and,
    unless "Reset Stats" is pressed, when the tab ends normally the
    counter "calls" has grown by exactly the number of entries added. *)
Theorem main_counts_what_it_records (ui : Main.controls) (o_clear o_gen : oracle)
    (ts : string) (s : Main.session) (w : world) :
  (let '(r, s', w') := Main.main_basic ui o_clear o_gen ts s w in
   Main.generate s' = false
   /\ exists added,
       Main.history s' = Main.history s ++ added
       /\ (length added <= 1)%nat
       /\ (Main.reset_stats_button ui = false ->
           r = Return tt ->
           calls (session_metrics w')
           = (calls (session_metrics w) + Z.of_nat (length added))%Z))
  /\ (let '(r, s', w') := Main.main_improved ui o_clear o_gen ts s w in
      Main.generate s' = false
      /\ exists added,
          Main.history s' = Main.history s ++ added
          /\ (length added <= 1)%nat
          /\ (Main.reset_stats_button ui = false ->
              r = Return tt ->
              calls (session_metrics w')
              = (calls (session_metrics w) + Z.of_nat (length added))%Z)).
Proof.
  split.
  - unfold Main.main_basic.
    destruct (sidebar_returns false ui o_clear w) as (w1 & -> & Mt & _).
    set (s0 := if Main.generate_button ui then _ else s).
    assert (Hh : Main.history s0 = Main.history s)
      by (subst s0; destruct (Main.generate_button ui); reflexivity).
    pose proof (generate_tab_invariant
                  (Basic.generate_image o_gen (Main.prompt ui)
                     (Main.negative_prompt ui) (Main.style ui) (Main.width ui)
                     (Main.height ui))
                  None ui ts s0 w1
                  (fun w0 e w2 => basic_call_keeps_calls o_gen _ _ _ _ _ w0 w2 e))
      as I.
    destruct (Main.generate_tab _ None ui ts s0 w1) as [[r s'] w'].
    destruct I as (G & added & Ha & Hl & Hc). split; [exact G|].
    exists added. rewrite <- Hh. split; [exact Ha|]. split; [exact Hl|].
    intros R Rt. rewrite <- (Mt R). now apply Hc.
  - unfold Main.main_improved.
    destruct (sidebar_returns true ui o_clear w) as (w1 & -> & Mt & _).
    set (s0 := if Main.generate_button ui then _ else s).
    assert (Hh : Main.history s0 = Main.history s)
      by (subst s0; destruct (Main.generate_button ui); reflexivity).
    pose proof (generate_tab_invariant
                  (Improved.generate_image o_gen (Main.prompt ui)
                     (Main.negative_prompt ui) (Main.style ui) (Main.width ui)
                     (Main.height ui) (Main.auto_enhance ui))
                  (Some (Main.auto_enhance ui)) ui ts s0 w1
                  (fun w0 e w2 =>
                     improved_call_keeps_calls o_gen _ _ _ _ _ _ w0 w2 e))
      as I.
    destruct (Main.generate_tab _ (Some (Main.auto_enhance ui)) ui ts s0 w1)
      as [[r s'] w'].
    destruct I as (G & added & Ha & Hl & Hc). split; [exact G|].
    exists added. rewrite <- Hh. split; [exact Ha|]. split; [exact Hl|].
    intros R Rt. rewrite <- (Mt R). now apply Hc.
Qed.

(** X16: validation is a gate in front of [generate_image]: when
    [validate_prompt] rejects the description, the run, in either file,
    comes to the end of the generation tab without calling
    [generate_image]: with no utility button pressed, the files, the
    counters and the history are exactly as before, and the generation
    request is consumed. *)
Theorem invalid_prompt_is_not_generated (ui : Main.controls)
    (o_clear o_gen : oracle) (ts : string) (s : Main.session) (w : world)
    (msg : string) :
  validate_prompt (Main.prompt ui) = (false, msg) ->
  Main.clear_cache_button ui = false ->
  Main.reset_stats_button ui = false ->
  (let '(r, s', w') := Main.main_basic ui o_clear o_gen ts s w in
   r = Return tt
   /\ s' = Main.Session false (Main.history s)
   /\ files w' = files w /\ dirs w' = dirs w
   /\ session_metrics w' = session_metrics w)
  /\ (let '(r, s', w') := Main.main_improved ui o_clear o_gen ts s w in
      r = Return tt
      /\ s' = Main.Session false (Main.history s)
      /\ files w' = files w /\ dirs w' = dirs w
      /\ session_metrics w' = session_metrics w).
Proof.
  intros V C R.
  assert (B : Main.main_basic ui o_clear o_gen ts s w
              = (Return tt, Main.Session false (Main.history s), w)
              /\ Main.main_improved ui o_clear o_gen ts s w
                 = (Return tt, Main.Session false (Main.history s), w)).
  { unfold Main.main_basic, Main.main_improved.
    destruct (sidebar_returns false ui o_clear w) as (w1 & -> & _ & E1).
    destruct (sidebar_returns true ui o_clear w) as (w2 & -> & _ & E2).
    rewrite (E1 C R), (E2 C R). unfold Main.generate_tab. rewrite V. cbn [negb].
    destruct (Main.generate_button ui); cbn [Main.generate Main.history].
    - auto.
    - destruct s as [[|] h]; cbn; auto. }
  destruct B as [-> ->]. cbv beta iota. auto 10.
Qed.

End MainTheorems.

(** ** Collections *)

Lemma has_get (d : list (string * list Collections.item)) (name : string) :
  Collections.has d name = true <-> is_Some (Collections.get d name).
Proof.
  induction d as [|[k v] d IH]; cbn.
  - split; [discriminate | intros [? ?]; discriminate].
  - destruct (String.eqb k name); cbn; [split; eauto | exact IH].
Qed.

Lemma get_set_eq (d : list (string * list Collections.item)) (name : string)
    (v : list Collections.item) :
  Collections.get (Collections.set d name v) name = Some v.
Proof.
  induction d as [|[k x] d IH]; cbn.
  - now rewrite String.eqb_refl.
  - destruct (String.eqb k name) eqn:E; cbn; now rewrite E.
Qed.

Lemma get_set_ne (d : list (string * list Collections.item)) (name other : string)
    (v : list Collections.item) :
  name <> other ->
  Collections.get (Collections.set d name v) other = Collections.get d other.
Proof.
  intros N. induction d as [|[k x] d IH]; cbn.
  - destruct (String.eqb_spec name other); [contradiction | reflexivity].
  - destruct (String.eqb_spec k name) as [->|]; cbn.
    + destruct (String.eqb_spec name other); [contradiction | reflexivity].
    + destruct (String.eqb k other); [reflexivity | exact IH].
Qed.

Lemma pop_length (l : list Collections.item) (i : nat) :
  (i < length l)%nat -> S (length (Collections.pop l i)) = length l.
Proof.
  revert i. induction l as [|x l IH]; intros i L; cbn in *; [lia|].
  destruct i as [|i]; [reflexivity|]. cbn. rewrite IH; [reflexivity | lia].
Qed.

Lemma created_keeps (ui : Collections.form) (s : Collections.state)
    (name : string) (items : list Collections.item) :
  Collections.get (Collections.collections s) name = Some items ->
  Collections.get (created ui s) name = Some items.
Proof.
  intros G. unfold created.
  destruct (_ && _ && _) eqn:B; [|exact G].
  apply andb_prop in B as [_ B]. apply negb_true_iff in B.
  rewrite get_set_ne; [exact G|]. intros <-.
  assert (X : Collections.has (Collections.collections s)
                (Collections.new_collection ui) = true)
    by (apply has_get; eauto).
  congruence.
Qed.

Section CollectionsTheorems.

Context `{Imaging}.

(** The drawing loop stops at the button that was pressed. *)
Lemma draw_items_pressed (pressed : option nat) (j i : nat)
    (collection : list Collections.item) :
  Collections.draw_items pressed j collection = Return (Some i) ->
  pressed = Some i /\ (j <= i < j + length collection)%nat.
Proof.
  revert j. induction collection as [|it rest IH]; intros j; cbn; [discriminate|].
  destruct (Image_open (Collections.item_image it)) as [|img]; [discriminate|].
  destruct (Image_load img); [discriminate|].
  case_bool_decide as P.
  - intros E. injection E as <-. split; [exact P | lia].
  - intros E. apply IH in E as [E L]. split; [exact E | lia].
Qed.

Lemma render_cases (ui : Collections.form) (s : Collections.state)
    (s' : Collections.state) (out : list Collections.shown) (rerun : bool) :
  Collections.render_collections_manager ui s = Return (s', out, rerun) ->
  (rerun = false /\ Collections.collections s' = created ui s)
  \/ (rerun = true
      /\ exists name items i,
          Collections.selected_collection s' = Some name
          /\ Collections.get (created ui s) name = Some items
          /\ (i < length items)%nat
          /\ Collections.remove_button ui = Some i
          /\ Collections.collections s'
             = Collections.set (created ui s) name (Collections.pop items i)).
Proof.
  unfold Collections.render_collections_manager.
  assert (C : exists out0,
             (if Collections.create_button ui
                 && negb (Text.is_empty (Collections.new_collection ui))
              then
                if negb (Collections.has (Collections.collections s)
                                         (Collections.new_collection ui))
                then (Collections.set (Collections.collections s)
                                      (Collections.new_collection ui) [],
                      [Collections.Success
                         ("Collection '" +:+ Collections.new_collection ui
                          +:+ "' created!")])
                else (Collections.collections s,
                      [Collections.Warned "Collection already exists!"])
              else (Collections.collections s, []))
             = (created ui s, out0)).
  { unfold created.
    destruct (Collections.create_button ui
              && negb (Text.is_empty (Collections.new_collection ui)));
      cbn [andb]; [|eauto].
    destruct (negb (Collections.has _ _)); eauto. }
  destruct C as [out0 ->].
  set (sel := match Collections.collection_button ui with
              | Some name =>
                  if Collections.has (created ui s) name then Some name
                  else Collections.selected_collection s
              | None => Collections.selected_collection s
              end).
  destruct sel as [name|];
    [|intros E; injection E as <- <- <-; left; auto].
  destruct (Collections.get (created ui s) name) as [[|x items]|] eqn:G;
    [intros E; injection E as <- <- <-; left; auto| |discriminate].
  destruct (Collections.draw_items _ 0 (x :: items)) as [[i|]|e] eqn:Dr;
    [|intros E; injection E as <- <- <-; left; auto|discriminate].
  apply draw_items_pressed in Dr as [Rb L].
  intros E; injection E as <- <- <-.
  right. split; [reflexivity|]. exists name, (x :: items), i.
  repeat split; auto. lia.
Qed.

Lemma created_origin (ui : Collections.form) (s : Collections.state)
    (name : string) (x : Collections.item) (items : list Collections.item) :
  Collections.get (created ui s) name = Some (x :: items) ->
  Collections.get (Collections.collections s) name = Some (x :: items).
Proof.
  unfold created. destruct (_ && _ && _); [|auto].
  destruct (String.eqb_spec (Collections.new_collection ui) name) as [->|N].
  - rewrite get_set_eq. discriminate.
  - now rewrite (get_set_ne _ _ _ _ N).
Qed.

Lemma created_new (ui : Collections.form) (s : Collections.state) :
  Collections.create_button ui = true ->
  Collections.new_collection ui <> "" ->
  Collections.has (Collections.collections s) (Collections.new_collection ui)
  = false ->
  Collections.get (created ui s) (Collections.new_collection ui) = Some [].
Proof.
  intros C N A. unfold created. rewrite C, A.
  destruct (Collections.new_collection ui); [contradiction|]. cbn.
  apply get_set_eq.
Qed.

(** X20: the collections manager never loses or overwrites a collection.
    After any run that does not raise, every collection that existed still
    exists; unless an item was removed (the run called [st.rerun()]),
    every collection holds exactly the items it held; and "Create
    Collection" with a new, non-empty name adds that collection, empty,
    while with an existing name it changes nothing. *)
Theorem collections_are_never_overwritten (ui : Collections.form)
    (s s' : Collections.state) (out : list Collections.shown) (rerun : bool) :
  Collections.render_collections_manager ui s = Return (s', out, rerun) ->
  (forall name,
      Collections.has (Collections.collections s) name = true ->
      Collections.has (Collections.collections s') name = true)
  /\ (rerun = false ->
      forall name items,
        Collections.get (Collections.collections s) name = Some items ->
        Collections.get (Collections.collections s') name = Some items)
  /\ (Collections.create_button ui = true ->
      Collections.new_collection ui <> "" ->
      Collections.has (Collections.collections s) (Collections.new_collection ui)
      = false ->
      Collections.get (Collections.collections s') (Collections.new_collection ui)
      = Some []).
Proof.
  intros E. apply render_cases in E as [(-> & ->)|(-> & name & items & i & Sel & G & L & Rb & ->)].
  - split; [|split].
    + intros name Hn. apply has_get in Hn as [items G]. apply has_get.
      exists items. now apply created_keeps.
    + intros _ name items. apply created_keeps.
    + apply created_new.
  - split; [|split].
    + intros other Hn. apply has_get in Hn as [its G']. apply has_get.
      destruct (String.eqb_spec name other) as [->|N].
      * rewrite get_set_eq. eauto.
      * rewrite (get_set_ne _ _ _ _ N). exists its. now apply created_keeps.
    + discriminate.
    + intros C N A.
      destruct (String.eqb_spec name (Collections.new_collection ui)) as [->|Ne].
      * rewrite (created_new ui s C N A) in G. injection G as <-. cbn in L. lia.
      * rewrite (get_set_ne _ _ _ _ Ne). now apply created_new.
Qed.

(** X21: "Remove" takes exactly one item out of the selected collection:
    when a run calls [st.rerun()], the selected collection has lost the
    item of the pressed button and kept the others in order, and every
    other collection holds exactly the items it held. *)
Theorem remove_takes_one_item (ui : Collections.form)
    (s s' : Collections.state) (out : list Collections.shown) :
  Collections.render_collections_manager ui s = Return (s', out, true) ->
  exists name items i,
    Collections.selected_collection s' = Some name
    /\ Collections.remove_button ui = Some i
    /\ Collections.get (Collections.collections s) name = Some items
    /\ (i < length items)%nat
    /\ Collections.get (Collections.collections s') name
       = Some (Collections.pop items i)
    /\ S (length (Collections.pop items i)) = length items
    /\ (forall other its,
          other <> name ->
          Collections.get (Collections.collections s) other = Some its ->
          Collections.get (Collections.collections s') other = Some its).
Proof.
  intros E. apply render_cases in E
    as [(X & _)|(_ & name & items & i & Sel & G & L & Rb & ->)]; [discriminate|].
  exists name, items, i. split; [exact Sel|]. split; [exact Rb|].
  destruct items as [|x items]; [cbn in L; lia|].
  split; [now apply (created_origin ui s)|]. split; [exact L|].
  split; [apply get_set_eq|]. split; [now apply pop_length|].
  intros other its N G'. rewrite get_set_ne by congruence.
  now apply created_keeps.
Qed.

End CollectionsTheorems.

(** ** Templates *)

Lemma startswith_first (c : ascii) (rest s : string) :
  Text.startswith (String c rest) s = true ->
  Text.startswith (String c EmptyString) s = true.
Proof.
  destruct s as [|d s]; [discriminate|]. cbn [Text.startswith].
  intros E. apply andb_prop in E as [-> _]. reflexivity.
Qed.

Lemma contains_first (c : ascii) (rest s : string) :
  Text.contains (String c EmptyString) s = false ->
  Text.contains (String c rest) s = false.
Proof.
  induction s as [|d s IH]; cbn [Text.contains]; intros E.
  - reflexivity.
  - apply orb_false_elim in E as [E1 E2]. rewrite (IH E2), orb_false_r.
    destruct (Text.startswith (String c rest) (String d s)) eqn:S;
      [|reflexivity].
    apply startswith_first in S. congruence.
Qed.

Lemma replace_absent (c : ascii) (rest new s : string) :
  Text.contains (String c rest) s = false ->
  Templates.replace (String c rest) new s = s.
Proof.
  unfold Templates.replace. cbn [Text.is_empty].
  induction s as [|d s IH]; [reflexivity|].
  cbn [Text.contains]. intros E. apply orb_false_elim in E as [E1 E2].
  cbn [Templates.replace_from]. rewrite E1. now rewrite (IH E2).
Qed.

(** X22: filling a template replaces the seven placeholders and nothing
    else: a template without a brace comes back unchanged, and each of the
    five built-in templates, once filled, has no brace left and is a
    prompt [validate_prompt] accepts. *)
Theorem templates_fill_to_valid_prompts :
  (forall t, Text.contains "{" t = false -> Templates.fill t = t)
  /\ (forall name t,
         In (name, t) Templates.PROMPT_TEMPLATES ->
         validate_prompt (Templates.fill t) = (true, "Valid prompt")
         /\ Text.contains "{" (Templates.fill t) = false).
Proof.
  split.
  - intros t C. unfold Templates.fill.
    rewrite !(replace_absent _ _ _ t) by now apply contains_first.
    reflexivity.
  - intros name t I. cbn in I.
    repeat (destruct I as [I|I]; [injection I as <- <-; split; vm_compute; reflexivity|]).
    contradiction.
Qed.

(** ** The batch tab and the counters *)

Section BatchCounters.

Context `{Imaging}.

Lemma check_cache_calls (o : oracle) (path : string) (w : world) :
  calls (session_metrics (snd (check_cache o path w)))
  = calls (session_metrics w).
Proof.
  unfold check_cache, OS.path_exists, Image_open_file, OS.remove. unfold_M.
  run_env; reflexivity.
Qed.

Lemma improved_fetch_calls (o : oracle) (path p n s : string) (wd ht : Z)
    (enhance : bool) (w : world) :
  calls (session_metrics
           (snd (Improved.fetch_and_store o path p n s wd ht enhance w)))
  = calls (session_metrics w).
Proof. run_fetch. run_env; reflexivity. Qed.

Lemma improved_generate_calls (o : oracle) (r : request) (enhance : bool)
    (w : world) :
  calls (session_metrics
           (snd (Improved.generate_image o (description r) (exclusions r)
                   (style r) (width r) (height r) enhance w)))
  = calls (session_metrics w).
Proof.
  destruct (makedirs_error o) as [msg|] eqn:Mk.
  - unfold Improved.generate_image, get_cache_path, get_cache_path_with,
      OS.makedirs. unfold_M. cbn. now rewrite Mk.
  - rewrite (improved_generate_unfold o r enhance w Mk).
    pose proof (check_cache_calls o (artifact_path w r) (entered w)) as C.
    destruct (check_cache o (artifact_path w r) (entered w)) as [[[e|]|e] w2];
      cbn in C; try exact C.
    now rewrite improved_fetch_calls.
Qed.

Lemma batch_loop_calls (env : nat -> oracle) (ps : list string) (i : nat)
    (style : string) (wd ht : Z) (acc : list Improved.batch_result)
    (w : world) :
  calls (session_metrics (snd (Improved.batch_loop env i ps style wd ht acc w)))
  = calls (session_metrics w).
Proof.
  revert i acc w. induction ps as [|p ps IH]; intros i acc w; [reflexivity|].
  cbn [Improved.batch_loop]. unfold mbind, M_bind.
  pose proof (improved_generate_calls (env i) (Request p "" style wd ht)
                false w) as G. cbn in G.
  destruct (Improved.generate_image _ _ _ _ _ _ _ _) as [[e|e] w1]; cbn in G.
  - destruct (batch_entry_cases p e w1)
      as [(entry & B & _)|(? & ? & ? & ? & ? & _ & _ & B)]; rewrite B; cbn.
    + rewrite <- G. apply IH.
    + exact G.
  - exact G.
Qed.

(** X15: the batch tab is invisible to "calls": whatever it generates, from
    the cache or from the endpoint, with or without errors, the counter
    "calls" ("Total Generations") is the same after it as before. *)
Theorem batch_is_not_counted (ui : Improved.batch_form) (env : nat -> oracle)
    (w : world) :
  calls (session_metrics (snd (Improved.batch_tab ui env w)))
  = calls (session_metrics w).
Proof.
  unfold Improved.batch_tab. unfold mbind at 1. unfold M_bind at 1.
  assert (R : exists r w0,
             Improved.render_batch_generation ui w = (Return r, w0)
             /\ session_metrics w0 = session_metrics w).
  { unfold Improved.render_batch_generation. unfold_M.
    destruct (_ <? _)%nat; cbn;
      repeat (match goal with
              | |- context [if ?b then _ else _] => destruct b
              end; cbn); eauto. }
  destruct R as (r & w0 & -> & M0). rewrite <- M0.
  destruct r as [[[[ps st] wd] ht]|]; [|reflexivity].
  unfold mbind, M_bind, mret, M_ret.
  pose proof (batch_loop_calls env ps 0 st wd ht [] w0) as L.
  destruct (Improved.batch_loop _ _ _ _ _ _ _ _) as [[rs|e] w1]; exact L.
Qed.

End BatchCounters.

Lemma more_no_dir_in_the_way : no_dir_in_the_way More.world_cached.
Proof.
  destruct (basic_generate_returns (H := Sample.imaging)
              (Sample.answers Sample.picture 7) Sample.cat Sample.world0)
    as (e & w' & G & P).
  - split; [reflexivity | intros p; reflexivity].
  - exact sample_no_dir_in_the_way.
  - unfold More.world_cached. cbn in G. rewrite G.
    exact (same_place_no_dir _ _ P sample_no_dir_in_the_way).
Qed.

Lemma more_cache_dir_exists :
  cache_dir_of More.world_cached ∈ dirs More.world_cached.
Proof.
  assert (B : bool_decide (cache_dir_of More.world_cached
                           ∈ dirs More.world_cached) = true)
    by (vm_compute; reflexivity).
  now apply bool_decide_eq_true in B.
Qed.

Lemma sample_clear_cooperates : clear_cooperates Sample.times_out.
Proof. split; [reflexivity | intros p; reflexivity]. Qed.

Lemma clear_cache_empties_the_cache_witness :
  files (snd (clear_cache Sample.times_out More.world_cached))
  !! artifact_path More.world_cached Sample.cat = None.
Proof.
  destruct (clear_cache_empties_the_cache Sample.times_out More.world_cached
              sample_clear_cooperates more_cache_dir_exists) as (Gone & _).
  apply Gone, artifact_in_cache_dir.
Defined.

Lemma clear_cache_twice_witness :
  fst (clear_cache (Sample.cannot_remove Sample.picture)
         (snd (clear_cache Sample.times_out More.world_cached)))
  = Return 0%Z.
Proof.
  exact (proj1 (clear_cache_twice Sample.times_out
                  (Sample.cannot_remove Sample.picture) More.world_cached
                  sample_clear_cooperates more_cache_dir_exists)).
Defined.

Lemma generate_after_clear_is_fresh_witness :
  fst (Basic.generate_image (H := Sample.imaging)
         (Sample.answers Sample.picture 9)
         "a cat on a mat" "" "watercolor" 512 512
         (snd (clear_cache Sample.times_out More.world_cached)))
  = Return (Some [x50; x4e; x47], "api", 9%Z, "Generated successfully").
Proof.
  apply (generate_after_clear_is_fresh (H := Sample.imaging)
           Sample.times_out (Sample.answers Sample.picture 9) Sample.cat
           More.world_cached Sample.picture [x50; x4e; x47]
           sample_clear_cooperates more_cache_dir_exists
           more_no_dir_in_the_way);
    reflexivity.
Defined.

Lemma generate_image_envelope_shape_witness :
  envelope_shape (H := Sample.imaging)
    (None, "error", 0%Z, "Request timed out")
  /\ envelope_shape (H := Sample.imaging)
       (Some [x50; x4e; x47], "api", 7%Z, "Generated successfully").
Proof.
  split.
  - refine (proj1 (proj1 (generate_image_envelope_shape (H := Sample.imaging)
                            Sample.times_out "a cat on a mat" "" "watercolor"
                            512 512 false Sample.world0)
                         _ (snd (Basic.generate_image (H := Sample.imaging)
                                   Sample.times_out "a cat on a mat" ""
                                   "watercolor" 512 512 Sample.world0)) _)).
    vm_compute. reflexivity.
  - refine (proj1 (proj2 (generate_image_envelope_shape (H := Sample.imaging)
                            (Sample.answers Sample.picture 7)
                            "a cat on a mat" "" "watercolor"
                            512 512 false Sample.world0)
                         _ (snd (Improved.generate_image (H := Sample.imaging)
                                   (Sample.answers Sample.picture 7)
                                   "a cat on a mat" ""
                                   "watercolor" 512 512 false Sample.world0)) _)).
    vm_compute. reflexivity.
Defined.

Lemma generate_image_counts_witness :
  session_metrics
    (snd (Basic.generate_image (H := Sample.imaging) Sample.times_out
            "a cat on a mat" "" "watercolor" 512 512 Sample.world0))
  = Metrics 0 1 0 0
  /\ session_metrics
       (snd (Improved.generate_image (H := Sample.imaging)
               (Sample.answers Sample.picture 7)
               "a cat on a mat" "" "watercolor" 512 512 false Sample.world0))
     = Metrics 0 0 0 7.
Proof.
  split.
  - refine (proj1 (generate_image_counts (H := Sample.imaging)
                     Sample.times_out "a cat on a mat" "" "watercolor"
                     512 512 false Sample.world0)
                  (None, "error", 0%Z, "Request timed out") _ _).
    vm_compute. reflexivity.
  - refine (proj2 (generate_image_counts (H := Sample.imaging)
                     (Sample.answers Sample.picture 7)
                     "a cat on a mat" "" "watercolor"
                     512 512 false Sample.world0)
                  (Some [x50; x4e; x47], "api", 7%Z, "Generated successfully")
                  _ _).
    vm_compute. reflexivity.
Defined.

Lemma failed_request_writes_nothing_witness :
  fst (Basic.generate_image (H := Sample.imaging) Sample.times_out
         "a cat on a mat" "" "watercolor" 512 512 Sample.world0)
  = Return (None, "error", 0%Z, "Request timed out")
  /\ files (snd (Basic.generate_image (H := Sample.imaging) Sample.times_out
                   "a cat on a mat" "" "watercolor" 512 512 Sample.world0))
     = files Sample.world0.
Proof.
  destruct (failed_request_writes_nothing (H := Sample.imaging)
              Sample.times_out Sample.cat Sample.world0) as (T & _).
  - reflexivity.
  - reflexivity.
  - cbn. apply not_elem_of_empty.
  - apply (T "Read timed out."). reflexivity.
Defined.

Lemma cache_hit_needs_no_endpoint_witness :
  fst (Basic.generate_image (H := Sample.imaging) Sample.times_out
         "a cat on a mat" "" "watercolor" 512 512 More.world_cached)
  = Return (Some [x50; x4e; x47], "cache", 0%Z, "Loaded from cache")
  /\ Basic.generate_image (H := Sample.imaging)
       (Sample.answers [x89; x00] 3)
       "a cat on a mat" "" "watercolor" 512 512 More.world_cached
     = Basic.generate_image (H := Sample.imaging) Sample.times_out
         "a cat on a mat" "" "watercolor" 512 512 More.world_cached.
Proof.
  destruct (cache_hit_needs_no_endpoint (H := Sample.imaging)
              Sample.times_out (Sample.answers [x89; x00] 3) Sample.cat
              More.world_cached Sample.picture [x50; x4e; x47])
    as (R & _ & E).
  - vm_compute. reflexivity.
  - reflexivity.
  - reflexivity.
  - reflexivity.
  - reflexivity.
  - reflexivity.
  - split; [exact R | exact E].
Defined.

Lemma marking_png_lossless : png_lossless (H := More.marking).
Proof. intros img _. reflexivity. Qed.

Lemma cache_ignores_enhance_witness :
  exists w1 w2,
    Improved.generate_image (H := More.marking)
      (Sample.answers Sample.picture 7)
      "a cat on a mat" "" "watercolor" 512 512 true Sample.world0
    = (Return (Some [x50; x4e; x47; x01; x02], "api", 7%Z,
               "Generated successfully"), w1)
    /\ Improved.generate_image (H := More.marking) Sample.times_out
         "a cat on a mat" "" "watercolor" 512 512 false w1
       = (Return (Some [x50; x4e; x47; x01; x02], "cache", 0%Z,
                  "Loaded from cache"), w2).
Proof.
  apply (cache_ignores_enhance (H := More.marking)
           (Sample.answers Sample.picture 7) Sample.times_out Sample.cat
           Sample.world0 Sample.picture [x50; x4e; x47]
           [x50; x4e; x47; x01; x02] true false
           marking_png_lossless);
    try reflexivity.
  cbn. apply not_elem_of_empty.
Defined.

Lemma quote_injective_witness :
  "a cat, on a mat" = "a cat, on a mat".
Proof. apply (quote_injective "a cat, on a mat" "a cat, on a mat"). reflexivity. Defined.

Lemma batch_prompts_are_clean_witness :
  blank "three green frogs" = false
  /\ Text.strip "three green frogs" = "three green frogs"
  /\ Text.contains (String "010" EmptyString) "three green frogs" = false.
Proof.
  apply (batch_prompts_are_clean
           (Improved.text_area Sample.six_prompts) "three green frogs").
  vm_compute. auto.
Defined.

Lemma render_batch_within_limit_witness :
  Improved.render_batch_generation More.two_lines Sample.world0
  = (Return (Some (["one red fox"; "two blue birds"], "watercolor", 512%Z, 512%Z)),
     Sample.world0).
Proof.
  apply (render_batch_within_limit More.two_lines Sample.world0).
  vm_compute. lia.
Defined.

Lemma tip_index_stays_in_range_witness :
  exists tip s',
    Tips.get_rotating_tip More.tips 10 (Tips.TipState 2 5) = (Return tip, s')
    /\ In tip More.tips
    /\ (0 <= Tips.tip_index s' < 3)%Z.
Proof.
  destruct (tip_index_stays_in_range More.tips 10 (Tips.TipState 2 5))
    as (tip & s' & E & I & R & _).
  - discriminate.
  - cbn. lia.
  - exists tip, s'. auto.
Defined.

Lemma init_session_state_fills_gaps_only_witness :
  Session.init_session_state 1 More.a_session !! "history"
  = Some (Session.VList [Session.VStr "an entry"])
  /\ is_Some (Session.init_session_state 1 More.a_session !! "collections").
Proof.
  destruct (init_session_state_fills_gaps_only 1 2 More.a_session)
    as (K & _ & P & _).
  split.
  - apply (K "history"). reflexivity.
  - apply P. cbn. auto 10.
Defined.

Lemma main_counts_what_it_records_witness :
  Main.generate
    (snd (fst (Main.main_basic (H := Sample.imaging) More.cat_controls
                 Sample.times_out (Sample.answers Sample.picture 7)
                 "2024-01-01 12:00:00" More.fresh_session Sample.world0)))
  = false.
Proof.
  pose proof (main_counts_what_it_records (H := Sample.imaging)
                More.cat_controls Sample.times_out
                (Sample.answers Sample.picture 7) "2024-01-01 12:00:00"
                More.fresh_session Sample.world0) as P.
  apply proj1 in P.
  set (run := Main.main_basic More.cat_controls Sample.times_out
                (Sample.answers Sample.picture 7) "2024-01-01 12:00:00"
                More.fresh_session Sample.world0) in *.
  clearbody run. destruct run as [[r s'] w']. exact (proj1 P).
Defined.

Lemma invalid_prompt_is_not_generated_witness :
  files (snd (Main.main_basic (H := Sample.imaging) More.short_controls
                Sample.times_out (Sample.answers Sample.picture 7)
                "2024-01-01 12:00:00" More.fresh_session Sample.world0))
  = files Sample.world0.
Proof.
  pose proof (invalid_prompt_is_not_generated (H := Sample.imaging)
                More.short_controls Sample.times_out
                (Sample.answers Sample.picture 7) "2024-01-01 12:00:00"
                More.fresh_session Sample.world0
                "Prompt too short (minimum 3 words)"
                eq_refl eq_refl eq_refl) as P.
  apply proj1 in P.
  set (run := Main.main_basic More.short_controls Sample.times_out
                (Sample.answers Sample.picture 7) "2024-01-01 12:00:00"
                More.fresh_session Sample.world0) in *.
  clearbody run. destruct run as [[r s'] w']. exact (proj1 (proj2 (proj2 P))).
Defined.

Lemma collections_are_never_overwritten_witness :
  Collections.get
    (Collections.collections
       (Collections.State
          [("Default", [More.an_item "one red fox"; More.an_item "two blue birds"]);
           ("Animals", [])]
          (Some "Default")))
    "Default"
  = Some [More.an_item "one red fox"; More.an_item "two blue birds"].
Proof.
  destruct (collections_are_never_overwritten (H := Sample.imaging)
              (Collections.Form "Default" true None None) More.shelves
              More.shelves [Collections.Warned "Collection already exists!"]
              false eq_refl) as (_ & K & _).
  apply (K eq_refl "Default"). reflexivity.
Defined.

Lemma remove_takes_one_item_witness :
  exists name items i,
    Collections.selected_collection
      (Collections.State
         [("Default", [More.an_item "two blue birds"]); ("Animals", [])]
         (Some "Default")) = Some name
    /\ Collections.get (Collections.collections More.shelves) name = Some items
    /\ (i < length items)%nat
    /\ S (length (Collections.pop items i)) = length items.
Proof.
  destruct (remove_takes_one_item (H := Sample.imaging)
              (Collections.Form "" false None (Some 0%nat)) More.shelves
              (Collections.State
                 [("Default", [More.an_item "two blue birds"]); ("Animals", [])]
                 (Some "Default"))
              [] eq_refl)
    as (name & items & i & S1 & _ & G & L & _ & P & _).
  exists name, items, i. auto.
Defined.

Lemma templates_fill_to_valid_prompts_witness :
  Templates.fill "a quiet harbour at dawn" = "a quiet harbour at dawn"
  /\ validate_prompt
       (Templates.fill "Fantasy {subject} in a magical {setting}, mystical atmosphere, epic fantasy art style")
     = (true, "Valid prompt").
Proof.
  destruct templates_fill_to_valid_prompts as (U & V).
  split.
  - apply U. reflexivity.
  - apply (V "Fantasy"). cbn. auto.
Defined.

Section Isolation.

Context `{Imaging}.

Lemma generate_effect_elsewhere (o : oracle) (path other : string)
    (w w' : world) :
  generate_effect o path w w' -> other <> path ->
  files w' !! other = files w !! other.
Proof.
  intros (w1 & C & F & _) N.
  assert (E1 : files w1 !! other = files w !! other).
  { destruct C as [->| ->]; [reflexivity|]. now apply lookup_delete_ne. }
  destruct F as [->|[(img & _ & _ & ->)|(b & msg & _ & ->)]];
    rewrite ?lookup_insert_ne by congruence; exact E1.
Qed.

(** X10: a call of [generate_image], in either file and whatever its
    outcome (cached image, fresh image, error envelope or escaped
    exception), changes no file but the one of its own request: every
    other path of the file system, the artifacts of all other requests
    included, holds after the call what it held before. *)
Theorem generate_touches_only_its_entry (o : oracle) (r : request)
    (enhance : bool) (w : world) (other : string) :
  other <> artifact_path w r ->
  files (snd (Basic.generate_image o (description r) (exclusions r) (style r)
                (width r) (height r) w)) !! other
  = files w !! other
  /\ files (snd (Improved.generate_image o (description r) (exclusions r)
                   (style r) (width r) (height r) enhance w)) !! other
     = files w !! other.
Proof.
  intros N. split.
  - exact (generate_effect_elsewhere o _ other w _
             (basic_generate_effect o r w) N).
  - exact (generate_effect_elsewhere o _ other w _
             (improved_generate_effect o r enhance w) N).
Qed.

End Isolation.

Lemma generate_touches_only_its_entry_witness :
  files (snd (Basic.generate_image (H := Sample.imaging)
                (Sample.answers Sample.picture 7)
                "a dog in the rain" "" "watercolor" 512 512 More.world_cached))
  !! Sample.cat_path
  = files More.world_cached !! Sample.cat_path.
Proof.
  assert (N : Sample.cat_path
               <> artifact_path More.world_cached
                    (Request "a dog in the rain" "" "watercolor" 512 512)).
  { intros E. vm_compute in E. discriminate E. }
  pose proof (generate_touches_only_its_entry (H := Sample.imaging)
                (Sample.answers Sample.picture 7)
                (Request "a dog in the rain" "" "watercolor" 512 512) false
                More.world_cached Sample.cat_path N) as P.
  apply proj1 in P. exact P.
Defined.
